(** * Repository scanner: filter engine, detector registry, scan orchestrator

    A shallow embedding of the TypeScript sources
      - filters/file-filter.ts        (class FileFilterSystem)
      - detectors/detector-manager.ts (class DetectorManager) and the three
        ecosystem detectors
      - core/scanner.ts               (class BaseScanner)
      - scanners/quick-scanner.ts     (class QuickScanner)
      - index.ts                      (class ZcfInitProject, the scan it runs)
      - config/scan-config.ts         (class ScanConfigManager)
    followed by the properties established about them.

    Conventions of the embedding.
      - An absolute, normalised path is the list of its components, so
        [join p name] is [p ++ [name]]; [relative] renders the root-relative
        path back into the string that is handed to the glob matcher.
      - [number] is [Z] for priorities, [nat] for counts and depths, [Q]
        for the coverage percentage the scanner keeps, and an IEEE 754
        binary64 value for the percentage [scanOnly] rounds to two
        decimals.
      - A string is the sequence of the UTF-8 bytes of the text.
      - A [RegExp] of a filter is the function its [test] method computes
        in module [Filter], and an object with flags and a [lastIndex] in
        module [RegExpFilter]; the two agree on expressions without the
        [g] and [y] flags.
      - The scanner is an [EventEmitter]: emitting ['error'] throws when
        no listener is attached to it.  A listener returns normally.
      - The glob matcher [minimatch] is an external library; it is a
        parameter of everything that calls it.  [None] stands for a call
        that throws.
      - A call that may throw returns a [Result]; code that threads the
        scanner's mutable fields is written in a state-and-exception monad
        over the record of those fields. *)

From Stdlib Require Import ZArith QArith Qround Lqa String Ascii List Bool Lia Sorted.
From Stdlib Require PrimFloat FloatOps SpecFloat Uint63.
From stdpp Require Import gmap strings list pretty.

Set Warnings "-register-all".

Open Scope string_scope.
Open Scope list_scope.

(* ================================================================== *)
(** * Part I: the embedding                                             *)
(* ================================================================== *)

(** ** Strings and paths *)

Definition Path := list string.

Definition sep : string := "/".

(** [join(p, name)] for the name of a directory entry, which holds no
    separator. *)
Definition join (p : Path) (name : string) : Path := p ++ [name].

Fixpoint join_with (s : string) (l : list string) : string :=
  match l with
  | [] => ""
  | [x] => x
  | x :: l' => x +:+ s +:+ join_with s l'
  end.

Fixpoint strip_common (a b : Path) : Path * Path :=
  match a, b with
  | x :: a', y :: b' => if String.eqb x y then strip_common a' b' else (a, b)
  | _, _ => (a, b)
  end.

(** Node's [path.relative(from, to)] on normalised absolute paths: drop the
    common prefix, climb out of what is left of [from], descend into what is
    left of [to]. *)
Definition relative (from to : Path) : string :=
  let '(up, down) := strip_common from to in
  join_with sep (map (fun _ => "..") up ++ down).

Definition starts_with_char (c : ascii) (s : string) : bool :=
  match s with
  | String c' _ => Ascii.eqb c c'
  | EmptyString => false
  end.

(** [name.startsWith('.')] *)
Definition is_hidden (name : string) : bool := starts_with_char "."%char name.

Fixpoint ends_with (suffix s : string) : bool :=
  if String.eqb suffix s then true
  else match s with
       | String _ s' => ends_with suffix s'
       | EmptyString => false
       end.

Definition last_component (p : Path) : option string := last p.

(** [s.split(c)] for a one-character separator. *)
Fixpoint split_on_aux (c : ascii) (cur : string) (s : string) : list string :=
  match s with
  | EmptyString => [String.rev cur]
  | String c' s' =>
      if Ascii.eqb c' c then String.rev cur :: split_on_aux c "" s'
      else split_on_aux c (String c' cur) s'
  end.

Definition split_on (c : ascii) (s : string) : list string := split_on_aux c "" s.

(** [content.split('\n')] *)
Definition split_lines (s : string) : list string := split_on "010"%char s.

(** The components of a relative path written with [/]. *)
Definition components (rel : string) : Path :=
  List.filter (fun x => negb (String.eqb x "")) (split_on "/"%char rel).

(** [join(p, rel)] for a relative path such as ['cmd/main.go']. *)
Definition join_str (p : Path) (rel : string) : Path := p ++ components rel.

(** [line.trim()].  A string is the sequence of the UTF-8 bytes of the
    text, so the white space and line terminators that [trim] strips are
    sequences of one, two or three bytes: U+0009 to U+000D and U+0020;
    U+00A0; U+1680, U+2000 to U+200A, U+2028, U+2029, U+202F, U+205F,
    U+3000 and U+FEFF. *)
Definition is_space (c : ascii) : bool :=
  let n := nat_of_ascii c in
  (n =? 32)%nat || ((9 <=? n)%nat && (n <=? 13)%nat).

Definition is_space2 (c1 c2 : ascii) : bool :=
  (nat_of_ascii c1 =? 194)%nat && (nat_of_ascii c2 =? 160)%nat.

Definition is_space3 (c1 c2 c3 : ascii) : bool :=
  let n1 := nat_of_ascii c1 in
  let n2 := nat_of_ascii c2 in
  let n3 := nat_of_ascii c3 in
  ((n1 =? 225)%nat && (n2 =? 154)%nat && (n3 =? 128)%nat)
  || ((n1 =? 226)%nat && (n2 =? 128)%nat
      && (((128 <=? n3)%nat && (n3 <=? 138)%nat)
          || (n3 =? 168)%nat || (n3 =? 169)%nat || (n3 =? 175)%nat))
  || ((n1 =? 226)%nat && (n2 =? 129)%nat && (n3 =? 159)%nat)
  || ((n1 =? 227)%nat && (n2 =? 128)%nat && (n3 =? 128)%nat)
  || ((n1 =? 239)%nat && (n2 =? 187)%nat && (n3 =? 191)%nat).

(** The string without the white space it starts with.  [backwards] tells
    that the bytes come last byte first, as in a reversed string. *)
Fixpoint trim_left (backwards : bool) (s : string) : string :=
  match s with
  | String c1 s1 =>
      if is_space c1 then trim_left backwards s1 else
      match s1 with
      | String c2 s2 =>
          if (if backwards then is_space2 c2 c1 else is_space2 c1 c2)
          then trim_left backwards s2 else
          match s2 with
          | String c3 s3 =>
              if (if backwards then is_space3 c3 c2 c1 else is_space3 c1 c2 c3)
              then trim_left backwards s3 else s
          | EmptyString => s
          end
      | EmptyString => s
      end
  | EmptyString => EmptyString
  end.

Definition trim (s : string) : string :=
  String.rev (trim_left true (String.rev (trim_left false s))).

(** ** The filesystem seen by the scanner *)

Record Stats := mkStats {
  st_size : Z;
  st_isDirectory : bool;
  st_mtime : Z
}.

(** An entry of [readdir(..., { withFileTypes: true })]. *)
Record Dirent := mkDirent {
  d_name : string;
  d_isDirectory : bool;
  d_isFile : bool
}.

(** The four filesystem calls the sources make.  [None] is a rejected
    promise; [fs_access] is already folded into a boolean because every
    caller wraps it in [try { ...; return true } catch { return false }]. *)
Record FileSystem := mkFS {
  fs_stat : Path -> option Stats;
  fs_readFile : Path -> option string;
  fs_readdir : Path -> option (list Dirent);
  fs_access : Path -> bool
}.

(** A concrete directory tree, from which the four calls are derived. *)
Inductive Node :=
| FileNode (content : string)
| DirNode (readable : bool) (entries : list (string * Node)).

Fixpoint lookup_entry (name : string) (es : list (string * Node)) : option Node :=
  match es with
  | [] => None
  | (n, x) :: es' => if String.eqb n name then Some x else lookup_entry name es'
  end.

Fixpoint resolve (t : Node) (rel : Path) : option Node :=
  match rel with
  | [] => Some t
  | name :: rel' =>
      match t with
      | DirNode _ es =>
          match lookup_entry name es with
          | Some t' => resolve t' rel'
          | None => None
          end
      | FileNode _ => None
      end
  end.

Fixpoint strip_prefix (root p : Path) : option Path :=
  match root, p with
  | [], _ => Some p
  | x :: root', y :: p' => if String.eqb x y then strip_prefix root' p' else None
  | _ :: _, [] => None
  end.

(** The node found at absolute path [p] when the tree [t] is mounted at
    [mount]. *)
Definition node_at (mount : Path) (t : Node) (p : Path) : option Node :=
  match strip_prefix mount p with
  | Some rel => resolve t rel
  | None => None
  end.

Definition is_dir_node (n : Node) : bool :=
  match n with DirNode _ _ => true | FileNode _ => false end.

Definition dirent_of (e : string * Node) : Dirent :=
  mkDirent (fst e) (is_dir_node (snd e)) (negb (is_dir_node (snd e))).

Definition tree_fs (mount : Path) (t : Node) : FileSystem :=
  {| fs_stat p :=
       match node_at mount t p with
       | Some (FileNode c) => Some (mkStats (Z.of_nat (String.length c)) false 0)
       | Some (DirNode _ _) => Some (mkStats 0 true 0)
       | None => None
       end;
     fs_readFile p :=
       match node_at mount t p with
       | Some (FileNode c) => Some c
       | _ => None
       end;
     fs_readdir p :=
       match node_at mount t p with
       | Some (DirNode true es) => Some (map dirent_of es)
       | _ => None
       end;
     fs_access p :=
       match node_at mount t p with
       | Some _ => true
       | None => false
       end |}.

(** ** Enumerations of types/index.ts *)

Inductive ProjectType :=
| JAVASCRIPT | TYPESCRIPT | PYTHON | GO | RUST | JAVA | CSHARP | PHP | RUBY
| UNKNOWN.

Inductive ScanPhase := QUICK | MODULE | DEEP.

(** The string value of each member of the [ProjectType] enum. *)
Definition ProjectType_name (t : ProjectType) : string :=
  match t with
  | JAVASCRIPT => "javascript" | TYPESCRIPT => "typescript" | PYTHON => "python"
  | GO => "go" | RUST => "rust" | JAVA => "java" | CSHARP => "csharp"
  | PHP => "php" | RUBY => "ruby" | UNKNOWN => "unknown"
  end.

#[global] Instance ProjectType_eq_dec : EqDecision ProjectType.
Proof. solve_decision. Defined.

#[global] Instance ScanPhase_eq_dec : EqDecision ScanPhase.
Proof. solve_decision. Defined.

(** ** Calls that may throw *)

(** What a [throw] carries: a [ScanError] (message, code, path, phase), or
    any other [Error], of which only the message is ever read. *)
Inductive Exn :=
| ScanErr (message code : string) (path : option Path) (phase : option ScanPhase)
| OtherError (message : string).

Definition exn_message (e : Exn) : string :=
  match e with
  | ScanErr m _ _ _ => m
  | OtherError m => m
  end.

(** [error instanceof ScanError] *)
Definition is_ScanError (e : Exn) : bool :=
  match e with ScanErr _ _ _ _ => true | OtherError _ => false end.

(** What [EventEmitter.emit('error', event)] throws when no listener is
    attached to ['error'] and the event is not an [Error]: an [Error] with
    code [ERR_UNHANDLED_ERROR].  Its message is ["Unhandled error. ("]
    followed by the rendering of the event by [util.inspect], stack traces
    included; the rendering is not modelled and the message ends after the
    fixed words. *)
Definition ERR_UNHANDLED_ERROR : Exn := OtherError "Unhandled error.".

Inductive Result (A : Type) :=
| Ok (a : A)
| Throw (e : Exn).
Arguments Ok {A} a.
Arguments Throw {A} e.

(** [Array.prototype.sort(cmp)]: the sort is stable, so for a comparator
    that orders by one numeric key the result is the one insertion sort
    gives.  [cmp a b <= 0] keeps [a] in front of [b]. *)
Fixpoint insert_by {A} (cmp : A -> A -> Z) (x : A) (l : list A) : list A :=
  match l with
  | [] => [x]
  | y :: l' => if (cmp x y <=? 0)%Z then x :: y :: l' else y :: insert_by cmp x l'
  end.

Fixpoint sort_by {A} (cmp : A -> A -> Z) (l : list A) : list A :=
  match l with
  | [] => []
  | x :: l' => insert_by cmp x (sort_by cmp l')
  end.

(** ** The filter engine (filters/file-filter.ts) *)

Module Filter.

(** [pattern: string | RegExp].  A regular expression is represented by its
    [test] method, taken to be a function of the tested string alone: this
    is what [test] is for an expression without the [g] and [y] flags.
    Module [RegExpFilter] below has the expression as an object. *)
Inductive Pattern :=
| Glob (s : string)
| RegExp (test : string -> bool).

Inductive Action := Include | Exclude.

#[global] Instance Action_eq_dec : EqDecision Action.
Proof. solve_decision. Defined.

Record FileFilter := mkFilter {
  f_name : string;
  f_pattern : Pattern;
  f_action : Action;
  f_priority : Z
}.

Record IgnoreRule := mkRule {
  r_pattern : string;
  r_description : string;
  r_priority : Z
}.

(** The private fields of [FileFilterSystem]. *)
Record FileFilterSystem := mkFFS {
  includeFilters : list FileFilter;
  excludeFilters : list FileFilter;
  ignoreRules : list IgnoreRule;
  ignoreCache : gmap string bool
}.

(** The constructor argument and the value of [exportConfig]. *)
Record Config := mkConfig {
  c_filters : option (list FileFilter);
  c_ignoreRules : option (list IgnoreRule)
}.

Definition defaultIncludeFilters : list FileFilter :=
  [ mkFilter "Source files" (Glob "**/*.{js,ts,jsx,tsx,py,go,rs,java,cpp,c,h,hpp}") Include 10;
    mkFilter "Config files" (Glob "**/*.{json,yaml,yml,toml,xml,ini,conf,config}") Include 9;
    mkFilter "Documentation" (Glob "**/*.{md,txt,rst,adoc}") Include 8;
    mkFilter "Project files" (Glob "**/package.json") Include 10;
    mkFilter "Project files" (Glob "**/go.mod") Include 10;
    mkFilter "Project files" (Glob "**/pyproject.toml") Include 10 ].

Definition defaultExcludeFilters : list FileFilter :=
  [ mkFilter "Binary files" (Glob "**/*.{exe,dll,so,dylib,a,lib}") Exclude 10;
    mkFilter "Large media files" (Glob "**/*.{mp4,avi,mov,wmv,flv,webm,mkv,mp3,wav,flac}") Exclude 10;
    mkFilter "Archive files" (Glob "**/*.{zip,tar,gz,bz2,rar,7z}") Exclude 9;
    mkFilter "Font files" (Glob "**/*.{ttf,otf,woff,woff2,eot}") Exclude 8;
    mkFilter "Image files (large)" (Glob "**/*.{psd,tiff,bmp}") Exclude 7 ].

Definition defaultIgnoreRules : list IgnoreRule :=
  [ mkRule ".git/**" "Git版本控制文件" 10;
    mkRule ".gitignore" "Git忽略文件" 10;
    mkRule ".gitmodules" "Git子模块配置" 9;
    mkRule "node_modules/**" "Node.js依赖目录" 10;
    mkRule "npm-debug.log*" "npm调试日志" 8;
    mkRule "yarn-debug.log*" "yarn调试日志" 8;
    mkRule "yarn-error.log*" "yarn错误日志" 8;
    mkRule ".pnpm-debug.log*" "pnpm调试日志" 8;
    mkRule "dist/**" "构建输出目录" 9;
    mkRule "build/**" "构建输出目录" 9;
    mkRule "out/**" "构建输出目录" 9;
    mkRule ".next/**" "Next.js构建目录" 9;
    mkRule ".nuxt/**" "Nuxt.js构建目录" 9;
    mkRule ".cache/**" "缓存目录" 8;
    mkRule "__pycache__/**" "Python字节码缓存" 10;
    mkRule "*.py[cod]" "Python字节码文件" 9;
    mkRule ".pytest_cache/**" "pytest缓存" 8;
    mkRule ".mypy_cache/**" "mypy缓存" 8;
    mkRule ".tox/**" "tox测试环境" 8;
    mkRule ".venv/**" "Python虚拟环境" 9;
    mkRule "venv/**" "Python虚拟环境" 9;
    mkRule "env/**" "Python虚拟环境" 9;
    mkRule "vendor/**" "Go依赖目录" 9;
    mkRule ".vscode/**" "VS Code配置" 7;
    mkRule ".idea/**" "IntelliJ IDEA配置" 7;
    mkRule "*.swp" "Vim交换文件" 7;
    mkRule "*.swo" "Vim交换文件" 7;
    mkRule ".DS_Store" "macOS系统文件" 7;
    mkRule "Thumbs.db" "Windows缩略图" 7;
    mkRule ".DS_Store/**" "macOS系统文件" 8;
    mkRule ".Spotlight-V100/**" "macOS Spotlight索引" 6;
    mkRule ".Trashes/**" "macOS回收站" 6;
    mkRule "*.tmp" "临时文件" 6;
    mkRule "*.temp" "临时文件" 6;
    mkRule "*.log" "日志文件" 5;
    mkRule ".env.local" "本地环境变量" 8;
    mkRule ".env.*.local" "本地环境变量" 8;
    mkRule "coverage/**" "测试覆盖率报告" 8;
    mkRule ".coverage" "Python测试覆盖率文件" 8;
    mkRule "coverage.xml" "测试覆盖率报告" 7;
    mkRule "package-lock.json" "npm锁定文件" 5;
    mkRule "yarn.lock" "yarn锁定文件" 5;
    mkRule "pnpm-lock.yaml" "pnpm锁定文件" 5;
    mkRule "poetry.lock" "Poetry锁定文件" 5 ].

Definition initializeDefaultFilters (s : FileFilterSystem) : FileFilterSystem :=
  mkFFS (includeFilters s ++ defaultIncludeFilters)
        (excludeFilters s ++ defaultExcludeFilters)
        (ignoreRules s) (ignoreCache s).

Definition initializeDefaultIgnoreRules (s : FileFilterSystem) : FileFilterSystem :=
  mkFFS (includeFilters s) (excludeFilters s)
        (ignoreRules s ++ defaultIgnoreRules) (ignoreCache s).

Definition clearCache (s : FileFilterSystem) : FileFilterSystem :=
  mkFFS (includeFilters s) (excludeFilters s) (ignoreRules s) ∅.

(** [(a, b) => b.priority - a.priority] *)
Definition by_priority_desc {A} (prio : A -> Z) (a b : A) : Z := (prio b - prio a)%Z.

Definition push_filter (s : FileFilterSystem) (f : FileFilter) : FileFilterSystem :=
  match f_action f with
  | Include => mkFFS (includeFilters s ++ [f]) (excludeFilters s) (ignoreRules s) (ignoreCache s)
  | Exclude => mkFFS (includeFilters s) (excludeFilters s ++ [f]) (ignoreRules s) (ignoreCache s)
  end.

(** [addFilters] leaves the decision cache as it is. *)
Definition addFilters (filters : list FileFilter) (s : FileFilterSystem) : FileFilterSystem :=
  let s1 := foldl push_filter s filters in
  mkFFS (sort_by (by_priority_desc f_priority) (includeFilters s1))
        (sort_by (by_priority_desc f_priority) (excludeFilters s1))
        (ignoreRules s1) (ignoreCache s1).

Definition addIgnoreRules (rules : list IgnoreRule) (s : FileFilterSystem) : FileFilterSystem :=
  clearCache
    (mkFFS (includeFilters s) (excludeFilters s)
           (sort_by (by_priority_desc r_priority) (ignoreRules s ++ rules))
           (ignoreCache s)).

Definition empty_system : FileFilterSystem := mkFFS [] [] [] ∅.

Definition opt_apply {A B} (f : A -> B -> B) (o : option A) (b : B) : B :=
  match o with Some a => f a b | None => b end.

(** [new FileFilterSystem(config)] *)
Definition new_FileFilterSystem (config : option Config) : FileFilterSystem :=
  let s := initializeDefaultIgnoreRules (initializeDefaultFilters empty_system) in
  match config with
  | Some c => opt_apply addIgnoreRules (c_ignoreRules c) (opt_apply addFilters (c_filters c) s)
  | None => s
  end.

Definition reset (s : FileFilterSystem) : FileFilterSystem :=
  initializeDefaultIgnoreRules (initializeDefaultFilters empty_system).

Definition exportConfig (s : FileFilterSystem) : list FileFilter * list IgnoreRule :=
  (includeFilters s ++ excludeFilters s, ignoreRules s).

Definition importConfig (config : list FileFilter * list IgnoreRule)
    (s : FileFilterSystem) : FileFilterSystem :=
  addIgnoreRules (snd config) (addFilters (fst config) (reset s)).

Section Matching.

(** [minimatch(path, pattern, { dot: true })]; [None] when it throws. *)
Variable minimatch : string -> string -> option bool.

Definition matchPattern (path : string) (pattern : Pattern) : bool :=
  match pattern with
  | RegExp test => test path
  | Glob g =>
      match minimatch path g with
      | Some b => b
      | None => false
      end
  end.

(** The [for ... of] loops of [shouldIgnore] and [applyFilters] return at the
    first match, which is [existsb]. *)
Definition shouldIgnore (s : FileFilterSystem) (relativePath : string) : bool :=
  existsb (fun rule => matchPattern relativePath (Glob (r_pattern rule))) (ignoreRules s).

Definition applyFilters (s : FileFilterSystem) (relativePath : string) : bool :=
  if existsb (fun f => matchPattern relativePath (f_pattern f)) (excludeFilters s)
  then false
  else if existsb (fun f => matchPattern relativePath (f_pattern f)) (includeFilters s)
  then true
  else true.

Definition cache_set (k : string) (v : bool) (s : FileFilterSystem) : FileFilterSystem :=
  mkFFS (includeFilters s) (excludeFilters s) (ignoreRules s) (<[k := v]> (ignoreCache s)).

(** [shouldInclude]: the decision and the system with its cache updated.
    The [FileInfo] assembled from the [stat] result is handed to
    [shouldIgnore] and [applyFilters], neither of which reads it; what
    remains of [stat] is whether it throws. *)
Definition shouldInclude (fs : FileSystem) (filePath rootPath : Path)
    (s : FileFilterSystem) : bool * FileFilterSystem :=
  let relativePath := relative rootPath filePath in
  let cacheKey := relativePath in
  match ignoreCache s !! cacheKey with
  | Some cached => (cached, s)
  | None =>
      match fs_stat fs filePath with
      | Some _ =>
          if shouldIgnore s relativePath
          then (false, cache_set cacheKey false s)
          else let r := applyFilters s relativePath in
               (r, cache_set cacheKey r s)
      | None => (false, cache_set cacheKey false s)
      end
  end.

Fixpoint filterFiles (fs : FileSystem) (filePaths : list Path) (rootPath : Path)
    (s : FileFilterSystem) : list Path * FileFilterSystem :=
  match filePaths with
  | [] => ([], s)
  | filePath :: rest =>
      let '(keep, s1) := shouldInclude fs filePath rootPath s in
      let '(included, s2) := filterFiles fs rest rootPath s1 in
      (if keep then filePath :: included else included, s2)
  end.

End Matching.

Definition gitignore_rule (trimmedLine : string) : IgnoreRule :=
  mkRule trimmedLine ("From .gitignore: " +:+ trimmedLine) 6.

Definition gitignore_keeps (trimmedLine : string) : bool :=
  negb (String.eqb trimmedLine "") && negb (starts_with_char "#"%char trimmedLine).

Definition gitignoreRules (content : string) : list IgnoreRule :=
  map gitignore_rule (List.filter gitignore_keeps (map trim (split_lines content))).

(** [loadGitignore]: an unreadable file changes nothing. *)
Definition loadGitignore (fs : FileSystem) (rootPath : Path)
    (s : FileFilterSystem) : FileFilterSystem :=
  match fs_readFile fs (join rootPath ".gitignore") with
  | Some content => addIgnoreRules (gitignoreRules content) s
  | None => s
  end.

(** The calls a client can make on a [FileFilterSystem], each with the
    filesystem as it is at the time of the call. *)
Inductive Call :=
| CallAddFilters (filters : list FileFilter)
| CallAddIgnoreRules (rules : list IgnoreRule)
| CallShouldInclude (fs : FileSystem) (filePath rootPath : Path)
| CallFilterFiles (fs : FileSystem) (filePaths : list Path) (rootPath : Path)
| CallLoadGitignore (fs : FileSystem) (rootPath : Path)
| CallClearCache
| CallReset
| CallImportConfig (config : list FileFilter * list IgnoreRule).

Definition run_call (minimatch : string -> string -> option bool)
    (s : FileFilterSystem) (c : Call) : FileFilterSystem :=
  match c with
  | CallAddFilters filters => addFilters filters s
  | CallAddIgnoreRules rules => addIgnoreRules rules s
  | CallShouldInclude fs filePath rootPath => snd (shouldInclude minimatch fs filePath rootPath s)
  | CallFilterFiles fs filePaths rootPath => snd (filterFiles minimatch fs filePaths rootPath s)
  | CallLoadGitignore fs rootPath => loadGitignore fs rootPath s
  | CallClearCache => clearCache s
  | CallReset => reset s
  | CallImportConfig config => importConfig config s
  end.

(** The system after construction followed by a sequence of calls. *)
Definition after_calls (minimatch : string -> string -> option bool)
    (config : option Config) (calls : list Call) : FileFilterSystem :=
  foldl (run_call minimatch) (new_FileFilterSystem config) calls.

(** The two rule-adding calls only. *)
Inductive AddCall :=
| AddFilters (filters : list FileFilter)
| AddIgnoreRules (rules : list IgnoreRule).

Definition run_add (s : FileFilterSystem) (c : AddCall) : FileFilterSystem :=
  match c with
  | AddFilters filters => addFilters filters s
  | AddIgnoreRules rules => addIgnoreRules rules s
  end.

Definition after_adds (config : option Config) (adds : list AddCall) : FileFilterSystem :=
  foldl run_add (new_FileFilterSystem config) adds.

(** A matcher for the examples: on a pattern without glob metacharacters
    minimatch succeeds exactly on the identical path.  It is used only on
    inputs where every pattern consulted either is such a literal or fails
    to match under minimatch as well. *)
Definition literal_minimatch (path pattern : string) : option bool :=
  Some (String.eqb path pattern).

End Filter.

(** ** The filter engine with regular-expression objects *)

(** The same class, with the [RegExp] of a filter as the object it is. *)
Module RegExpFilter.

(** A [RegExp] object.  [test] starts its search at the [lastIndex]
    property when the expression has the [g] or the [y] flag, and then
    leaves in [lastIndex] the end of the match, or 0 when there is none;
    without these flags the search starts at 0 and [lastIndex] is not
    written.  [re_exec S i] is the search that [RegExpBuiltinExec] makes in
    [S] from index [i]: the end index of the match, if there is one.
    [re_id] is the identity of the object: a filter holds a reference, and
    the copies that [exportConfig] makes of the filter lists share it. *)
Record RegExpObject := mkRegExp {
  re_id : nat;
  re_global : bool;
  re_sticky : bool;
  re_exec : string -> nat -> option nat
}.

(** The [lastIndex] of every [RegExp] object, by identity; 0 for an object
    that no call has written. *)
Definition Heap := gmap nat nat.

Definition lastIndex (heap : Heap) (r : RegExpObject) : nat :=
  match heap !! re_id r with
  | Some i => i
  | None => O
  end.

(** [r.test(S)] *)
Definition test (r : RegExpObject) (S : string) (heap : Heap) : bool * Heap :=
  if re_global r || re_sticky r
  then match re_exec r S (lastIndex heap r) with
       | Some e => (true, <[re_id r := e]> heap)
       | None => (false, <[re_id r := O]> heap)
       end
  else match re_exec r S O with
       | Some _ => (true, heap)
       | None => (false, heap)
       end.

(** [pattern: string | RegExp] *)
Inductive Pattern :=
| Glob (s : string)
| RegExp (r : RegExpObject).

Record FileFilter := mkFilter {
  f_name : string;
  f_pattern : Pattern;
  f_action : Filter.Action;
  f_priority : Z
}.

(** The private fields of [FileFilterSystem]. *)
Record FileFilterSystem := mkFFS {
  includeFilters : list FileFilter;
  excludeFilters : list FileFilter;
  ignoreRules : list Filter.IgnoreRule;
  ignoreCache : gmap string bool
}.

(** The constructor argument. *)
Record Config := mkConfig {
  c_filters : option (list FileFilter);
  c_ignoreRules : option (list Filter.IgnoreRule)
}.

Definition defaultIncludeFilters : list FileFilter :=
  [ mkFilter "Source files" (Glob "**/*.{js,ts,jsx,tsx,py,go,rs,java,cpp,c,h,hpp}")
             Filter.Include 10;
    mkFilter "Config files" (Glob "**/*.{json,yaml,yml,toml,xml,ini,conf,config}")
             Filter.Include 9;
    mkFilter "Documentation" (Glob "**/*.{md,txt,rst,adoc}") Filter.Include 8;
    mkFilter "Project files" (Glob "**/package.json") Filter.Include 10;
    mkFilter "Project files" (Glob "**/go.mod") Filter.Include 10;
    mkFilter "Project files" (Glob "**/pyproject.toml") Filter.Include 10 ].

Definition defaultExcludeFilters : list FileFilter :=
  [ mkFilter "Binary files" (Glob "**/*.{exe,dll,so,dylib,a,lib}") Filter.Exclude 10;
    mkFilter "Large media files" (Glob "**/*.{mp4,avi,mov,wmv,flv,webm,mkv,mp3,wav,flac}")
             Filter.Exclude 10;
    mkFilter "Archive files" (Glob "**/*.{zip,tar,gz,bz2,rar,7z}") Filter.Exclude 9;
    mkFilter "Font files" (Glob "**/*.{ttf,otf,woff,woff2,eot}") Filter.Exclude 8;
    mkFilter "Image files (large)" (Glob "**/*.{psd,tiff,bmp}") Filter.Exclude 7 ].

Definition initializeDefaultFilters (s : FileFilterSystem) : FileFilterSystem :=
  mkFFS (includeFilters s ++ defaultIncludeFilters)
        (excludeFilters s ++ defaultExcludeFilters)
        (ignoreRules s) (ignoreCache s).

Definition initializeDefaultIgnoreRules (s : FileFilterSystem) : FileFilterSystem :=
  mkFFS (includeFilters s) (excludeFilters s)
        (ignoreRules s ++ Filter.defaultIgnoreRules) (ignoreCache s).

Definition clearCache (s : FileFilterSystem) : FileFilterSystem :=
  mkFFS (includeFilters s) (excludeFilters s) (ignoreRules s) ∅.

Definition push_filter (s : FileFilterSystem) (f : FileFilter) : FileFilterSystem :=
  match f_action f with
  | Filter.Include =>
      mkFFS (includeFilters s ++ [f]) (excludeFilters s) (ignoreRules s) (ignoreCache s)
  | Filter.Exclude =>
      mkFFS (includeFilters s) (excludeFilters s ++ [f]) (ignoreRules s) (ignoreCache s)
  end.

Definition addFilters (filters : list FileFilter) (s : FileFilterSystem) : FileFilterSystem :=
  let s1 := foldl push_filter s filters in
  mkFFS (sort_by (Filter.by_priority_desc f_priority) (includeFilters s1))
        (sort_by (Filter.by_priority_desc f_priority) (excludeFilters s1))
        (ignoreRules s1) (ignoreCache s1).

Definition addIgnoreRules (rules : list Filter.IgnoreRule) (s : FileFilterSystem)
    : FileFilterSystem :=
  clearCache
    (mkFFS (includeFilters s) (excludeFilters s)
           (sort_by (Filter.by_priority_desc Filter.r_priority) (ignoreRules s ++ rules))
           (ignoreCache s)).

Definition empty_system : FileFilterSystem := mkFFS [] [] [] ∅.

(** [new FileFilterSystem(config)] *)
Definition new_FileFilterSystem (config : option Config) : FileFilterSystem :=
  let s := initializeDefaultIgnoreRules (initializeDefaultFilters empty_system) in
  match config with
  | Some c =>
      Filter.opt_apply addIgnoreRules (c_ignoreRules c)
        (Filter.opt_apply addFilters (c_filters c) s)
  | None => s
  end.

Definition reset (s : FileFilterSystem) : FileFilterSystem :=
  initializeDefaultIgnoreRules (initializeDefaultFilters empty_system).

(** The two arrays are new; the filters in them, and the [RegExp] objects
    of these, are the ones the system holds. *)
Definition exportConfig (s : FileFilterSystem) : list FileFilter * list Filter.IgnoreRule :=
  (includeFilters s ++ excludeFilters s, ignoreRules s).

Definition importConfig (config : list FileFilter * list Filter.IgnoreRule)
    (s : FileFilterSystem) : FileFilterSystem :=
  addIgnoreRules (snd config) (addFilters (fst config) (reset s)).

Section Matching.

(** [minimatch(path, pattern, { dot: true })]; [None] when it throws. *)
Variable minimatch : string -> string -> option bool.

Definition matchPattern (path : string) (pattern : Pattern) (heap : Heap) : bool * Heap :=
  match pattern with
  | RegExp r => test r path heap
  | Glob g =>
      (match minimatch path g with
       | Some b => b
       | None => false
       end, heap)
  end.

(** A [for ... of] loop that returns at the first pattern that matches:
    whether one did, and the heap after the tests that were made. *)
Fixpoint first_match (path : string) (patterns : list Pattern) (heap : Heap) : bool * Heap :=
  match patterns with
  | [] => (false, heap)
  | pattern :: rest =>
      let '(matched, heap1) := matchPattern path pattern heap in
      if matched then (true, heap1) else first_match path rest heap1
  end.

Definition shouldIgnore (s : FileFilterSystem) (relativePath : string) (heap : Heap)
    : bool * Heap :=
  first_match relativePath (map (fun rule => Glob (Filter.r_pattern rule)) (ignoreRules s)) heap.

Definition applyFilters (s : FileFilterSystem) (relativePath : string) (heap : Heap)
    : bool * Heap :=
  let '(excluded, heap1) := first_match relativePath (map f_pattern (excludeFilters s)) heap in
  if excluded then (false, heap1)
  else
    let '(included, heap2) :=
      first_match relativePath (map f_pattern (includeFilters s)) heap1 in
    if included then (true, heap2) else (true, heap2).

Definition cache_set (k : string) (v : bool) (s : FileFilterSystem) : FileFilterSystem :=
  mkFFS (includeFilters s) (excludeFilters s) (ignoreRules s) (<[k := v]> (ignoreCache s)).

(** [shouldInclude]: the decision, the system with its cache updated, and
    the heap after the tests. *)
Definition shouldInclude (fs : FileSystem) (filePath rootPath : Path)
    (s : FileFilterSystem) (heap : Heap) : bool * FileFilterSystem * Heap :=
  let relativePath := relative rootPath filePath in
  let cacheKey := relativePath in
  match ignoreCache s !! cacheKey with
  | Some cached => (cached, s, heap)
  | None =>
      match fs_stat fs filePath with
      | Some _ =>
          let '(ignored, heap1) := shouldIgnore s relativePath heap in
          if ignored
          then (false, cache_set cacheKey false s, heap1)
          else let '(r, heap2) := applyFilters s relativePath heap1 in
               (r, cache_set cacheKey r s, heap2)
      | None => (false, cache_set cacheKey false s, heap)
      end
  end.

End Matching.

(** The two rule-adding calls. *)
Inductive AddCall :=
| AddFilters (filters : list FileFilter)
| AddIgnoreRules (rules : list Filter.IgnoreRule).

Definition run_add (s : FileFilterSystem) (c : AddCall) : FileFilterSystem :=
  match c with
  | AddFilters filters => addFilters filters s
  | AddIgnoreRules rules => addIgnoreRules rules s
  end.

(** The system after construction followed by a sequence of additions. *)
Definition after_adds (config : option Config) (adds : list AddCall) : FileFilterSystem :=
  foldl run_add (new_FileFilterSystem config) adds.

(** Whether [test] on the pattern reads and writes [lastIndex]. *)
Definition keeps_lastIndex (pattern : Pattern) : bool :=
  match pattern with
  | RegExp r => re_global r || re_sticky r
  | Glob _ => false
  end.

(** No filter of the system has a [RegExp] with the [g] or the [y] flag. *)
Definition stateless (s : FileFilterSystem) : bool :=
  forallb (fun f => negb (keeps_lastIndex (f_pattern f))) (includeFilters s ++ excludeFilters s).

(** The system with each [RegExp] replaced by the function its [test] is
    when the search starts at index 0. *)
Definition pure_pattern (pattern : Pattern) : Filter.Pattern :=
  match pattern with
  | Glob g => Filter.Glob g
  | RegExp r =>
      Filter.RegExp (fun S => match re_exec r S O with Some _ => true | None => false end)
  end.

Definition pure_filter (f : FileFilter) : Filter.FileFilter :=
  Filter.mkFilter (f_name f) (pure_pattern (f_pattern f)) (f_action f) (f_priority f).

Definition pure_system (s : FileFilterSystem) : Filter.FileFilterSystem :=
  Filter.mkFFS (map pure_filter (includeFilters s)) (map pure_filter (excludeFilters s))
               (ignoreRules s) (ignoreCache s).

Definition pure_config (c : Config) : Filter.Config :=
  Filter.mkConfig (option_map (map pure_filter) (c_filters c)) (c_ignoreRules c).

Definition pure_add (c : AddCall) : Filter.AddCall :=
  match c with
  | AddFilters filters => Filter.AddFilters (map pure_filter filters)
  | AddIgnoreRules rules => Filter.AddIgnoreRules rules
  end.

End RegExpFilter.

(** ** The detector registry (detectors/) *)

Module Detect.

(** The value an [async] function returns when it is called and not
    awaited.  [await] gives the value it settles to; used as a condition,
    the promise is an object and therefore truthy. *)
Inductive Promise (A : Type) := promise (settled : A).
Arguments promise {A} settled.

Definition await {A} (p : Promise A) : A :=
  match p with promise v => v end.

Definition truthy {A} (p : Promise A) : bool := true.

(** The [ModuleDetector] interface, without [analyze], which none of the
    functions embedded below calls. *)
Record ModuleDetector := mkDetector {
  name : string;
  type : ProjectType;
  patterns : list string;
  detect : FileSystem -> Path -> Result bool
}.

(** [BaseProjectDetector.fileExists] *)
Definition fileExists (fs : FileSystem) (filePath : Path) : bool := fs_access fs filePath.

(** [hasPythonFiles] and [hasGoFiles]: a regular file of the directory with
    the given extension; an unreadable directory has none. *)
Definition hasFilesWithExt (ext : string) (fs : FileSystem) (path : Path) : bool :=
  match fs_readdir fs path with
  | Some entries => existsb (fun entry => d_isFile entry && ends_with ext (d_name entry)) entries
  | None => false
  end.

Definition anyIndicator (fs : FileSystem) (path : Path) (indicators : list string) : bool :=
  existsb (fun indicator => fileExists fs (join_str path indicator)) indicators.

Definition JavaScriptProjectDetector : ModuleDetector :=
  {| name := "JavaScript/TypeScript";
     type := JAVASCRIPT;
     patterns := ["package.json"; "package-lock.json"; "yarn.lock"; "pnpm-lock.yaml";
                  "tsconfig.json"; "jsconfig.json"; "tsconfig.base.json"];
     detect fs path := Ok (fileExists fs (join_str path "package.json")) |}.

Definition pythonIndicators : list string :=
  ["pyproject.toml"; "setup.py"; "requirements.txt"; "Pipfile"; "setup.cfg"].

Definition PythonProjectDetector : ModuleDetector :=
  {| name := "Python";
     type := PYTHON;
     patterns := ["pyproject.toml"; "setup.py"; "requirements.txt"; "requirements-dev.txt";
                  "requirements.in"; "Pipfile"; "Pipfile.lock"; "poetry.lock"; "setup.cfg";
                  "tox.ini"; "pytest.ini"; ".python-version"];
     detect fs path :=
       Ok (if anyIndicator fs path pythonIndicators then true
           else hasFilesWithExt ".py" fs path) |}.

Definition goIndicators : list string := ["go.mod"; "main.go"; "cmd/main.go"].

Definition GoProjectDetector : ModuleDetector :=
  {| name := "Go";
     type := GO;
     patterns := ["go.mod"; "go.sum"; "main.go"; "cmd/**/*.go"; "pkg/**/*.go";
                  "internal/**/*.go"; "api/**/*.go"; "vendor/**/*"];
     detect fs path :=
       Ok (if anyIndicator fs path goIndicators then true
           else hasFilesWithExt ".go" fs path) |}.

(** [Map<ProjectType, ModuleDetector>]: a JavaScript [Map] iterates in
    insertion order, and [set] on a key already present replaces the value
    where it stands. *)
Definition Registry := list (ProjectType * ModuleDetector).

Fixpoint map_set (k : ProjectType) (v : ModuleDetector) (m : Registry) : Registry :=
  match m with
  | [] => [(k, v)]
  | (k', v') :: m' => if decide (k' = k) then (k, v) :: m' else (k', v') :: map_set k v m'
  end.

Fixpoint map_get (k : ProjectType) (m : Registry) : option ModuleDetector :=
  match m with
  | [] => None
  | (k', v') :: m' => if decide (k' = k) then Some v' else map_get k m'
  end.

Definition map_delete (k : ProjectType) (m : Registry) : Registry :=
  List.filter (fun kv => negb (bool_decide (fst kv = k))) m.

Record DetectorManager := mkManager { detectors : Registry }.

Definition initializeDetectors (m : DetectorManager) : DetectorManager :=
  let jsDetector := JavaScriptProjectDetector in
  let d1 := map_set TYPESCRIPT jsDetector (map_set JAVASCRIPT jsDetector (detectors m)) in
  let pyDetector := PythonProjectDetector in
  let d2 := map_set PYTHON pyDetector d1 in
  let goDetector := GoProjectDetector in
  mkManager (map_set GO goDetector d2).

Definition new_DetectorManager : DetectorManager := initializeDetectors (mkManager []).

Definition registerDetector (t : ProjectType) (d : ModuleDetector)
    (m : DetectorManager) : DetectorManager :=
  mkManager (map_set t d (detectors m)).

Definition unregisterDetector (t : ProjectType) (m : DetectorManager) : DetectorManager :=
  mkManager (map_delete t (detectors m)).

Definition getDetector (t : ProjectType) (m : DetectorManager) : option ModuleDetector :=
  map_get t (detectors m).

(** [checkPatternMatch] is [async]: calling it yields a promise. *)
Definition checkPatternMatch (fs : FileSystem) (path : Path) (pattern : string) : Promise bool :=
  promise (fileExists fs (join_str path pattern)).

(** [detector.patterns.includes(s)] *)
Definition includes (s : string) (l : list string) : bool :=
  existsb (String.eqb s) l.

(** [calculateConfidence].  The callback given to [filter] returns the
    promise of [checkPatternMatch] without awaiting it, and [filter] keeps
    an element when the callback's value is truthy. *)
Definition calculateConfidence (fs : FileSystem) (path : Path) (t : ProjectType)
    (detector : ModuleDetector) : Z :=
  let confidence := 50%Z in
  let patternMatches :=
    length (List.filter (fun pattern => truthy (checkPatternMatch fs path pattern))
                        (patterns detector)) in
  let confidence := (confidence + Z.of_nat patternMatches * 10)%Z in
  let confidence :=
    match t with
    | TYPESCRIPT =>
        if includes "tsconfig.json" (patterns detector) then (confidence + 20)%Z else confidence
    | PYTHON =>
        if includes "pyproject.toml" (patterns detector) then (confidence + 15)%Z else confidence
    | GO =>
        if includes "go.mod" (patterns detector) then (confidence + 25)%Z else confidence
    | _ => confidence
    end in
  Z.min 100 confidence.

Record Detection := mkDetection {
  det_type : ProjectType;
  det_confidence : Z
}.

(** The loop over the registry: a detector that throws is skipped. *)
Fixpoint detectionResults (fs : FileSystem) (path : Path) (m : Registry) : list Detection :=
  match m with
  | [] => []
  | (t, detector) :: m' =>
      match detect detector fs path with
      | Ok true =>
          mkDetection t (calculateConfidence fs path t detector) :: detectionResults fs path m'
      | Ok false => detectionResults fs path m'
      | Throw _ => detectionResults fs path m'
      end
  end.

(** [(a, b) => b.confidence - a.confidence] *)
Definition by_confidence_desc (a b : Detection) : Z :=
  (det_confidence b - det_confidence a)%Z.

Definition detectProjectType (fs : FileSystem) (path : Path) (m : DetectorManager) : ProjectType :=
  let results := detectionResults fs path (detectors m) in
  if (length results =? 0)%nat then UNKNOWN
  else match sort_by by_confidence_desc results with
       | best :: _ => det_type best
       | [] => UNKNOWN
       end.

Definition isModuleRoot (fs : FileSystem) (path : Path) (m : DetectorManager) : bool :=
  negb (bool_decide (detectProjectType fs path m = UNKNOWN)).

(** [findModules] declares [scanDirectory] as a nested [async function] and
    refers to [this.isModuleRoot] inside it.  Such a function does not
    inherit [this]: it sees the receiver its caller supplies, [undefined]
    for a plain call [scanDirectory(...)].  The receiver is therefore an
    argument of the embedding; [None] is [undefined], on which the member
    access throws a [TypeError]. *)
Definition this_isModuleRoot (this : option DetectorManager) (fs : FileSystem)
    (fullPath : Path) : Result bool :=
  match this with
  | Some m => Ok (isModuleRoot fs fullPath m)
  | None => Throw (OtherError "Cannot read properties of undefined (reading 'isModuleRoot')")
  end.

(** What a discovery pass produces: the module roots pushed to [modules],
    and the directories handed to [fs.readdir], in call order. *)
Record Discovery := mkDiscovery {
  modules : list Path;
  listed : list Path
}.

(** [scanDirectory(currentPath, depth)].  [budget] is [maxDepth + 1 - depth],
    so [depth > maxDepth] is [budget = 0] and [depth + 1] is the
    predecessor.  An exception raised inside the [for] loop is caught by the
    [try] around it, which ends the loop of that directory. *)
Fixpoint scanDirectory (this : option DetectorManager) (fs : FileSystem)
    (budget : nat) (currentPath : Path) (acc : Discovery) : Discovery :=
  match budget with
  | O => acc
  | S budget' =>
      let acc := mkDiscovery (modules acc) (listed acc ++ [currentPath]) in
      match fs_readdir fs currentPath with
      | None => acc
      | Some entries =>
          (fix loop (entries : list Dirent) (acc : Discovery) : Discovery :=
             match entries with
             | [] => acc
             | entry :: rest =>
                 if d_isDirectory entry && negb (is_hidden (d_name entry)) then
                   let fullPath := join currentPath (d_name entry) in
                   match this_isModuleRoot this fs fullPath with
                   | Ok true => loop rest (mkDiscovery (modules acc ++ [fullPath]) (listed acc))
                   | Ok false => loop rest (scanDirectory this fs budget' fullPath acc)
                   | Throw _ => acc
                   end
                 else loop rest acc
             end) entries acc
      end
  end.

(** The discovery pass for a given receiver of the nested function. *)
Definition findModules_with (this : option DetectorManager) (fs : FileSystem)
    (rootPath : Path) (maxDepth : nat) : Discovery :=
  scanDirectory this fs (S maxDepth) rootPath (mkDiscovery [] []).

(** [findModules(rootPath, maxDepth)] as written: [scanDirectory(rootPath, 0)]
    is a plain call. *)
Definition findModules (fs : FileSystem) (rootPath : Path) (maxDepth : nat)
    (m : DetectorManager) : list Path :=
  modules (findModules_with None fs rootPath maxDepth).

(** The same pass when the nested function is given the manager as its
    receiver. *)
Definition findModules_bound (fs : FileSystem) (rootPath : Path) (maxDepth : nat)
    (m : DetectorManager) : list Path :=
  modules (findModules_with (Some m) fs rootPath maxDepth).

(** The confidence score as the specification words it: 50, plus 10 for
    each declared pattern present on disk, plus the bonus of the first of
    go.mod (25), tsconfig.json (20), pyproject.toml (15) that is present,
    capped at 100. *)
Definition confidence_as_specified (fs : FileSystem) (path : Path)
    (detector : ModuleDetector) : Z :=
  let present := List.filter (fun pattern => fileExists fs (join_str path pattern))
                             (patterns detector) in
  let bonus :=
    if fileExists fs (join_str path "go.mod") then 25%Z
    else if fileExists fs (join_str path "tsconfig.json") then 20%Z
    else if fileExists fs (join_str path "pyproject.toml") then 15%Z
    else 0%Z in
  Z.min 100 (50 + Z.of_nat (length present) * 10 + bonus).

End Detect.

(** ** The scan orchestrator and the quick scanner (core/, scanners/) *)

Module Scan.

Import Filter Detect.

(** *** Data of types/index.ts *)

Inductive RecommendationType := scan_deeper | add_config | fix_structure | add_docs | optimize.

Inductive Priority := low | medium | high | critical.

(** The text of a recommendation's description; the two template strings
    keep the number they interpolate. *)
Inductive Description :=
| Text (s : string)
| CoverageText (coverage : Q)
| ModuleCountText (n : Z).

Record Recommendation := mkRecommendation {
  rec_type : RecommendationType;
  rec_priority : Priority;
  rec_title : string;
  rec_description : Description;
  rec_targetPath : option (list Path);
  rec_action : option string
}.

Inductive DependencyKind := production | development | peer | optional.

Record Dependency := mkDependency {
  dep_name : string;
  dep_version : string;
  dep_type : DependencyKind
}.

Record ModuleMetadata := mkMetadata {
  description : string;
  author : string;
  license : string;
  repository : string;
  keywords : list string;
  scripts : list (string * string);
  engines : list (string * string)
}.

Record ModuleInfo := mkModuleInfo {
  mi_path : Path;
  mi_name : string;
  mi_type : ProjectType;
  entryPoints : list Path;
  dependencies : list Dependency;
  devDependencies : list Dependency;
  keyFiles : list Path;
  testFiles : list Path;
  configFiles : list Path;
  docs : list Path;
  metadata : ModuleMetadata
}.

Record ScanStatistics := mkStatistics {
  totalFiles : Z;
  scannedFiles : Z;
  ignoredFiles : Z;
  modulesFound : Z;
  scanDuration : Z;
  fileSize : Z;
  linesOfCode : Z;
  coverage : Q
}.

Inductive Status := pending | running | completed | failed | skipped.

Record ScanPhaseRecord := mkRecord {
  phase : ScanPhase;
  startTime : Z;
  endTime : Z;
  duration : Z;
  filesProcessed : Z;
  status : Status;
  error : option string
}.

(** [globalFiles] and [ignoredFiles] of the result are created empty and
    never written; they are left out. *)
Record ProjectScanResult := mkScanResult {
  rootPath : Path;
  projectType : ProjectType;
  sr_modules : list ModuleInfo;
  scanStatistics : ScanStatistics;
  scanPhases : list ScanPhaseRecord;
  recommendations : list Recommendation
}.

Record PerformanceLimits := mkLimits {
  maxFiles : Z;
  maxFileSize : Z;
  maxDepth : Z;
  timeout : Z;
  memoryLimit : Z
}.

(** [ScanConfig]; [moduleDetectors] is never read.  [performanceLimits] may
    be absent: the code tests it before use. *)
Record ScanConfig := mkScanConfig {
  fileFilters : list FileFilter;
  cfg_ignoreRules : list IgnoreRule;
  performanceLimits : option PerformanceLimits
}.

(** Of [ScanOptions] only [phases] is read. *)
Record ScanOptions := mkOptions {
  phases : option (list ScanPhase)
}.

Record ProgressInfo := mkProgress {
  pr_phase : ScanPhase;
  pr_current : Q;
  pr_total : Q;
  pr_message : string;
  pr_percentage : Z
}.

(** The payload of an emitted [ScanEvent], by event type. *)
Inductive EventData :=
| ev_start (path : Path) (options : ScanOptions)
| ev_phase_start (ph : ScanPhase) (path : Path)
| ev_phase_complete (ph : ScanPhase) (record : ScanPhaseRecord)
| ev_phase_error (ph : ScanPhase) (e : Exn) (record : ScanPhaseRecord)
| ev_error (e : Exn) (ph : option ScanPhase)
| ev_progress (p : ProgressInfo)
| ev_complete (result : ProjectScanResult).

(** Whether the event is emitted with type ['error']. *)
Definition is_error_event (data : EventData) : bool :=
  match data with
  | ev_phase_error _ _ _ | ev_error _ _ => true
  | _ => false
  end.

Record ScanEvent := mkEvent {
  ev_timestamp : Z;
  ev_data : EventData
}.

(** *** The scanner object

    The fields of [QuickScanner] (those of [BaseScanner] first), and with
    them the objects its methods share by reference: the phase record under
    construction, the two locals that the closure in
    [quickTraverseDirectory] captures, the events handed to [emit] so far, the
    number of clock readings taken, and [listenerCount('error')] of the
    [EventEmitter] the scanner extends. *)
Record Scanner := mkScanner {
  config : ScanConfig;
  options : ScanOptions;
  scanResult : ProjectScanResult;
  currentPhase : option ScanPhase;
  detectorManager : DetectorManager;
  fileFilter : FileFilterSystem;
  record : ScanPhaseRecord;
  allFiles : list Path;
  filesProcessed_local : Z;
  events : list ScanEvent;
  ticks : nat;
  errorListeners : nat
}.

Definition with_options (o : ScanOptions) (s : Scanner) : Scanner :=
  mkScanner (config s) o (scanResult s) (currentPhase s) (detectorManager s)
            (fileFilter s) (record s) (allFiles s) (filesProcessed_local s) (events s) (ticks s)
            (errorListeners s).

Definition with_scanResult (r : ProjectScanResult) (s : Scanner) : Scanner :=
  mkScanner (config s) (options s) r (currentPhase s) (detectorManager s)
            (fileFilter s) (record s) (allFiles s) (filesProcessed_local s) (events s) (ticks s)
            (errorListeners s).

Definition with_currentPhase (p : option ScanPhase) (s : Scanner) : Scanner :=
  mkScanner (config s) (options s) (scanResult s) p (detectorManager s)
            (fileFilter s) (record s) (allFiles s) (filesProcessed_local s) (events s) (ticks s)
            (errorListeners s).

Definition with_fileFilter (f : FileFilterSystem) (s : Scanner) : Scanner :=
  mkScanner (config s) (options s) (scanResult s) (currentPhase s) (detectorManager s)
            f (record s) (allFiles s) (filesProcessed_local s) (events s) (ticks s)
            (errorListeners s).

Definition with_record (r : ScanPhaseRecord) (s : Scanner) : Scanner :=
  mkScanner (config s) (options s) (scanResult s) (currentPhase s) (detectorManager s)
            (fileFilter s) r (allFiles s) (filesProcessed_local s) (events s) (ticks s)
            (errorListeners s).

Definition with_locals (files : list Path) (n : Z) (s : Scanner) : Scanner :=
  mkScanner (config s) (options s) (scanResult s) (currentPhase s) (detectorManager s)
            (fileFilter s) (record s) files n (events s) (ticks s)
            (errorListeners s).

Definition with_events (e : list ScanEvent) (s : Scanner) : Scanner :=
  mkScanner (config s) (options s) (scanResult s) (currentPhase s) (detectorManager s)
            (fileFilter s) (record s) (allFiles s) (filesProcessed_local s) e (ticks s)
            (errorListeners s).

Definition with_ticks (n : nat) (s : Scanner) : Scanner :=
  mkScanner (config s) (options s) (scanResult s) (currentPhase s) (detectorManager s)
            (fileFilter s) (record s) (allFiles s) (filesProcessed_local s) (events s) n
            (errorListeners s).

(** [scanner.on('error', listener)] *)
Definition on_error (s : Scanner) : Scanner :=
  mkScanner (config s) (options s) (scanResult s) (currentPhase s) (detectorManager s)
            (fileFilter s) (record s) (allFiles s) (filesProcessed_local s) (events s) (ticks s)
            (S (errorListeners s)).

Definition with_rootPath (p : Path) (r : ProjectScanResult) : ProjectScanResult :=
  mkScanResult p (projectType r) (sr_modules r) (scanStatistics r) (scanPhases r)
               (recommendations r).

Definition with_projectType (t : ProjectType) (r : ProjectScanResult) : ProjectScanResult :=
  mkScanResult (rootPath r) t (sr_modules r) (scanStatistics r) (scanPhases r)
               (recommendations r).

Definition with_modules (m : list ModuleInfo) (r : ProjectScanResult) : ProjectScanResult :=
  mkScanResult (rootPath r) (projectType r) m (scanStatistics r) (scanPhases r)
               (recommendations r).

Definition with_statistics (st : ScanStatistics) (r : ProjectScanResult) : ProjectScanResult :=
  mkScanResult (rootPath r) (projectType r) (sr_modules r) st (scanPhases r)
               (recommendations r).

Definition with_scanPhases (l : list ScanPhaseRecord) (r : ProjectScanResult) : ProjectScanResult :=
  mkScanResult (rootPath r) (projectType r) (sr_modules r) (scanStatistics r) l
               (recommendations r).

Definition with_recommendations (l : list Recommendation) (r : ProjectScanResult)
    : ProjectScanResult :=
  mkScanResult (rootPath r) (projectType r) (sr_modules r) (scanStatistics r) (scanPhases r) l.

(** *** The monad of scanner methods

    A method takes the scanner, may throw, and leaves the scanner as its
    assignments made it; a [throw] keeps the assignments made before it. *)
Definition M (A : Type) : Type := Scanner -> Result A * Scanner.

#[global] Instance M_ret : MRet M := fun A a s => (Ok a, s).

#[global] Instance M_bind : MBind M := fun A B f m s =>
  match m s with
  | (Ok a, s') => f a s'
  | (Throw e, s') => (Throw e, s')
  end.

Definition throw {A} (e : Exn) : M A := fun s => (Throw e, s).

(** [try { body } catch (e) { handler(e) }] *)
Definition try_catch {A} (body : M A) (handler : Exn -> M A) : M A := fun s =>
  match body s with
  | (Ok a, s') => (Ok a, s')
  | (Throw e, s') => handler e s'
  end.

Definition get : M Scanner := fun s => (Ok s, s).

Definition modify (f : Scanner -> Scanner) : M unit := fun s => (Ok tt, f s).

Definition modify_result (f : ProjectScanResult -> ProjectScanResult) : M unit :=
  modify (fun s => with_scanResult (f (scanResult s)) s).

Definition modify_statistics (f : ScanStatistics -> ScanStatistics) : M unit :=
  modify_result (fun r => with_statistics (f (scanStatistics r)) r).

Definition modify_record (f : ScanPhaseRecord -> ScanPhaseRecord) : M unit :=
  modify (fun s => with_record (f (record s)) s).

(** *** BaseScanner (core/scanner.ts) *)

Section BaseScanner.

(** [clock n] is the [n]-th reading of the system clock ([new Date()],
    [Date.now()]), in milliseconds. *)
Variable clock : nat -> Z.

(** The three abstract phase implementations.  Each receives the phase
    record by reference, here the [record] field of the scanner. *)
Variable performQuickScan : Path -> M unit.
Variable performModuleScan : Path -> M unit.
Variable performDeepScan : Path -> M unit.

Definition now : M Z := fun s => (Ok (clock (ticks s)), with_ticks (S (ticks s)) s).

(** [emitEvent]: the event is stamped and handed to [this.emit], and it is
    appended to [events].  The listeners are outside the embedding and are
    taken to return.  An ['error'] event for which no listener is attached
    makes [emit] throw. *)
Definition emitEvent (data : EventData) : M unit :=
  timestamp ← now;
  modify (fun s => with_events (events s ++ [mkEvent timestamp data]) s);;
  s ← get;
  if is_error_event data && (errorListeners s =? 0)%nat
  then throw ERR_UNHANDLED_ERROR
  else mret tt.

Definition initializeScanResult : ProjectScanResult :=
  {| rootPath := [];
     projectType := UNKNOWN;
     sr_modules := [];
     scanStatistics :=
       {| totalFiles := 0; scannedFiles := 0; ignoredFiles := 0; modulesFound := 0;
          scanDuration := 0; fileSize := 0; linesOfCode := 0; coverage := 0 |};
     scanPhases := [];
     recommendations := [] |}.

(** [Math.round] *)
Definition Math_round (x : Q) : Z := Qfloor (x + (1 # 2)).

Definition reportProgress (current total : Q) (message : string) : M unit :=
  s ← get;
  match currentPhase s with
  | Some ph =>
      emitEvent (ev_progress (mkProgress ph current total message
                                         (Math_round (current / total * 100))))
  | None => mret tt
  end.

(** [shouldStopScan]: it returns [false] or throws. *)
Definition shouldStopScan : M bool :=
  s ← get;
  match performanceLimits (config s) with
  | Some limits =>
      if (maxFiles limits <=? totalFiles (scanStatistics (scanResult s)))%Z then
        throw (ScanErr ("Maximum file limit reached: " +:+ pretty (maxFiles limits))
                       "FILE_LIMIT_EXCEEDED" (Some (rootPath (scanResult s))) (currentPhase s))
      else if (memoryLimit limits <=? fileSize (scanStatistics (scanResult s)))%Z then
        throw (ScanErr ("Memory limit reached: " +:+ pretty (memoryLimit limits) +:+ " bytes")
                       "MEMORY_LIMIT_EXCEEDED" (Some (rootPath (scanResult s))) (currentPhase s))
      else mret false
  | None => mret false
  end.

Definition set_coverage (c : Q) (st : ScanStatistics) : ScanStatistics :=
  mkStatistics (totalFiles st) (scannedFiles st) (ignoredFiles st) (modulesFound st)
               (scanDuration st) (fileSize st) (linesOfCode st) c.

Definition set_scanDuration (d : Z) (st : ScanStatistics) : ScanStatistics :=
  mkStatistics (totalFiles st) (scannedFiles st) (ignoredFiles st) (modulesFound st)
               d (fileSize st) (linesOfCode st) (coverage st).

(** [(scannedFiles / totalFiles) * 100] *)
Definition coverage_of (scanned total : Z) : Q := (inject_Z scanned / inject_Z total) * 100.

(** [coverage < bound] *)
Definition coverage_below (bound : Q) (c : Q) : bool := negb (Qle_bool bound c).

Definition low_coverage_recommendation : Recommendation :=
  {| rec_type := scan_deeper;
     rec_priority := medium;
     rec_title := "建议进行深度扫描";
     rec_description := Text "当前扫描覆盖率较低，建议启用深度扫描以获得更完整的项目分析";
     rec_targetPath := None;
     rec_action := Some "运行包含深度扫描的完整扫描" |}.

Definition add_docs_recommendation (modulesWithoutDocs : list ModuleInfo) : Recommendation :=
  {| rec_type := add_docs;
     rec_priority := high;
     rec_title := "建议为模块添加文档";
     rec_description := ModuleCountText (Z.of_nat (length modulesWithoutDocs));
     rec_targetPath := Some (map mi_path modulesWithoutDocs);
     rec_action := None |}.

(** The list [generateRecommendations] builds from a scan result. *)
Definition final_recommendations (r : ProjectScanResult) : list Recommendation :=
  let recs := [] in
  let recs :=
    if coverage_below 50 (coverage (scanStatistics r))
    then recs ++ [low_coverage_recommendation] else recs in
  let modulesWithoutDocs :=
    List.filter (fun m => (length (docs m) =? 0)%nat) (sr_modules r) in
  let recs :=
    if (0 <? length modulesWithoutDocs)%nat
    then recs ++ [add_docs_recommendation modulesWithoutDocs] else recs in
  recs.

Definition generateRecommendations : M unit :=
  modify_result (fun r => with_recommendations (final_recommendations r) r).

Definition sum_durations (l : list ScanPhaseRecord) : Z :=
  foldl (fun sum ph => (sum + duration ph)%Z) 0%Z l.

Definition finalizeScan : M unit :=
  modify_result (fun r =>
    with_statistics (set_scanDuration (sum_durations (scanPhases r)) (scanStatistics r)) r);;
  modify_statistics (fun st =>
    if (0 <? totalFiles st)%Z
    then set_coverage (coverage_of (scannedFiles st) (totalFiles st)) st
    else st);;
  generateRecommendations.

(** [handleError] throws on both of its branches. *)
Definition handleError (error : Exn) (ph : option ScanPhase) : M unit :=
  emitEvent (ev_error error ph);;
  if is_ScanError error then throw error
  else s ← get;
       throw (ScanErr ("Scan failed: " +:+ exn_message error) "SCAN_ERROR"
                      (Some (rootPath (scanResult s))) ph).

Definition new_record (ph : ScanPhase) (startTime endTime : Z) : ScanPhaseRecord :=
  {| phase := ph; startTime := startTime; endTime := endTime; duration := 0;
     filesProcessed := 0; status := running; error := None |}.

Definition set_status (st : Status) (r : ScanPhaseRecord) : ScanPhaseRecord :=
  mkRecord (phase r) (startTime r) (endTime r) (duration r) (filesProcessed r) st (error r).

Definition set_error (msg : string) (r : ScanPhaseRecord) : ScanPhaseRecord :=
  mkRecord (phase r) (startTime r) (endTime r) (duration r) (filesProcessed r) (status r)
           (Some msg).

Definition set_end (endTime startTime : Z) (r : ScanPhaseRecord) : ScanPhaseRecord :=
  mkRecord (phase r) (Scan.startTime r) endTime (endTime - startTime)%Z (filesProcessed r)
           (status r) (error r).

Definition set_filesProcessed (n : Z) (r : ScanPhaseRecord) : ScanPhaseRecord :=
  mkRecord (phase r) (startTime r) (endTime r) (duration r) n (status r) (error r).

(** The [switch] of [scanPhase]. *)
Definition dispatch (ph : ScanPhase) (path : Path) : M unit :=
  match ph with
  | QUICK => performQuickScan path
  | MODULE => performModuleScan path
  | DEEP => performDeepScan path
  end.

(** [scanPhase], in its three blocks: what precedes the [try], the rest of
    the [try] block after the [switch], and the [catch] block up to its
    [throw]. *)
Definition phase_entry (ph : ScanPhase) (path : Path) : M Z :=
  startTime ← now;
  modify (with_currentPhase (Some ph));;
  emitEvent (ev_phase_start ph path);;
  created ← now;
  modify (with_record (new_record ph startTime created));;
  mret startTime.

Definition phase_success (ph : ScanPhase) (startTime : Z) : M ScanPhaseRecord :=
  modify_record (set_status completed);;
  endTime ← now;
  modify_record (set_end endTime startTime);;
  s ← get;
  emitEvent (ev_phase_complete ph (record s));;
  mret (record s).

Definition phase_failure (ph : ScanPhase) (startTime : Z) (error : Exn) : M unit :=
  modify_record (set_status failed);;
  modify_record (set_error (exn_message error));;
  endTime ← now;
  modify_record (set_end endTime startTime);;
  s ← get;
  emitEvent (ev_phase_error ph error (record s)).

Definition scanPhase (ph : ScanPhase) (path : Path) : M ScanPhaseRecord :=
  startTime ← phase_entry ph path;
  try_catch
    (dispatch ph path;;
     phase_success ph startTime)
    (fun error =>
     phase_failure ph startTime error;;
     throw error).

(** [{ ...this.options, ...options }] *)
Definition merge_options (old new : ScanOptions) : ScanOptions :=
  mkOptions (match phases new with Some p => Some p | None => phases old end).

(** The [for (const phase of phases)] loop of [scan].  The body's value
    tells whether the loop was left by [break]. *)
Fixpoint scan_loop (path : Path) (todo : list ScanPhase) : M unit :=
  match todo with
  | [] => mret tt
  | ph :: rest =>
      left_by_break ←
        try_catch
          (modify (with_currentPhase (Some ph));;
           phaseRecord ← scanPhase ph path;
           modify_result (fun r => with_scanPhases (scanPhases r ++ [phaseRecord]) r);;
           mret false)
          (fun error => handleError error (Some ph);; mret true);
      if left_by_break : bool then mret tt else scan_loop path rest
  end.

Definition requested_phases (opts : ScanOptions) : list ScanPhase :=
  match phases opts with
  | Some p => p
  | None => [QUICK; MODULE; DEEP]
  end.

(** [scan]: the statements before the loop, the loop, [finalizeScan], the
    [complete] event. *)
Definition scan_entry (path : Path) (opts : ScanOptions) : M unit :=
  modify (fun s => with_options (merge_options (options s) opts) s);;
  modify_result (with_rootPath path);;
  emitEvent (ev_start path opts).

Definition scan (path : Path) (opts : ScanOptions) : M ProjectScanResult :=
  scan_entry path opts;;
  scan_loop path (requested_phases opts);;
  finalizeScan;;
  s ← get;
  emitEvent (ev_complete (scanResult s));;
  s ← get;
  mret (scanResult s).

End BaseScanner.

(** *** QuickScanner (scanners/quick-scanner.ts) *)

Section QuickScanner.

Variable minimatch : string -> string -> option bool.
Variable fs : FileSystem.
Variable clock : nat -> Z.

(** [quickTraverseDirectory] declares [traverseDirectory] as a nested
    [async function] that refers to [this].  The first call supplies the
    scanner ([traverseDirectory.call(this, rootPath, 0)]); the recursive
    call is plain, which leaves [this] undefined.  [nested_this] is the
    receiver the recursive call sees: [false] for [undefined], as written,
    [true] for the scanner. *)
Variable nested_this : bool.

Definition this_shouldStopScan (this : bool) : M bool :=
  if this then shouldStopScan
  else throw (OtherError "Cannot read properties of undefined (reading 'shouldStopScan')").

Definition this_reportProgress (this : bool) (current total : Q) (message : string) : M unit :=
  if this then reportProgress clock current total message
  else throw (OtherError "Cannot read properties of undefined (reading 'reportProgress')").

Definition readdir (path : Path) : M (list Dirent) :=
  match fs_readdir fs path with
  | Some entries => mret entries
  | None => throw (OtherError "ENOENT")
  end.

Definition Q_min (a b : Q) : Q := if Qle_bool a b then a else b.

(** The [else] branch of the loop of [traverseDirectory]: a file is
    pushed and counted, with a progress report every hundredth file. *)
Definition push_file (this : bool) (fullPath : Path) : M unit :=
  modify (fun s => with_locals (allFiles s ++ [fullPath]) (filesProcessed_local s + 1)%Z s);;
  s ← get;
  let filesProcessed := filesProcessed_local s in
  if (filesProcessed mod 100 =? 0)%Z then
    modify_record (set_filesProcessed filesProcessed);;
    this_reportProgress this (Q_min (inject_Z filesProcessed / 1000 * 30) 30) 100
      ("已扫描 " +:+ pretty filesProcessed +:+ " 个文件...")
  else mret tt.

(** The [for] loop of [traverseDirectory]; [recurse] is the recursive call
    [traverseDirectory(fullPath, depth + 1)]. *)
Fixpoint traverse_entries (recurse : Path -> M unit) (this : bool)
    (rootPath currentPath : Path) (entries : list Dirent) : M unit :=
  match entries with
  | [] => mret tt
  | entry :: rest =>
      stop ← this_shouldStopScan this;
      if stop : bool then mret tt else
      if is_hidden (d_name entry) && negb (bool_decide (currentPath = rootPath))
      then traverse_entries recurse this rootPath currentPath rest
      else
        let fullPath := join currentPath (d_name entry) in
        if d_isDirectory entry
        then recurse fullPath;; traverse_entries recurse this rootPath currentPath rest
        else push_file this fullPath;; traverse_entries recurse this rootPath currentPath rest
  end.

(** [traverseDirectory(currentPath, depth)] with receiver [this]; [budget]
    is [maxDepth + 1 - depth].  The first [shouldStopScan] stands before the
    [try]; what the loop throws, the [catch] swallows. *)
Fixpoint traverseDirectory (this : bool) (rootPath : Path) (budget : nat)
    (currentPath : Path) : M unit :=
  match budget with
  | O => mret tt
  | S budget' =>
      stop ← this_shouldStopScan this;
      if stop : bool then mret tt else
      try_catch
        (entries ← readdir currentPath;
         traverse_entries (traverseDirectory nested_this rootPath budget') this
                          rootPath currentPath entries)
        (fun _ => mret tt)
  end.

(** [this.config.performanceLimits?.maxDepth || 10] *)
Definition configured_maxDepth (c : ScanConfig) : Z :=
  match performanceLimits c with
  | Some limits => if (maxDepth limits =? 0)%Z then 10%Z else maxDepth limits
  | None => 10%Z
  end.

Definition quickTraverseDirectory (rootPath : Path) : M (list Path) :=
  modify (with_locals [] 0);;
  s ← get;
  traverseDirectory true rootPath (Z.to_nat (configured_maxDepth (config s) + 1)) rootPath;;
  s ← get;
  mret (allFiles s).

Definition moduleIndicators : list string :=
  ["package.json"; "go.mod"; "pyproject.toml"; "setup.py"; "Cargo.toml"; "pom.xml";
   "build.gradle"; "csproj"; "sln"].

Definition commonModuleDirs : list string :=
  ["packages"; "libs"; "modules"; "apps"; "services"; "components"].

(** [Set.add] on a set kept in insertion order. *)
Definition set_add (p : Path) (set : list Path) : list Path :=
  if bool_decide (p ∈ set) then set else set ++ [p].

(** [join(rootPath, ...parts)] *)
Definition join_parts (p : Path) (parts : list string) : Path :=
  foldl (fun acc part =>
           if String.eqb part "" || String.eqb part "." then acc
           else if String.eqb part ".." then removelast acc
           else acc ++ [part]) p parts.

Definition indicated_root (rootPath filePath : Path) : option Path :=
  let relativePath := relative rootPath filePath in
  let pathParts := split_on "/"%char relativePath in
  let fileName := List.last pathParts "" in
  if includes fileName moduleIndicators
  then Some (join_parts rootPath (removelast pathParts))
  else None.

Definition findSubdirectories (dirPath : Path) : list Path :=
  match fs_readdir fs dirPath with
  | Some entries =>
      map (fun entry => join dirPath (d_name entry))
          (List.filter (fun entry => d_isDirectory entry && negb (is_hidden (d_name entry)))
                       entries)
  | None => []
  end.

(** [quickIdentifyModules].  The callback of [subDirs.forEach] awaits
    [isModuleRoot] without being an [async] function, which the parser
    refuses as the file is written; the call is read as the loop that
    awaits each subdirectory in turn. *)
Definition quickIdentifyModules (files : list Path) (rootPath : Path)
    (m : DetectorManager) : list Path :=
  let modulePaths :=
    foldl (fun set filePath =>
             match indicated_root rootPath filePath with
             | Some moduleRoot => set_add moduleRoot set
             | None => set
             end) [] files in
  foldl (fun set moduleDir =>
           let moduleDirPath := join rootPath moduleDir in
           if fs_access fs moduleDirPath then
             foldl (fun set subDir =>
                      if isModuleRoot fs subDir m then set_add subDir set else set)
                   set (findSubdirectories moduleDirPath)
           else set) modulePaths commonModuleDirs.

(** [modulePath.split(sep)] ends with the last component. *)
Definition extractModuleName (modulePath : Path) : string :=
  match last modulePath with
  | Some n => if String.eqb n "" then "unknown" else n
  | None => "unknown"
  end.

Definition empty_metadata : ModuleMetadata :=
  {| description := ""; author := ""; license := ""; repository := "";
     keywords := []; scripts := []; engines := [] |}.

Definition quickAnalyzeModule (modulePath : Path) (t : ProjectType) : M ModuleInfo :=
  let moduleName := extractModuleName modulePath in
  s ← get;
  match getDetector t (detectorManager s) with
  | None => throw (ScanErr ("找不到 " +:+ ProjectType_name t +:+ " 类型的检测器")
                          "DETECTOR_NOT_FOUND" (Some modulePath) None)
  | Some detector =>
      match detect detector fs modulePath with
      | Throw e => throw e
      | Ok false => throw (ScanErr "模块类型检测失败" "MODULE_TYPE_MISMATCH" (Some modulePath) None)
      | Ok true =>
          mret {| mi_path := modulePath; mi_name := moduleName; mi_type := t;
                  entryPoints := []; dependencies := []; devDependencies := [];
                  keyFiles := []; testFiles := []; configFiles := []; docs := [];
                  metadata := empty_metadata |}
      end
  end.

(** How one turn of the loop of [quickAnalyzeModules] ends. *)
Inductive Turn := turn_break | turn_continue | turn_push (info : ModuleInfo).

Fixpoint quickAnalyzeModules_loop (modulePaths : list Path)
    (moduleInfos : list ModuleInfo) : M (list ModuleInfo) :=
  match modulePaths with
  | [] => mret moduleInfos
  | modulePath :: rest =>
      turn ←
        try_catch
          (stop ← shouldStopScan;
           if stop : bool then mret turn_break else
           s ← get;
           let t := detectProjectType fs modulePath (detectorManager s) in
           if bool_decide (t = UNKNOWN) then mret turn_continue else
           moduleInfo ← quickAnalyzeModule modulePath t;
           mret (turn_push moduleInfo))
          (fun _ => mret turn_continue);
      match turn with
      | turn_break => mret moduleInfos
      | turn_continue => quickAnalyzeModules_loop rest moduleInfos
      | turn_push moduleInfo => quickAnalyzeModules_loop rest (moduleInfos ++ [moduleInfo])
      end
  end.

Definition quickAnalyzeModules (modulePaths : list Path) (rootPath : Path)
    : M (list ModuleInfo) :=
  quickAnalyzeModules_loop modulePaths [].

Definition updateStatistics (allFiles filteredFiles : list Path)
    (moduleInfos : list ModuleInfo) : M unit :=
  modify_statistics (fun stats =>
    let total := Z.of_nat (length allFiles) in
    let scanned := Z.of_nat (length filteredFiles) in
    let stats :=
      mkStatistics total scanned (total - scanned)%Z (Z.of_nat (length moduleInfos))
                   (scanDuration stats) (fileSize stats) (linesOfCode stats) (coverage stats) in
    if (0 <? totalFiles stats)%Z
    then set_coverage (coverage_of (scannedFiles stats) (totalFiles stats)) stats
    else stats).

Definition no_modules_recommendation : Recommendation :=
  {| rec_type := scan_deeper;
     rec_priority := high;
     rec_title := "未找到模块，建议进行深度扫描";
     rec_description := Text "快速扫描未发现项目模块，建议启用模块和深度扫描以获得更准确的分析";
     rec_targetPath := None;
     rec_action := Some "使用 --phases quick,module,deep 参数进行完整扫描" |}.

Definition coverage_recommendation (c : Q) : Recommendation :=
  {| rec_type := scan_deeper;
     rec_priority := medium;
     rec_title := "扫描覆盖率较低";
     rec_description := CoverageText c;
     rec_targetPath := None;
     rec_action := Some "调整过滤器配置或启用深度扫描" |}.

Definition unknown_type_recommendation : Recommendation :=
  {| rec_type := add_config;
     rec_priority := medium;
     rec_title := "未识别的项目类型";
     rec_description := Text "无法识别项目类型，建议手动配置或添加自定义检测器";
     rec_targetPath := None;
     rec_action := Some "手动指定项目类型或创建自定义检测器" |}.

Definition module_scan_recommendation (n : Z) : Recommendation :=
  {| rec_type := scan_deeper;
     rec_priority := low;
     rec_title := "建议进行模块深度分析";
     rec_description := ModuleCountText n;
     rec_targetPath := None;
     rec_action := Some "使用 --phases module 参数进行模块扫描" |}.

(** The list [generateQuickRecommendations] builds from a scan result. *)
Definition quick_recommendations (r : ProjectScanResult) : list Recommendation :=
  let stats := scanStatistics r in
  let recs := [] in
  let recs :=
    if (modulesFound stats =? 0)%Z then recs ++ [no_modules_recommendation] else recs in
  let recs :=
    if coverage_below 30 (coverage stats)
    then recs ++ [coverage_recommendation (coverage stats)] else recs in
  let recs :=
    if bool_decide (projectType r = UNKNOWN)
    then recs ++ [unknown_type_recommendation] else recs in
  let recs :=
    if (0 <? modulesFound stats)%Z
    then recs ++ [module_scan_recommendation (modulesFound stats)] else recs in
  recs.

Definition generateQuickRecommendations : M unit :=
  modify_result (fun r => with_recommendations (quick_recommendations r) r).

Definition fileFilter_loadGitignore (path : Path) : M unit :=
  modify (fun s => with_fileFilter (loadGitignore fs path (fileFilter s)) s).

Definition fileFilter_filterFiles (files : list Path) (path : Path) : M (list Path) :=
  fun s =>
    let '(kept, f) := filterFiles minimatch fs files path (fileFilter s) in
    (Ok kept, with_fileFilter f s).

Definition performQuickScan (path : Path) : M unit :=
  now clock;;
  reportProgress clock 0 100 "开始快速扫描...";;
  try_catch
    (fileFilter_loadGitignore path;;
     allFiles ← quickTraverseDirectory path;
     reportProgress clock 30 100 "已发现文件，开始过滤...";;
     filteredFiles ← fileFilter_filterFiles allFiles path;
     reportProgress clock 50 100 "文件过滤完成，开始检测模块...";;
     s ← get;
     modify_result (with_projectType (detectProjectType fs path (detectorManager s)));;
     let modulePaths := quickIdentifyModules filteredFiles path (detectorManager s) in
     reportProgress clock 70 100 "模块识别完成，开始分析...";;
     moduleInfos ← quickAnalyzeModules modulePaths path;
     modify_result (with_modules moduleInfos);;
     updateStatistics allFiles filteredFiles moduleInfos;;
     reportProgress clock 90 100 "更新统计信息...";;
     generateQuickRecommendations;;
     reportProgress clock 100 100 "快速扫描完成")
    (fun error =>
     throw (ScanErr ("快速扫描失败: " +:+ exn_message error) "QUICK_SCAN_FAILED"
                    (Some path) (Some QUICK)));;
  s ← get;
  modify_record (set_filesProcessed (totalFiles (scanStatistics (scanResult s)))).

Definition performModuleScan (path : Path) : M unit :=
  throw (ScanErr "QuickScanner 不支持模块扫描阶段" "UNSUPPORTED_PHASE" (Some path) (Some MODULE)).

Definition performDeepScan (path : Path) : M unit :=
  throw (ScanErr "QuickScanner 不支持深度扫描阶段" "UNSUPPORTED_PHASE" (Some path) (Some DEEP)).

(** [scan] and [scanPhase] as [QuickScanner] inherits them. *)
Definition QuickScanner_scanPhase (ph : ScanPhase) (path : Path) : M ScanPhaseRecord :=
  scanPhase clock performQuickScan performModuleScan performDeepScan ph path.

Definition QuickScanner_scan (path : Path) (opts : ScanOptions) : M ProjectScanResult :=
  scan clock performQuickScan performModuleScan performDeepScan path opts.

End QuickScanner.

(** [ScanConfigManager.createDefault()] *)
Definition createDefault : ScanConfig :=
  let fileFilterSystem := new_FileFilterSystem (Some (mkConfig None None)) in
  {| fileFilters := includeFilters fileFilterSystem ++ excludeFilters fileFilterSystem;
     cfg_ignoreRules := ignoreRules fileFilterSystem;
     performanceLimits :=
       Some {| maxFiles := 100000; maxFileSize := 10 * 1024 * 1024; maxDepth := 10;
               timeout := 300000; memoryLimit := 512 * 1024 * 1024 |} |}.

(** [new QuickScanner(config)].  The filter system is built from the scan
    configuration, of which it reads [ignoreRules]; the key [filters] it
    looks for is not one of [ScanConfig].  No phase record exists yet; the
    [record] field holds a pending placeholder.  No listener is attached. *)
Definition new_QuickScanner (config : option ScanConfig) : Scanner :=
  let scanConfig := match config with Some c => c | None => createDefault end in
  {| config := scanConfig;
     options := mkOptions None;
     scanResult := initializeScanResult;
     currentPhase := None;
     detectorManager := new_DetectorManager;
     fileFilter := new_FileFilterSystem (Some (mkConfig None (Some (cfg_ignoreRules scanConfig))));
     record := set_status pending (new_record QUICK 0 0);
     allFiles := [];
     filesProcessed_local := 0;
     events := [];
     ticks := 0;
     errorListeners := 0 |}.

End Scan.

Import Filter Detect Scan.

(** ** The one-call entry point (index.ts) *)

Module Init.

(** A [number] that holds a percentage is an IEEE 754 binary64 value, with
    the arithmetic of the primitive floats. *)
Definition Number : Set := PrimFloat.float.

(** The [number] of an integer below 2^53. *)
Definition number (n : Z) : Number := PrimFloat.of_uint63 (Uint63.of_Z n).

(** [Math.round]: the nearest integer, a tie going up; what is not finite
    or already an integer is returned as it is, and a result of zero keeps
    the sign of the argument. *)
Definition Math_round (x : Number) : Number :=
  match FloatOps.Prim2SF x with
  | SpecFloat.S754_finite negative m e =>
      if (0 <=? e)%Z then x
      else
        let signed := if negative then Z.neg m else Z.pos m in
        let rounded := ((2 * signed + 2 ^ (- e)) / 2 ^ (1 - e))%Z in
        if (rounded =? 0)%Z then (if negative then PrimFloat.opp (number 0) else number 0)
        else if (rounded <? 0)%Z then PrimFloat.opp (number (- rounded))
        else number rounded
  | _ => x
  end.

(** The fields of [ZcfInitProject]. *)
Record ZcfInitProject := mkInit {
  detectorManager : DetectorManager;
  fileFilter : FileFilterSystem
}.

Definition new_ZcfInitProject : ZcfInitProject :=
  mkInit new_DetectorManager (new_FileFilterSystem None).

(** The options of [scanOnly]. *)
Record Options := mkOptions {
  phases : option (list ScanPhase);
  verbose : option bool;
  maxFiles : option Z;
  maxDepth : option Z;
  timeout : option Z
}.

Record Module := mkModule {
  name : string;
  path : Path;
  type : ProjectType
}.

Record Statistics := mkStatistics {
  totalFiles : Z;
  scannedFiles : Z;
  modulesFound : Z;
  coverage : Number;
  scanDuration : Z
}.

(** The text of a recommendation's description; the template string
    keeps the number it interpolates. *)
Inductive Description :=
| Text (s : string)
| CoverageText (coverage : Number).

(** An entry of [ScanResult['recommendations']]. *)
Record Recommendation := mkRecommendation {
  rec_type : RecommendationType;
  rec_priority : Priority;
  rec_title : string;
  rec_description : Description
}.

Record ScanResult := mkScanResult {
  modules : list Module;
  statistics : Statistics;
  recommendations : list Recommendation
}.

Section Run.
Variable minimatch : string -> string -> option bool.
Variable fs : FileSystem.

(** [traverseDirectory(currentPath, depth)] of [scanFiles]; [budget] is
    [maxDepth + 1 - depth].  The function does not refer to [this]. *)
Fixpoint traverseDirectory (rootPath : Path) (budget : nat) (currentPath : Path)
    (allFiles : list Path) : list Path :=
  match budget with
  | O => allFiles
  | S budget' =>
      match fs_readdir fs currentPath with
      | None => allFiles
      | Some entries =>
          foldl (fun allFiles entry =>
                   if is_hidden (d_name entry) && negb (bool_decide (currentPath = rootPath))
                   then allFiles
                   else
                     let fullPath := join currentPath (d_name entry) in
                     if d_isDirectory entry
                     then traverseDirectory rootPath budget' fullPath allFiles
                     else allFiles ++ [fullPath])
                allFiles entries
      end
  end.

Definition scanFiles (rootPath : Path) (maxDepth : Z) : list Path :=
  traverseDirectory rootPath (Z.to_nat (maxDepth + 1)) rootPath [].

Definition moduleIndicatorNames : list string :=
  ["package.json"; "go.mod"; "pyproject.toml"; "Cargo.toml"].

(** [file.split('/').pop() || ''] *)
Definition fileName (file : Path) : string :=
  match last file with
  | Some n => n
  | None => ""
  end.

(** [dirname] *)
Definition dirname (file : Path) : Path := removelast file.

(** The first loop of [identifyModules]: the set of indicator files, in
    insertion order. *)
Definition indicatorFiles (files : list Path) : list Path :=
  foldl (fun set file =>
           if includes (fileName file) moduleIndicatorNames then set_add file set else set)
        [] files.

Definition identifyModules (files : list Path) (rootPath : Path) (this : ZcfInitProject)
    : list Module :=
  foldl (fun modules indicatorFile =>
           let modulePath := dirname indicatorFile in
           let projectType := detectProjectType fs modulePath (detectorManager this) in
           if bool_decide (projectType <> UNKNOWN) then
             let moduleName :=
               match last modulePath with
               | Some n => if String.eqb n "" then "unknown" else n
               | None => "unknown"
               end in
             modules ++ [mkModule moduleName modulePath projectType]
           else modules)
        [] (indicatorFiles files).

Definition no_modules_recommendation : Recommendation :=
  {| rec_type := scan_deeper;
     rec_priority := high;
     rec_title := "未找到项目模块";
     rec_description := Text "建议检查项目结构或手动配置模块识别规则" |}.

Definition coverage_recommendation (c : Number) : Recommendation :=
  {| rec_type := scan_deeper;
     rec_priority := medium;
     rec_title := "扫描覆盖率较低";
     rec_description := CoverageText c |}.

Definition unknown_type_recommendation : Recommendation :=
  {| rec_type := add_config;
     rec_priority := medium;
     rec_title := "未识别项目类型";
     rec_description := Text "建议手动指定项目类型或添加自定义检测器" |}.

Definition generateRecommendations (modules : list Module) (coverage : Number)
    (projectType : ProjectType) : list Recommendation :=
  let recommendations := [] in
  let recommendations :=
    if (length modules =? 0)%nat
    then recommendations ++ [no_modules_recommendation] else recommendations in
  let recommendations :=
    if PrimFloat.ltb coverage (number 50)
    then recommendations ++ [coverage_recommendation coverage] else recommendations in
  let recommendations :=
    if bool_decide (projectType = UNKNOWN)
    then recommendations ++ [unknown_type_recommendation] else recommendations in
  recommendations.

(** [options.maxDepth || 5] *)
Definition requested_maxDepth (options : Options) : Z :=
  match maxDepth options with
  | Some d => if (d =? 0)%Z then 5%Z else d
  | None => 5%Z
  end.

(** [scanOnly].  [startTime] and [endTime] are its two readings of
    [Date.now()].  Every call of the [try] block catches its own errors,
    so the [catch] block is not reached. *)
Definition scanOnly (projectPath : Path) (options : Options) (startTime endTime : Z)
    (this : ZcfInitProject) : ScanResult * ZcfInitProject :=
  let this := mkInit (detectorManager this) (loadGitignore fs projectPath (fileFilter this)) in
  let projectType := detectProjectType fs projectPath (detectorManager this) in
  let allFiles := scanFiles projectPath (requested_maxDepth options) in
  let '(filteredFiles, filter) := filterFiles minimatch fs allFiles projectPath (fileFilter this) in
  let this := mkInit (detectorManager this) filter in
  let modules := identifyModules filteredFiles projectPath this in
  let scanDuration := (endTime - startTime)%Z in
  let coverage :=
    if (0 <? length allFiles)%nat
    then PrimFloat.mul (PrimFloat.div (number (Z.of_nat (length filteredFiles)))
                                      (number (Z.of_nat (length allFiles))))
                       (number 100)
    else number 0 in
  ({| modules := modules;
      statistics :=
        {| totalFiles := Z.of_nat (length allFiles);
           scannedFiles := Z.of_nat (length filteredFiles);
           modulesFound := Z.of_nat (length modules);
           coverage :=
             PrimFloat.div (Math_round (PrimFloat.mul coverage (number 100))) (number 100);
           scanDuration := scanDuration |};
      recommendations := generateRecommendations modules coverage projectType |},
   this).

End Run.

End Init.

(** ** Scan configurations (config/scan-config.ts) *)

Module ScanConfigManager.

(** A filter as [validateConfig] may find it.  The configuration is typed
    [ScanConfig], but [loadFromFile] hands over parsed JSON: the action is
    whatever string the file holds, the empty string when it holds none. *)
Record FilterData := mkFilterData {
  fd_name : string;
  fd_pattern : Pattern;
  fd_action : string;
  fd_priority : Z
}.

Record ConfigData := mkConfigData {
  cd_fileFilters : list FilterData;
  cd_ignoreRules : list IgnoreRule;
  cd_performanceLimits : option PerformanceLimits
}.

(** An entry of the [errors] array of [validateConfig].  The messages for
    a filter, an action and a rule interpolate the object or the string;
    they keep it. *)
Inductive ValidationError :=
| LimitError (message : string)
| InvalidFilter (filter : FilterData)
| InvalidAction (action : string)
| InvalidIgnoreRule (rule : IgnoreRule).

Record Validation := mkValidation {
  valid : bool;
  errors : list ValidationError
}.

(** [!filter.pattern]: the empty string is falsy, a [RegExp] is an
    object. *)
Definition pattern_missing (p : Pattern) : bool :=
  match p with
  | Glob s => String.eqb s ""
  | RegExp _ => false
  end.

Definition limit_errors (limits : PerformanceLimits) : list ValidationError :=
  let errors := [] in
  let errors :=
    if (maxFiles limits <=? 0)%Z
    then errors ++ [LimitError "maxFiles must be greater than 0"] else errors in
  let errors :=
    if (maxFileSize limits <=? 0)%Z
    then errors ++ [LimitError "maxFileSize must be greater than 0"] else errors in
  let errors :=
    if (maxDepth limits <=? 0)%Z
    then errors ++ [LimitError "maxDepth must be greater than 0"] else errors in
  let errors :=
    if (timeout limits <=? 0)%Z
    then errors ++ [LimitError "timeout must be greater than 0"] else errors in
  let errors :=
    if (memoryLimit limits <=? 0)%Z
    then errors ++ [LimitError "memoryLimit must be greater than 0"] else errors in
  errors.

(** The body of [validateConfig], on the data it is handed. *)
Definition validateConfigData (config : ConfigData) : Validation :=
  let errors :=
    match cd_performanceLimits config with
    | Some limits => limit_errors limits
    | None => []
    end in
  let errors :=
    foldl (fun errors filter =>
             let errors :=
               if String.eqb (fd_name filter) "" || pattern_missing (fd_pattern filter)
                  || String.eqb (fd_action filter) ""
               then errors ++ [InvalidFilter filter] else errors in
             if negb (includes (fd_action filter) ["include"; "exclude"])
             then errors ++ [InvalidAction (fd_action filter)] else errors)
          errors (cd_fileFilters config) in
  let errors :=
    foldl (fun errors rule =>
             if String.eqb (r_pattern rule) "" || String.eqb (r_description rule) ""
             then errors ++ [InvalidIgnoreRule rule] else errors)
          errors (cd_ignoreRules config) in
  {| valid := (length errors =? 0)%nat; errors := errors |}.

(** The string of an action of the type ['include' | 'exclude']. *)
Definition action_name (a : Action) : string :=
  match a with
  | Include => "include"
  | Exclude => "exclude"
  end.

(** A configuration of the type [ScanConfig], as data. *)
Definition as_data (config : ScanConfig) : ConfigData :=
  {| cd_fileFilters :=
       map (fun filter => mkFilterData (f_name filter) (f_pattern filter)
                                       (action_name (f_action filter)) (f_priority filter))
           (fileFilters config);
     cd_ignoreRules := cfg_ignoreRules config;
     cd_performanceLimits := performanceLimits config |}.

(** [validateConfig] of a configuration of the type [ScanConfig]. *)
Definition validateConfig (config : ScanConfig) : Validation :=
  validateConfigData (as_data config).

(** [{ ...config, performanceLimits: { ...config.performanceLimits, ... } }]
    for a configuration that has limits, as every one that [createDefault]
    builds does; [f] writes the listed fields over them. *)
Definition with_performanceLimits (f : PerformanceLimits -> PerformanceLimits)
    (config : ScanConfig) : ScanConfig :=
  {| fileFilters := fileFilters config;
     cfg_ignoreRules := cfg_ignoreRules config;
     performanceLimits := option_map f (performanceLimits config) |}.

Inductive Environment := development | production | test.

(** [createEnvironmentConfig]: the limits of [createDefault] with the
    fields of the chosen environment written over them. *)
Definition createEnvironmentConfig (env : Environment) : ScanConfig :=
  let baseConfig := createDefault in
  match env with
  | development =>
      with_performanceLimits
        (fun base => {| maxFiles := 50000; maxFileSize := maxFileSize base;
                        maxDepth := maxDepth base; timeout := 600000;
                        memoryLimit := 1024 * 1024 * 1024 |}) baseConfig
  | production =>
      with_performanceLimits
        (fun base => {| maxFiles := 50000; maxFileSize := 5 * 1024 * 1024;
                        maxDepth := maxDepth base; timeout := 120000;
                        memoryLimit := 256 * 1024 * 1024 |}) baseConfig
  | test =>
      with_performanceLimits
        (fun base => {| maxFiles := 1000; maxFileSize := 1024 * 1024;
                        maxDepth := maxDepth base; timeout := 30000;
                        memoryLimit := 64 * 1024 * 1024 |}) baseConfig
  end.

Definition createLargeProjectConfig : ScanConfig :=
  with_performanceLimits
    (fun base => {| maxFiles := 1000000; maxFileSize := 50 * 1024 * 1024;
                    maxDepth := maxDepth base; timeout := 1800000;
                    memoryLimit := 2048 * 1024 * 1024 |}) createDefault.

Definition createSmallProjectConfig : ScanConfig :=
  with_performanceLimits
    (fun base => {| maxFiles := 10000; maxFileSize := 5 * 1024 * 1024;
                    maxDepth := maxDepth base; timeout := 60000;
                    memoryLimit := 128 * 1024 * 1024 |}) createDefault.

(** [Partial<ScanConfig>] *)
Record PartialScanConfig := mkPartial {
  p_fileFilters : option (list FileFilter);
  p_ignoreRules : option (list IgnoreRule);
  p_performanceLimits : option PerformanceLimits
}.

(** [mergeConfigs].  An array is truthy also when empty, so a present
    list replaces the base list; a present limits object overwrites every
    field of the base limits. *)
Definition mergeConfigs (base : ScanConfig) (override : PartialScanConfig) : ScanConfig :=
  {| fileFilters :=
       match p_fileFilters override with Some l => l | None => fileFilters base end;
     cfg_ignoreRules :=
       match p_ignoreRules override with Some l => l | None => cfg_ignoreRules base end;
     performanceLimits :=
       match p_performanceLimits override with
       | Some limits => Some limits
       | None => performanceLimits base
       end |}.

End ScanConfigManager.

(* ================================================================== *)
(** * Part I, continued: predicates and inputs of the statements        *)
(* ================================================================== *)

(** ** Filter engine *)

(** Every decision cached as [true] is for a path no ignore rule matches. *)
Definition cache_sound (mm : string -> string -> option bool) (s : FileFilterSystem) : Prop :=
  forall k, ignoreCache s !! k = Some true -> shouldIgnore mm s k = false.

(** The two filter lists hold filters of their own action only. *)
Definition well_sorted_actions (s : FileFilterSystem) : Prop :=
  Forall (fun f => f_action f = Include) (includeFilters s) /\
  Forall (fun f => f_action f = Exclude) (excludeFilters s).

(** Every default rule and filter is still in its list. *)
Definition keeps_defaults (s : FileFilterSystem) : Prop :=
  incl defaultIgnoreRules (ignoreRules s) /\
  incl defaultExcludeFilters (excludeFilters s) /\
  incl defaultIncludeFilters (includeFilters s).

(** What holds of a system to which rules were only ever added. *)
Definition add_invariant (s : FileFilterSystem) : Prop :=
  ignoreCache s = ∅ /\ well_sorted_actions s /\ keeps_defaults s.

(** ** Detector registry *)

(** From [cur] down along [names], no name is hidden and every directory
    on the way was tested and found not to be a module root. *)
Fixpoint clear_path (call : Path -> Result bool) (cur : Path) (names : list string) : Prop :=
  match names with
  | [] => True
  | n :: rest =>
      is_hidden n = false /\ call (cur ++ [n]) = Ok false /\ clear_path call (cur ++ [n]) rest
  end.

(** [p] is a directory the pass may list: fewer than [budget] levels below
    [cur], reached along a clear path. *)
Definition reached_listing (call : Path -> Result bool) (cur : Path) (budget : nat)
    (p : Path) : Prop :=
  exists names, p = cur ++ names /\ length names < budget /\ clear_path call cur names.

(** [D] is a directory the pass may record: a visible entry, found to be a
    module root, of a directory the pass may list. *)
Definition reached_module (call : Path -> Result bool) (cur : Path) (budget : nat)
    (D : Path) : Prop :=
  exists names n, D = cur ++ names ++ [n] /\ length names < budget /\
    clear_path call cur names /\ is_hidden n = false /\ call D = Ok true.

Definition discovery_inv (call : Path -> Result bool) (cur : Path) (budget : nat)
    (acc res : Discovery) : Prop :=
  (forall p, In p (listed res) -> In p (listed acc) \/ reached_listing call cur budget p) /\
  (forall D, In D (modules res) -> In D (modules acc) \/ reached_module call cur budget D).

(** Two filesystems that answer [access] and [readdir] alike. *)
Definition same_listing (fs fs' : FileSystem) : Prop :=
  (forall p, fs_access fs p = fs_access fs' p) /\
  (forall p, fs_readdir fs p = fs_readdir fs' p).

(** The bonus [calculateConfidence] adds for the registry key [t]. *)
Definition type_bonus (t : ProjectType) (pats : list string) : Z :=
  match t with
  | TYPESCRIPT => if includes "tsconfig.json" pats then 20%Z else 0%Z
  | PYTHON => if includes "pyproject.toml" pats then 15%Z else 0%Z
  | GO => if includes "go.mod" pats then 25%Z else 0%Z
  | _ => 0%Z
  end.

(** Every matching detector of [pre] scores strictly less than [c]. *)
Definition earlier_score_below (fs : FileSystem) (path : Path) (c : Z) (pre : Registry) : Prop :=
  Forall (fun td => detect (snd td) fs path = Ok true ->
                    (calculateConfidence fs path (fst td) (snd td) < c)%Z) pre.

(** Every matching detector of [post] scores at most [c]. *)
Definition later_score_at_most (fs : FileSystem) (path : Path) (c : Z) (post : Registry) : Prop :=
  Forall (fun td => detect (snd td) fs path = Ok true ->
                    (calculateConfidence fs path (fst td) (snd td) <= c)%Z) post.

(** The names whose presence in a directory makes a built-in detector
    match it. *)
Definition detector_indicator_names : list string :=
  ["package.json"; "pyproject.toml"; "setup.py"; "requirements.txt"; "Pipfile"; "setup.cfg";
   "go.mod"; "main.go"].

Definition entry_unrecognised (name : string) (n : Node) : bool :=
  negb (includes name detector_indicator_names) &&
  (is_dir_node n || (negb (ends_with ".py" name) && negb (ends_with ".go" name))).

(** No entry of the tree bears an indicator name and no regular file of it
    ends in [.py] or [.go]. *)
Fixpoint unrecognised (t : Node) : bool :=
  match t with
  | FileNode _ => true
  | DirNode _ es =>
      forallb (fun e => let '(name, n) := e in entry_unrecognised name n && unrecognised n) es
  end.

(** The directory the tree is mounted at does not bear an indicator name
    itself. *)
Definition mount_unrecognised (mount : Path) : bool :=
  match last mount with
  | Some name => negb (includes name detector_indicator_names)
  | None => true
  end.

(** ** Scanner *)

(** What [handleError] throws for [error] raised in phase [ph], once its
    own ['error'] event has been delivered. *)
Definition rethrown (error : Exn) (ph : ScanPhase) (s : Scanner) : Exn :=
  if is_ScanError error then error
  else ScanErr ("Scan failed: " +:+ exn_message error) "SCAN_ERROR"
               (Some (rootPath (scanResult s))) (Some ph).

(** What leaves [scanPhase] when the implementation of the phase threw
    [error] in [s]: the [catch] block emits an ['error'] event before it
    throws [error] again. *)
Definition scanPhase_throws (error : Exn) (s : Scanner) : Exn :=
  if (errorListeners s =? 0)%nat then ERR_UNHANDLED_ERROR else error.

(** What leaves [scan] in that case: [handleError] emits an ['error']
    event of its own before it throws. *)
Definition scan_throws (error : Exn) (ph : ScanPhase) (s : Scanner) : Exn :=
  if (errorListeners s =? 0)%nat then ERR_UNHANDLED_ERROR else rethrown error ph s.

(** The scanner in which the implementation of [ph] starts, when the loop
    of [scan] reaches that phase in [s]. *)
Definition at_dispatch (clock : nat -> Z) (ph : ScanPhase) (path : Path) (s : Scanner)
    : Scanner :=
  snd (phase_entry clock ph path (with_currentPhase (Some ph) s)).

(** The scanner [scan] leaves behind when the implementation of [ph],
    reached in [s0], threw [e] in [s]: the [catch] block of [scanPhase],
    then the event of [handleError]. *)
Definition after_failure (clock : nat -> Z) (ph : ScanPhase) (path : Path) (s0 : Scanner)
    (e : Exn) (s : Scanner) : Scanner :=
  snd (emitEvent clock (ev_error (scanPhase_throws e s) (Some ph))
         (snd (phase_failure clock ph (clock (ticks (with_currentPhase (Some ph) s0))) e s))).

(** The fields the enumeration and its progress reports leave alone. *)
Definition kernel (s : Scanner)
    : ScanConfig * ProjectScanResult * option ScanPhase * DetectorManager * nat :=
  (config s, scanResult s, currentPhase s, detectorManager s, errorListeners s).

(** Neither limit of the configuration is reached by the statistics the
    scanner holds. *)
Definition limits_not_reached (s : Scanner) : Prop :=
  match performanceLimits (config s) with
  | Some limits =>
      (totalFiles (scanStatistics (scanResult s)) < maxFiles limits)%Z /\
      (fileSize (scanStatistics (scanResult s)) < memoryLimit limits)%Z
  | None => True
  end.

(** A module info produced by the quick analysis of one of [paths]. *)
Definition quick_info_of (fs : FileSystem) (paths : list Path) (s : Scanner)
    (info : ModuleInfo) : Prop :=
  In (mi_path info) paths /\
  mi_type info = detectProjectType fs (mi_path info) (detectorManager s) /\
  mi_type info <> UNKNOWN /\
  mi_name info = extractModuleName (mi_path info) /\
  docs info = [] /\ dependencies info = [] /\ entryPoints info = [].

(** The scan result a completed quick phase leaves: the previous result
    [r0] with the detected type [t], the analysed modules, the statistics of
    [updateStatistics] and the recommendations of
    [generateQuickRecommendations]. *)
Definition quick_result (r0 : ProjectScanResult) (t : ProjectType)
    (files kept : list Path) (infos : list ModuleInfo) : ProjectScanResult :=
  let st := scanStatistics r0 in
  let total := Z.of_nat (length files) in
  let scanned := Z.of_nat (length kept) in
  let stats :=
    mkStatistics total scanned (total - scanned)%Z (Z.of_nat (length infos))
                 (scanDuration st) (fileSize st) (linesOfCode st)
                 (if (0 <? total)%Z then coverage_of scanned total else coverage st) in
  let r := mkScanResult (rootPath r0) t infos stats (scanPhases r0) (recommendations r0) in
  with_recommendations (quick_recommendations r) r.

(** ** Further predicates *)

(** The method attaches no listener to ['error'] and detaches none. *)
Definition keeps_listeners {A} (m : M A) : Prop :=
  forall s, errorListeners (snd (m s)) = errorListeners s.

(** Sorted by descending priority. *)
Definition sorted_desc {A} (prio : A -> Z) (l : list A) : Prop :=
  StronglySorted (fun a b => (prio b <= prio a)%Z) l.

(** Whether a built-in detector matches, as a boolean. *)
Definition matches (d : ModuleDetector) (fs : FileSystem) (path : Path) : bool :=
  match detect d fs path with
  | Ok b => b
  | Throw _ => false
  end.

(** The scan result as [finalizeScan] rewrites it. *)
Definition finalized (r : ProjectScanResult) : ProjectScanResult :=
  let st := set_scanDuration (sum_durations (scanPhases r)) (scanStatistics r) in
  let st :=
    if (0 <? totalFiles st)%Z
    then set_coverage (coverage_of (scannedFiles st) (totalFiles st)) st
    else st in
  let r := with_statistics st r in
  with_recommendations (final_recommendations r) r.

(** [p] lies below the directory [root ++ pre], at most [budget] levels
    down, and no component after the first one below [root] is hidden. *)
Definition below (root : Path) (pre : list string) (budget : nat) (p : Path) : Prop :=
  exists names, p = root ++ pre ++ names /\ names <> [] /\ length names <= budget /\
                Forall (fun n => is_hidden n = false) (tail (pre ++ names)).

(** The entries of a listing that precede its first directory. *)
Fixpoint leading_files (entries : list Dirent) : list Dirent :=
  match entries with
  | [] => []
  | entry :: rest => if d_isDirectory entry then [] else entry :: leading_files rest
  end.

(** [name :: rest] leads from the directory [cur] to a file: every
    component is an entry of the listing of its parent that the traversal
    does not skip, the last one a file and the others directories. *)
Fixpoint visible_file (fs : FileSystem) (root cur : Path) (names : list string) : Prop :=
  match names with
  | [] => False
  | name :: rest =>
      exists entries entry,
        fs_readdir fs cur = Some entries /\ In entry entries /\ d_name entry = name /\
        is_hidden name && negb (bool_decide (cur = root)) = false /\
        match rest with
        | [] => d_isDirectory entry = false
        | _ => d_isDirectory entry = true /\ visible_file fs root (join cur name) rest
        end
  end.

(** The conditions [validateConfig] tests. *)
Definition limits_positive (limits : PerformanceLimits) : Prop :=
  (0 < maxFiles limits)%Z /\ (0 < maxFileSize limits)%Z /\ (0 < maxDepth limits)%Z /\
  (0 < timeout limits)%Z /\ (0 < memoryLimit limits)%Z.

Definition filter_well_formed (filter : FileFilter) : Prop :=
  f_name filter <> "" /\ f_pattern filter <> Glob "".

Definition rule_well_formed (rule : IgnoreRule) : Prop :=
  r_pattern rule <> "" /\ r_description rule <> "".

Definition well_formed (config : ScanConfig) : Prop :=
  match performanceLimits config with
  | Some limits => limits_positive limits
  | None => True
  end /\
  Forall filter_well_formed (fileFilters config) /\
  Forall rule_well_formed (cfg_ignoreRules config).

Definition filter_data_well_formed (filter : ScanConfigManager.FilterData) : Prop :=
  ScanConfigManager.fd_name filter <> "" /\
  ScanConfigManager.fd_pattern filter <> Glob "" /\
  (ScanConfigManager.fd_action filter = "include"
   \/ ScanConfigManager.fd_action filter = "exclude").

Definition data_well_formed (config : ScanConfigManager.ConfigData) : Prop :=
  match ScanConfigManager.cd_performanceLimits config with
  | Some limits => limits_positive limits
  | None => True
  end /\
  Forall filter_data_well_formed (ScanConfigManager.cd_fileFilters config) /\
  Forall rule_well_formed (ScanConfigManager.cd_ignoreRules config).

Definition override_well_formed (override : ScanConfigManager.PartialScanConfig) : Prop :=
  match ScanConfigManager.p_performanceLimits override with
  | Some limits => limits_positive limits
  | None => True
  end /\
  match ScanConfigManager.p_fileFilters override with
  | Some filters => Forall filter_well_formed filters
  | None => True
  end /\
  match ScanConfigManager.p_ignoreRules override with
  | Some rules => Forall rule_well_formed rules
  | None => True
  end.

(** ** Inputs of the examples *)

(** The clock of the examples ticks five milliseconds per reading. *)
Definition example_clock (n : nat) : Z := (5 * Z.of_nat n)%Z.

(** A repository holding its ignore file and nothing else. *)
Definition gitignore_repo : FileSystem :=
  tree_fs ["repo"] (DirNode true [(".gitignore", FileNode "dist")]).

(** An empty repository. *)
Definition empty_repo : FileSystem := tree_fs ["repo"] (DirNode true []).

(** A directory whose only file is [main.go]. *)
Definition go_only_fs : FileSystem :=
  tree_fs ["proj"] (DirNode true [("main.go", FileNode "package main")]).

(** A directory with [package.json] and [tsconfig.json]. *)
Definition js_fs : FileSystem :=
  tree_fs ["app"] (DirNode true [("package.json", FileNode "{}"); ("tsconfig.json", FileNode "{}")]).

(** A repository of two files that no detector, ignore rule or filter
    pattern recognises. *)
Definition plain_tree : Node :=
  DirNode true [("LICENSE", FileNode "MIT"); ("NOTES", FileNode "todo")].

Definition plain_repo : FileSystem := tree_fs ["repo"] plain_tree.

(** Eleven files in one directory. *)
Definition eleven_files : Node :=
  DirNode true (map (fun n => ("data" +:+ pretty n, FileNode "x")) (seq 1 11)).

Definition eleven_files_repo : FileSystem := tree_fs ["repo"] eleven_files.

(** The default configuration with the file limit lowered to ten. *)
Definition ten_files_config : ScanConfig :=
  {| fileFilters := fileFilters createDefault;
     cfg_ignoreRules := cfg_ignoreRules createDefault;
     performanceLimits :=
       Some {| maxFiles := 10; maxFileSize := 10 * 1024 * 1024; maxDepth := 10;
               timeout := 300000; memoryLimit := 512 * 1024 * 1024 |} |}.

(** Two repositories side by side: [a] holds one file, [b] is empty. *)
Definition two_repos : FileSystem :=
  tree_fs [] (DirNode true [("a", DirNode true [("LICENSE", FileNode "MIT")]);
                            ("b", DirNode true [])]).

(** A directory with a file, a subdirectory, and a file after it. *)
Definition nested_repo : FileSystem :=
  tree_fs ["repo"]
    (DirNode true [("LICENSE", FileNode "MIT");
                   ("src", DirNode true [("main.c", FileNode "int main;")]);
                   ("NOTES", FileNode "todo")]).

(** A scanner that has counted eleven files under a limit of ten. *)
Definition scanner_over_limit : Scanner :=
  snd (QuickScanner_scan literal_minimatch eleven_files_repo example_clock false ["repo"]
                         (mkOptions (Some [QUICK])) (new_QuickScanner (Some ten_files_config))).

(** [/^LICENSE/g] and [/^LICENSE/]: the search succeeds only from index 0,
    in a string that starts with [LICENSE], and the match ends at index 7. *)
Definition search_LICENSE (S : string) (i : nat) : option nat :=
  if (i =? 0)%nat && String.prefix "LICENSE" S then Some 7%nat else None.

Definition LICENSE_g : RegExpFilter.RegExpObject :=
  RegExpFilter.mkRegExp 1 true false search_LICENSE.

Definition LICENSE_plain : RegExpFilter.RegExpObject :=
  RegExpFilter.mkRegExp 2 false false search_LICENSE.

(** An exclude filter on a [RegExp]. *)
Definition excluding (r : RegExpFilter.RegExpObject) : RegExpFilter.FileFilter :=
  RegExpFilter.mkFilter "No licence" (RegExpFilter.RegExp r) Exclude 5.

(* ================================================================== *)
(** * Part II: properties                                                *)
(* ================================================================== *)

(** ** The filter engine: cached decisions and ignore rules *)

Lemma In_insert_by {A} (cmp : A -> A -> Z) (x y : A) (l : list A) :
  In y (insert_by cmp x l) <-> y = x \/ In y l.
Proof.
  induction l as [|z l IH]; simpl.
  - intuition.
  - destruct (cmp x z <=? 0)%Z; simpl; [intuition|].
    rewrite IH. intuition.
Qed.

Lemma In_sort_by {A} (cmp : A -> A -> Z) (y : A) (l : list A) :
  In y (sort_by cmp l) <-> In y l.
Proof.
  induction l as [|x l IH]; simpl; [tauto|].
  rewrite In_insert_by, IH. intuition.
Qed.

Lemma existsb_same_members {A} (f : A -> bool) (l1 l2 : list A) :
  (forall x, In x l1 <-> In x l2) -> existsb f l1 = existsb f l2.
Proof.
  intros H. apply eq_true_iff_eq. rewrite !existsb_exists.
  split; intros [x [Hin Hf]]; exists x; split; auto; apply H; auto.
Qed.

Lemma existsb_sort_by {A} (f : A -> bool) (cmp : A -> A -> Z) (l : list A) :
  existsb f (sort_by cmp l) = existsb f l.
Proof. apply existsb_same_members. intros x. apply In_sort_by. Qed.

Section Facts.
Variable mm : string -> string -> option bool.

Lemma shouldIgnore_rules s s' k :
  ignoreRules s' = ignoreRules s -> shouldIgnore mm s' k = shouldIgnore mm s k.
Proof. unfold shouldIgnore. intros ->. reflexivity. Qed.

Lemma cache_sound_empty s : ignoreCache s = ∅ -> cache_sound mm s.
Proof. intros H k. rewrite H, lookup_empty. discriminate. Qed.

Lemma cache_sound_addFilters filters s :
  cache_sound mm s -> cache_sound mm (addFilters filters s).
Proof.
  intros H k Hk.
  assert (Hr : forall l s0, ignoreRules (foldl push_filter s0 l) = ignoreRules s0
                         /\ ignoreCache (foldl push_filter s0 l) = ignoreCache s0).
  { induction l as [|f l IH]; intros s0; simpl; [auto|].
    destruct (IH (push_filter s0 f)) as [-> ->].
    unfold push_filter. destruct (f_action f); auto. }
  destruct (Hr filters s) as [Hr1 Hr2].
  unfold addFilters in *. simpl in *. rewrite Hr2 in Hk.
  rewrite <- (H k Hk). apply shouldIgnore_rules. simpl. exact Hr1.
Qed.

Lemma cache_sound_shouldInclude fs filePath rootPath s :
  cache_sound mm s -> cache_sound mm (snd (shouldInclude mm fs filePath rootPath s)).
Proof.
  intros H. unfold shouldInclude.
  destruct (ignoreCache s !! relative rootPath filePath) eqn:Hc; simpl; [exact H|].
  assert (Hset : forall v, (v = true -> shouldIgnore mm s (relative rootPath filePath) = false) ->
                 cache_sound mm (cache_set (relative rootPath filePath) v s)).
  { intros v Hv k Hk. unfold cache_set in Hk. simpl in Hk.
    rewrite (shouldIgnore_rules s) by reflexivity.
    destruct (decide (relative rootPath filePath = k)) as [<-|Hne].
    - rewrite lookup_insert_eq in Hk. injection Hk as ->. auto.
    - rewrite lookup_insert_ne in Hk by exact Hne. auto. }
  destruct (fs_stat fs filePath); simpl.
  - destruct (shouldIgnore mm s (relative rootPath filePath)) eqn:Hi; simpl.
    + apply Hset. discriminate.
    + apply Hset. auto.
  - apply Hset. discriminate.
Qed.

Lemma cache_sound_filterFiles fs filePaths rootPath s :
  cache_sound mm s -> cache_sound mm (snd (filterFiles mm fs filePaths rootPath s)).
Proof.
  revert s. induction filePaths as [|p l IH]; intros s H; simpl; [exact H|].
  pose proof (cache_sound_shouldInclude fs p rootPath s H) as H1.
  destruct (shouldInclude mm fs p rootPath s) as [keep s1]. simpl in H1.
  specialize (IH s1 H1).
  destruct (filterFiles mm fs l rootPath s1) as [inc s2]. exact IH.
Qed.

Lemma cache_sound_new config : cache_sound mm (new_FileFilterSystem config).
Proof.
  unfold new_FileFilterSystem. destruct config as [[fl rl]|].
  - destruct rl as [rl|]; simpl.
    + apply cache_sound_empty. reflexivity.
    + destruct fl as [fl|]; simpl.
      * apply cache_sound_addFilters, cache_sound_empty. reflexivity.
      * apply cache_sound_empty. reflexivity.
  - apply cache_sound_empty. reflexivity.
Qed.

Lemma cache_sound_run_call s c : cache_sound mm s -> cache_sound mm (run_call mm s c).
Proof.
  intros H. destruct c; simpl.
  - apply cache_sound_addFilters, H.
  - apply cache_sound_empty. reflexivity.
  - apply cache_sound_shouldInclude, H.
  - apply cache_sound_filterFiles, H.
  - unfold loadGitignore. destruct (fs_readFile _ _); [|exact H].
    apply cache_sound_empty. reflexivity.
  - apply cache_sound_empty. reflexivity.
  - apply cache_sound_empty. reflexivity.
  - apply cache_sound_empty. reflexivity.
Qed.

Lemma cache_sound_after_calls config calls : cache_sound mm (after_calls mm config calls).
Proof.
  unfold after_calls.
  generalize (cache_sound_new config). generalize (new_FileFilterSystem config).
  induction calls as [|c l IH]; intros s H; simpl; [exact H|].
  apply IH, cache_sound_run_call, H.
Qed.

(** C1.  In every state a [FileFilterSystem] can reach, a path whose
    root-relative form is matched by the pattern of some ignore rule is
    refused by [shouldInclude], whatever the include and exclude filters
    say and whatever the cache holds: the ignore rules are consulted first,
    and no cached [true] survives for a path an ignore rule matches. *)
Theorem ignore_rules_dominate config calls fs filePath rootPath :
  let s := after_calls mm config calls in
  (exists rule, In rule (ignoreRules s) /\
     matchPattern mm (relative rootPath filePath) (Glob (r_pattern rule)) = true) ->
  fst (shouldInclude mm fs filePath rootPath s) = false.
Proof.
  intros s [rule [Hin Hm]].
  assert (Hig : shouldIgnore mm s (relative rootPath filePath) = true).
  { unfold shouldIgnore. apply existsb_exists. exists rule. auto. }
  pose proof (cache_sound_after_calls config calls) as Hs. fold s in Hs.
  unfold shouldInclude.
  destruct (ignoreCache s !! relative rootPath filePath) as [[|]|] eqn:Hc; simpl; auto.
  - specialize (Hs _ Hc). congruence.
  - rewrite Hig. destruct (fs_stat fs filePath); reflexivity.
Qed.
End Facts.

Lemma filterFiles_sublist mm fs filePaths rootPath : forall s,
  sublist (fst (filterFiles mm fs filePaths rootPath s)) filePaths.
Proof.
  induction filePaths as [|p l IH]; intros s; simpl; [constructor|].
  destruct (shouldInclude mm fs p rootPath s) as [keep s1].
  specialize (IH s1). destruct (filterFiles mm fs l rootPath s1) as [inc s2]. simpl in *.
  destruct keep; [apply sublist_skip|apply sublist_cons]; exact IH.
Qed.

(** ** The filter engine: default inclusion, export and import *)

Section Facts2.
Variable mm : string -> string -> option bool.

(** C2, amended.  When [stat] succeeds on the path and no decision is
    cached for its root-relative form, a path matched by no ignore rule, no
    exclude filter and no include filter is included. *)
Theorem default_inclusion (s : FileFilterSystem) fs filePath rootPath :
  let rel := relative rootPath filePath in
  fs_stat fs filePath <> None ->
  ignoreCache s !! rel = None ->
  (forall rule, In rule (ignoreRules s) -> matchPattern mm rel (Glob (r_pattern rule)) = false) ->
  (forall f, In f (excludeFilters s) -> matchPattern mm rel (f_pattern f) = false) ->
  (forall f, In f (includeFilters s) -> matchPattern mm rel (f_pattern f) = false) ->
  fst (shouldInclude mm fs filePath rootPath s) = true.
Proof.
  intros rel Hstat Hcache Hig Hex Hinc.
  unfold shouldInclude. fold rel. rewrite Hcache.
  destruct (fs_stat fs filePath) as [st|]; [|congruence].
  assert (H1 : shouldIgnore mm s rel = false).
  { unfold shouldIgnore. apply not_true_is_false. intros H.
    apply existsb_exists in H as [r [Hr Hm]]. rewrite (Hig r Hr) in Hm. discriminate. }
  rewrite H1. simpl. unfold applyFilters.
  assert (H2 : existsb (fun f => matchPattern mm rel (f_pattern f)) (excludeFilters s) = false).
  { apply not_true_is_false. intros H.
    apply existsb_exists in H as [r [Hr Hm]]. rewrite (Hex r Hr) in Hm. discriminate. }
  rewrite H2. destruct (existsb _ (includeFilters s)); reflexivity.
Qed.

Lemma push_filters_fields l s :
  includeFilters (foldl push_filter s l)
    = includeFilters s ++ List.filter (fun f => bool_decide (f_action f = Include)) l /\
  excludeFilters (foldl push_filter s l)
    = excludeFilters s ++ List.filter (fun f => bool_decide (f_action f = Exclude)) l /\
  ignoreRules (foldl push_filter s l) = ignoreRules s /\
  ignoreCache (foldl push_filter s l) = ignoreCache s.
Proof.
  revert s. induction l as [|f l IH]; intros s; simpl.
  - rewrite !app_nil_r. auto.
  - destruct (IH (push_filter s f)) as (H1 & H2 & H3 & H4).
    rewrite H1, H2, H3, H4. unfold push_filter.
    destruct (f_action f) eqn:Ha; simpl; rewrite <- ?app_assoc; simpl; auto.
Qed.
End Facts2.

Section Facts3.
Variable mm : string -> string -> option bool.

Lemma applyFilters_excludes s k :
  applyFilters mm s k = negb (existsb (fun f => matchPattern mm k (f_pattern f)) (excludeFilters s)).
Proof.
  unfold applyFilters.
  destruct (existsb _ (excludeFilters s)); simpl; [reflexivity|].
  destruct (existsb _ (includeFilters s)); reflexivity.
Qed.

Lemma decision_same_members s1 s2 fs filePath rootPath :
  ignoreCache s1 = ignoreCache s2 ->
  (forall r, In r (ignoreRules s1) <-> In r (ignoreRules s2)) ->
  (forall f, In f (excludeFilters s1) <-> In f (excludeFilters s2)) ->
  fst (shouldInclude mm fs filePath rootPath s1) = fst (shouldInclude mm fs filePath rootPath s2).
Proof.
  intros Hc Hr He. unfold shouldInclude. rewrite Hc.
  destruct (ignoreCache s2 !! relative rootPath filePath); [reflexivity|].
  destruct (fs_stat fs filePath); [|reflexivity].
  assert (Hi : shouldIgnore mm s1 (relative rootPath filePath)
               = shouldIgnore mm s2 (relative rootPath filePath)).
  { unfold shouldIgnore. apply existsb_same_members, Hr. }
  rewrite Hi. destruct (shouldIgnore mm s2 _); [reflexivity|]. simpl.
  rewrite !applyFilters_excludes. f_equal. apply existsb_same_members, He.
Qed.

Lemma Forall_sort_by {A} (P : A -> Prop) cmp (l : list A) :
  Forall P l -> Forall P (sort_by cmp l).
Proof.
  rewrite !List.Forall_forall. intros H x Hx. apply H, (In_sort_by cmp), Hx.
Qed.

Lemma incl_sort_by {A} cmp (d l : list A) : incl d l -> incl d (sort_by cmp l).
Proof. intros H x Hx. apply In_sort_by, H, Hx. Qed.

Lemma filter_all_true {A} (f : A -> bool) (l : list A) :
  Forall (fun x => f x = true) l -> List.filter f l = l.
Proof.
  induction 1 as [|x l Hx _ IH]; simpl; [reflexivity|]. rewrite Hx, IH. reflexivity.
Qed.

Lemma filter_all_false {A} (f : A -> bool) (l : list A) :
  Forall (fun x => f x = false) l -> List.filter f l = [].
Proof.
  induction 1 as [|x l Hx _ IH]; simpl; [reflexivity|]. rewrite Hx, IH. reflexivity.
Qed.

Lemma add_invariant_addFilters filters s :
  add_invariant s -> add_invariant (addFilters filters s).
Proof.
  intros (Hc & [Hi He] & Hdr & Hde & Hdi).
  destruct (push_filters_fields filters s) as (H1 & H2 & H3 & H4).
  unfold addFilters, add_invariant, well_sorted_actions, keeps_defaults. simpl.
  rewrite H1, H2, H3, H4.
  repeat split.
  - exact Hc.
  - apply Forall_sort_by, List.Forall_app. split; [exact Hi|].
    apply List.Forall_forall. intros f Hf. apply List.filter_In in Hf as [_ Hf].
    apply bool_decide_eq_true in Hf. exact Hf.
  - apply Forall_sort_by, List.Forall_app. split; [exact He|].
    apply List.Forall_forall. intros f Hf. apply List.filter_In in Hf as [_ Hf].
    apply bool_decide_eq_true in Hf. exact Hf.
  - exact Hdr.
  - apply incl_sort_by, incl_appl, Hde.
  - apply incl_sort_by, incl_appl, Hdi.
Qed.

Lemma add_invariant_addIgnoreRules rules s :
  add_invariant s -> add_invariant (addIgnoreRules rules s).
Proof.
  intros (Hc & [Hi He] & Hdr & Hde & Hdi).
  unfold addIgnoreRules, add_invariant, well_sorted_actions, keeps_defaults. simpl.
  repeat split; auto.
  apply incl_sort_by, incl_appl, Hdr.
Qed.

Lemma add_invariant_defaults :
  add_invariant (initializeDefaultIgnoreRules (initializeDefaultFilters empty_system)).
Proof.
  unfold add_invariant, well_sorted_actions, keeps_defaults.
  unfold initializeDefaultIgnoreRules, initializeDefaultFilters, empty_system.
  cbn [ignoreCache includeFilters excludeFilters ignoreRules app].
  split; [reflexivity|]. split; [split|split; [|split]]; try apply incl_refl.
  - repeat constructor.
  - repeat constructor.
Qed.

Lemma add_invariant_new config : add_invariant (new_FileFilterSystem config).
Proof.
  unfold new_FileFilterSystem. destruct config as [[fl rl]|]; [|apply add_invariant_defaults].
  simpl. destruct rl as [rl|]; simpl.
  - apply add_invariant_addIgnoreRules.
    destruct fl as [fl|]; simpl; [apply add_invariant_addFilters|]; apply add_invariant_defaults.
  - destruct fl as [fl|]; simpl; [apply add_invariant_addFilters|]; apply add_invariant_defaults.
Qed.

Lemma add_invariant_after_adds config adds : add_invariant (after_adds config adds).
Proof.
  unfold after_adds.
  generalize (add_invariant_new config). generalize (new_FileFilterSystem config).
  induction adds as [|c l IH]; intros s H; simpl; [exact H|].
  apply IH. destruct c; simpl.
  - apply add_invariant_addFilters, H.
  - apply add_invariant_addIgnoreRules, H.
Qed.

Lemma importConfig_exportConfig_fields s :
  add_invariant s ->
  let s' := importConfig (exportConfig s) s in
  ignoreCache s' = ∅ /\
  ignoreRules s' = sort_by (by_priority_desc r_priority) (defaultIgnoreRules ++ ignoreRules s) /\
  excludeFilters s'
    = sort_by (by_priority_desc f_priority) (defaultExcludeFilters ++ excludeFilters s) /\
  includeFilters s'
    = sort_by (by_priority_desc f_priority) (defaultIncludeFilters ++ includeFilters s).
Proof.
  intros (Hc & [Hi He] & _). intros s'. subst s'.
  unfold importConfig, exportConfig. cbn [fst snd].
  destruct (push_filters_fields (includeFilters s ++ excludeFilters s) (reset s))
    as (H1 & H2 & H3 & H4).
  unfold addIgnoreRules, addFilters. cbn [ignoreCache ignoreRules excludeFilters includeFilters clearCache].
  rewrite H1, H2, H3.
  rewrite !List.filter_app.
  rewrite (filter_all_true (fun f => bool_decide (f_action f = Include)) (includeFilters s)).
  2:{ eapply List.Forall_impl; [|exact Hi]. intros f Hf. apply bool_decide_eq_true. exact Hf. }
  rewrite (filter_all_false (fun f => bool_decide (f_action f = Include)) (excludeFilters s)).
  2:{ eapply List.Forall_impl; [|exact He]. intros f Hf. apply bool_decide_eq_false. congruence. }
  rewrite (filter_all_false (fun f => bool_decide (f_action f = Exclude)) (includeFilters s)).
  2:{ eapply List.Forall_impl; [|exact Hi]. intros f Hf. apply bool_decide_eq_false. congruence. }
  rewrite (filter_all_true (fun f => bool_decide (f_action f = Exclude)) (excludeFilters s)).
  2:{ eapply List.Forall_impl; [|exact He]. intros f Hf. apply bool_decide_eq_true. exact Hf. }
  rewrite app_nil_r. unfold reset, initializeDefaultIgnoreRules, initializeDefaultFilters, empty_system.
  cbn [ignoreCache includeFilters excludeFilters ignoreRules app].
  repeat split; reflexivity.
Qed.

End Facts3.

(** ** The filter engine: export and import with regular-expression objects *)

Lemma sort_by_map {A B} (f : A -> B) (cmpA : A -> A -> Z) (cmpB : B -> B -> Z) (l : list A) :
  (forall a b, cmpB (f a) (f b) = cmpA a b) ->
  sort_by cmpB (map f l) = map f (sort_by cmpA l).
Proof.
  intros H. induction l as [|x l IH]; [reflexivity|].
  cbn [map sort_by]. rewrite IH. generalize (sort_by cmpA l). clear IH.
  intros l'. induction l' as [|y l' IH]; [reflexivity|].
  cbn [map insert_by]. rewrite H. destruct (cmpA x y <=? 0)%Z; [reflexivity|].
  cbn [map]. rewrite IH. reflexivity.
Qed.

Lemma pure_push_filters l s :
  RegExpFilter.pure_system (foldl RegExpFilter.push_filter s l)
  = foldl push_filter (RegExpFilter.pure_system s) (map RegExpFilter.pure_filter l).
Proof.
  revert s. induction l as [|f l IH]; intros s; [reflexivity|].
  cbn [foldl map]. rewrite IH. f_equal.
  unfold RegExpFilter.push_filter, push_filter, RegExpFilter.pure_system.
  cbn [f_action RegExpFilter.pure_filter].
  destruct (RegExpFilter.f_action f);
    cbn [RegExpFilter.includeFilters RegExpFilter.excludeFilters RegExpFilter.ignoreRules
         RegExpFilter.ignoreCache includeFilters excludeFilters ignoreRules ignoreCache];
    rewrite ?map_app; reflexivity.
Qed.

Lemma pure_addFilters l s :
  RegExpFilter.pure_system (RegExpFilter.addFilters l s)
  = addFilters (map RegExpFilter.pure_filter l) (RegExpFilter.pure_system s).
Proof.
  unfold RegExpFilter.addFilters, addFilters. rewrite <- pure_push_filters.
  unfold RegExpFilter.pure_system.
  cbn [RegExpFilter.includeFilters RegExpFilter.excludeFilters RegExpFilter.ignoreRules
       RegExpFilter.ignoreCache includeFilters excludeFilters ignoreRules ignoreCache].
  rewrite !(sort_by_map RegExpFilter.pure_filter
              (by_priority_desc RegExpFilter.f_priority) (by_priority_desc f_priority));
    reflexivity.
Qed.

Lemma pure_addIgnoreRules rules s :
  RegExpFilter.pure_system (RegExpFilter.addIgnoreRules rules s)
  = addIgnoreRules rules (RegExpFilter.pure_system s).
Proof. reflexivity. Qed.

Lemma pure_defaults :
  RegExpFilter.pure_system
    (RegExpFilter.initializeDefaultIgnoreRules
       (RegExpFilter.initializeDefaultFilters RegExpFilter.empty_system))
  = initializeDefaultIgnoreRules (initializeDefaultFilters empty_system).
Proof. reflexivity. Qed.

Lemma pure_new_FileFilterSystem config :
  RegExpFilter.pure_system (RegExpFilter.new_FileFilterSystem config)
  = new_FileFilterSystem (option_map RegExpFilter.pure_config config).
Proof.
  destruct config as [[fl rl]|]; [|reflexivity].
  unfold RegExpFilter.new_FileFilterSystem, new_FileFilterSystem.
  cbn [option_map RegExpFilter.pure_config RegExpFilter.c_filters RegExpFilter.c_ignoreRules
       c_filters c_ignoreRules].
  destruct rl as [rl|], fl as [fl|]; cbn [opt_apply option_map];
    rewrite ?pure_addIgnoreRules, ?pure_addFilters, ?pure_defaults; reflexivity.
Qed.

Lemma pure_after_adds config adds :
  RegExpFilter.pure_system (RegExpFilter.after_adds config adds)
  = after_adds (option_map RegExpFilter.pure_config config) (map RegExpFilter.pure_add adds).
Proof.
  unfold RegExpFilter.after_adds, after_adds. rewrite <- pure_new_FileFilterSystem.
  generalize (RegExpFilter.new_FileFilterSystem config).
  induction adds as [|c l IH]; intros s; [reflexivity|].
  cbn [foldl map]. rewrite IH. f_equal.
  destruct c; cbn [RegExpFilter.run_add run_add RegExpFilter.pure_add].
  - apply pure_addFilters.
  - apply pure_addIgnoreRules.
Qed.

Lemma pure_importConfig_exportConfig s :
  RegExpFilter.pure_system (RegExpFilter.importConfig (RegExpFilter.exportConfig s) s)
  = importConfig (exportConfig (RegExpFilter.pure_system s)) (RegExpFilter.pure_system s).
Proof.
  unfold RegExpFilter.importConfig, importConfig, RegExpFilter.exportConfig, exportConfig.
  cbn [fst snd]. rewrite pure_addIgnoreRules, pure_addFilters.
  unfold RegExpFilter.reset, reset. rewrite pure_defaults.
  rewrite map_app. reflexivity.
Qed.

Lemma In_push_filters f l s :
  In f (RegExpFilter.includeFilters (foldl RegExpFilter.push_filter s l)
        ++ RegExpFilter.excludeFilters (foldl RegExpFilter.push_filter s l)) ->
  In f (RegExpFilter.includeFilters s ++ RegExpFilter.excludeFilters s) \/ In f l.
Proof.
  revert s. induction l as [|x l IH]; intros s; cbn [foldl]; [auto|].
  intros H. apply IH in H as [H|H]; [|right; right; exact H].
  unfold RegExpFilter.push_filter in H.
  destruct (RegExpFilter.f_action x);
    cbn [RegExpFilter.includeFilters RegExpFilter.excludeFilters] in H;
    rewrite !in_app_iff in H; rewrite in_app_iff; cbn [In] in *; intuition.
Qed.

Lemma stateless_importConfig_exportConfig s :
  RegExpFilter.stateless s = true ->
  RegExpFilter.stateless (RegExpFilter.importConfig (RegExpFilter.exportConfig s) s) = true.
Proof.
  unfold RegExpFilter.stateless. rewrite !forallb_forall. intros H f Hf.
  unfold RegExpFilter.importConfig, RegExpFilter.exportConfig, RegExpFilter.addIgnoreRules,
         RegExpFilter.addFilters, RegExpFilter.clearCache in Hf.
  cbn [fst snd RegExpFilter.includeFilters RegExpFilter.excludeFilters] in Hf.
  rewrite in_app_iff, !In_sort_by, <- in_app_iff in Hf.
  apply In_push_filters in Hf as [Hf|Hf]; [|apply H, Hf].
  revert f Hf. apply forallb_forall. reflexivity.
Qed.

Section RegExpFacts.
Variable mm : string -> string -> option bool.

Lemma matchPattern_stateless path pattern heap :
  RegExpFilter.keeps_lastIndex pattern = false ->
  RegExpFilter.matchPattern mm path pattern heap
  = (matchPattern mm path (RegExpFilter.pure_pattern pattern), heap).
Proof.
  destruct pattern as [g|r]; cbn [RegExpFilter.keeps_lastIndex]; intros H; [reflexivity|].
  cbn [RegExpFilter.matchPattern RegExpFilter.pure_pattern matchPattern].
  unfold RegExpFilter.test. rewrite H.
  destruct (RegExpFilter.re_exec r path 0); reflexivity.
Qed.

Lemma first_match_stateless path patterns heap :
  forallb (fun p => negb (RegExpFilter.keeps_lastIndex p)) patterns = true ->
  RegExpFilter.first_match mm path patterns heap
  = (existsb (fun p => matchPattern mm path (RegExpFilter.pure_pattern p)) patterns, heap).
Proof.
  induction patterns as [|p l IH]; cbn [forallb]; intros H; [reflexivity|].
  apply andb_true_iff in H as [Hp Hl]. apply negb_true_iff in Hp.
  cbn [RegExpFilter.first_match existsb]. rewrite (matchPattern_stateless _ _ _ Hp).
  destruct (matchPattern mm path (RegExpFilter.pure_pattern p)); [reflexivity|].
  apply IH, Hl.
Qed.

Lemma existsb_map {A B} (f : B -> bool) (g : A -> B) (l : list A) :
  existsb f (map g l) = existsb (fun x => f (g x)) l.
Proof. induction l as [|x l IH]; [reflexivity|]. cbn [map existsb]. rewrite IH. reflexivity. Qed.

Lemma forallb_map {A B} (f : B -> bool) (g : A -> B) (l : list A) :
  forallb f (map g l) = forallb (fun x => f (g x)) l.
Proof. induction l as [|x l IH]; [reflexivity|]. cbn [map forallb]. rewrite IH. reflexivity. Qed.

Lemma shouldIgnore_pure s relativePath heap :
  RegExpFilter.shouldIgnore mm s relativePath heap
  = (shouldIgnore mm (RegExpFilter.pure_system s) relativePath, heap).
Proof.
  unfold RegExpFilter.shouldIgnore, shouldIgnore. rewrite first_match_stateless.
  - rewrite existsb_map. reflexivity.
  - rewrite forallb_map. apply forallb_forall. reflexivity.
Qed.

Lemma applyFilters_stateless s relativePath heap :
  RegExpFilter.stateless s = true ->
  RegExpFilter.applyFilters mm s relativePath heap
  = (applyFilters mm (RegExpFilter.pure_system s) relativePath, heap).
Proof.
  unfold RegExpFilter.stateless. rewrite forallb_app. intros H.
  apply andb_true_iff in H as [Hi He].
  unfold RegExpFilter.applyFilters, applyFilters.
  rewrite !first_match_stateless by (rewrite forallb_map; assumption).
  rewrite !existsb_map. unfold RegExpFilter.pure_system.
  cbn [includeFilters excludeFilters]. rewrite !existsb_map.
  cbn [RegExpFilter.pure_filter f_pattern].
  destruct (existsb _ (RegExpFilter.excludeFilters s)); [reflexivity|].
  destruct (existsb _ (RegExpFilter.includeFilters s)); reflexivity.
Qed.

(** Without a [RegExp] that keeps its [lastIndex], [shouldInclude] decides
    as it does on functions, and leaves the heap as it is. *)
Lemma shouldInclude_stateless fs filePath rootPath s heap :
  RegExpFilter.stateless s = true ->
  fst (fst (RegExpFilter.shouldInclude mm fs filePath rootPath s heap))
  = fst (shouldInclude mm fs filePath rootPath (RegExpFilter.pure_system s)) /\
  snd (RegExpFilter.shouldInclude mm fs filePath rootPath s heap) = heap.
Proof.
  intros H. unfold RegExpFilter.shouldInclude, shouldInclude.
  change (ignoreCache (RegExpFilter.pure_system s)) with (RegExpFilter.ignoreCache s).
  destruct (RegExpFilter.ignoreCache s !! relative rootPath filePath); [split; reflexivity|].
  destruct (fs_stat fs filePath); [|split; reflexivity].
  rewrite shouldIgnore_pure.
  destruct (shouldIgnore mm (RegExpFilter.pure_system s) _); [split; reflexivity|].
  rewrite (applyFilters_stateless _ _ _ H). split; reflexivity.
Qed.

(** C10, amended.  For a system built by its constructor and any sequence
    of [addFilters] and [addIgnoreRules], none of whose filters has a
    [RegExp] with the [g] or the [y] flag, [importConfig(exportConfig())]
    yields a system whose [shouldInclude] decides every path and root as
    the original does, whatever the [lastIndex] of the [RegExp] objects at
    either call; neither call writes a [lastIndex]. *)
Theorem export_import_preserves_decisions config adds fs filePath rootPath heap heap' :
  let s := RegExpFilter.after_adds config adds in
  let s' := RegExpFilter.importConfig (RegExpFilter.exportConfig s) s in
  RegExpFilter.stateless s = true ->
  fst (fst (RegExpFilter.shouldInclude mm fs filePath rootPath s' heap'))
  = fst (fst (RegExpFilter.shouldInclude mm fs filePath rootPath s heap)) /\
  snd (RegExpFilter.shouldInclude mm fs filePath rootPath s' heap') = heap' /\
  snd (RegExpFilter.shouldInclude mm fs filePath rootPath s heap) = heap.
Proof.
  intros s s' Hs.
  destruct (shouldInclude_stateless fs filePath rootPath s heap Hs) as [Hd Hh].
  destruct (shouldInclude_stateless fs filePath rootPath s' heap'
              (stateless_importConfig_exportConfig s Hs)) as [Hd' Hh'].
  split; [|split; assumption].
  rewrite Hd, Hd'. subst s'. rewrite pure_importConfig_exportConfig.
  set (p := RegExpFilter.pure_system s).
  assert (Hinv : add_invariant p).
  { subst p s. rewrite pure_after_adds. apply add_invariant_after_adds. }
  destruct (importConfig_exportConfig_fields p Hinv) as (H1 & H2 & H3 & _).
  destruct Hinv as (Hc & _ & Hdr & Hde & _).
  apply decision_same_members.
  - rewrite H1, Hc. reflexivity.
  - intros r. rewrite H2, In_sort_by, in_app_iff. split; [intros [H|H]; auto|auto].
  - intros f. rewrite H3, In_sort_by, in_app_iff. split; [intros [H|H]; auto|auto].
Qed.
End RegExpFacts.

(** ** Module discovery *)

Lemma clear_path_app call cur a b :
  clear_path call cur (a ++ b) <-> clear_path call cur a /\ clear_path call (cur ++ a) b.
Proof.
  revert cur. induction a as [|n a IH]; intros cur; simpl.
  - rewrite app_nil_r. tauto.
  - rewrite IH. rewrite <- app_assoc. simpl. tauto.
Qed.

Lemma clear_path_not_hidden call cur names :
  clear_path call cur names -> Forall (fun n => is_hidden n = false) names.
Proof.
  revert cur. induction names as [|n l IH]; intros cur; simpl; [constructor|].
  intros (H1 & _ & H3). constructor; eauto.
Qed.

Lemma clear_path_through call cur a n b :
  clear_path call cur (a ++ n :: b) -> call (cur ++ a ++ [n]) = Ok false.
Proof.
  rewrite clear_path_app. simpl. intros (_ & _ & H & _).
  rewrite app_assoc. exact H.
Qed.

Section Discovery.
Variable this : option DetectorManager.
Variable fs : FileSystem.
Abbreviation call := (this_isModuleRoot this fs).

Lemma discovery_inv_refl cur budget acc : discovery_inv call cur budget acc acc.
Proof. split; auto. Qed.

Lemma reached_listing_step cur n budget p :
  is_hidden n = false -> call (cur ++ [n]) = Ok false ->
  reached_listing call (cur ++ [n]) budget p -> reached_listing call cur (S budget) p.
Proof.
  intros Hn Hc (names & -> & Hlen & Hcl).
  exists (n :: names). rewrite <- app_assoc. simpl. repeat split; auto. lia.
Qed.

Lemma reached_module_step cur n budget D :
  is_hidden n = false -> call (cur ++ [n]) = Ok false ->
  reached_module call (cur ++ [n]) budget D -> reached_module call cur (S budget) D.
Proof.
  intros Hn Hc (names & m & -> & Hlen & Hcl & Hm & Hcall).
  exists (n :: names), m. rewrite <- app_assoc in *. simpl. repeat split; auto. lia.
Qed.

Lemma scanDirectory_inv budget : forall cur acc,
  discovery_inv call cur budget acc (scanDirectory this fs budget cur acc).
Proof.
  induction budget as [|b IH]; intros cur acc; [apply discovery_inv_refl|].
  cbn [scanDirectory].
  set (acc1 := mkDiscovery (modules acc) (listed acc ++ [cur])).
  assert (Hacc1 : discovery_inv call cur (S b) acc acc1).
  { split; simpl.
    - intros p Hp. apply in_app_iff in Hp as [Hp|[<-|[]]]; [auto|].
      right. exists []. rewrite app_nil_r. simpl. repeat split; auto. lia.
    - auto. }
  destruct (fs_readdir fs cur) as [entries|]; [|exact Hacc1].
  revert Hacc1. generalize acc1. clear acc1.
  induction entries as [|entry rest IHe]; intros acc1 Hacc1; [exact Hacc1|].
  destruct (d_isDirectory entry && negb (is_hidden (d_name entry))) eqn:Hd; [|apply IHe, Hacc1].
  apply andb_true_iff in Hd as [_ Hh]. apply negb_true_iff in Hh.
  unfold join. fold call.
  destruct (call (cur ++ [d_name entry])) as [[|]|e] eqn:Hc; [| |exact Hacc1].
  - apply IHe. destruct Hacc1 as [H1 H2]. split; simpl; [exact H1|].
    intros D HD. apply in_app_iff in HD as [HD|[<-|[]]]; [auto|].
    right. exists [], (d_name entry). simpl. repeat split; auto. lia.
  - apply IHe. destruct Hacc1 as [H1 H2].
    destruct (IH (cur ++ [d_name entry]) acc1) as [H3 H4]. split.
    + intros p Hp. destruct (H3 p Hp) as [Hp'|Hp']; [auto|].
      right. eapply reached_listing_step; eauto.
    + intros D HD. destruct (H4 D HD) as [HD'|HD']; [auto|].
      right. eapply reached_module_step; eauto.
Qed.

(** C6.  In one discovery pass, whatever receiver the nested function
    sees: no descendant of a recorded module root is recorded; neither a
    recorded root nor anything below it is listed; every recorded or listed
    directory lies under the root along names that do not start with a
    dot; listed directories are at depth at most [maxDepth] and recorded
    ones at depth at most [maxDepth + 1]. *)
Theorem findModules_prunes_at_module_roots (rootPath : Path) (maxDepth : nat) :
  let found := findModules_with this fs rootPath maxDepth in
  (forall D D', In D (modules found) -> In D' (modules found) ->
     ~ (exists k, k <> [] /\ D' = D ++ k)) /\
  (forall D p, In D (modules found) -> In p (listed found) ->
     ~ (exists k, p = D ++ k)) /\
  (forall p, In p (modules found) \/ In p (listed found) ->
     exists names, p = rootPath ++ names /\ Forall (fun n => is_hidden n = false) names) /\
  (forall p, In p (listed found) -> length p <= length rootPath + maxDepth) /\
  (forall D, In D (modules found) -> length D <= length rootPath + maxDepth + 1).
Proof.
  intros found.
  destruct (scanDirectory_inv (S maxDepth) rootPath (mkDiscovery [] [])) as [HL HM].
  fold (findModules_with this fs rootPath maxDepth) in HL, HM. fold found in HL, HM.
  assert (HL' : forall p, In p (listed found) -> reached_listing call rootPath (S maxDepth) p).
  { intros p Hp. destruct (HL p Hp) as [[]|H]; exact H. }
  assert (HM' : forall D, In D (modules found) -> reached_module call rootPath (S maxDepth) D).
  { intros D HD. destruct (HM D HD) as [[]|H]; exact H. }
  clear HL HM. repeat split.
  - intros D D' HD HD' (k & Hk & Heq).
    destruct (HM' D HD) as (names & n & -> & _ & _ & _ & Hcall).
    destruct (HM' D' HD') as (names' & n' & -> & _ & Hcl & _ & _).
    destruct (exists_last Hk) as (k' & m & ->).
    rewrite <- !app_assoc in Heq. apply app_inv_head in Heq.
    rewrite !app_assoc in Heq. apply app_inj_tail in Heq as [Heq _]. subst names'.
    rewrite <- app_assoc in Hcl. simpl in Hcl.
    apply clear_path_through in Hcl. congruence.
  - intros D p HD Hp (k & Heq).
    destruct (HM' D HD) as (names & n & -> & _ & _ & _ & Hcall).
    destruct (HL' p Hp) as (names' & -> & _ & Hcl).
    rewrite <- !app_assoc in Heq. apply app_inv_head in Heq. subst names'.
    simpl in Hcl. apply clear_path_through in Hcl. congruence.
  - intros p [Hp|Hp].
    + destruct (HM' p Hp) as (names & n & -> & _ & Hcl & Hn & _).
      exists (names ++ [n]). split; [reflexivity|].
      apply Forall_app. split; [eapply clear_path_not_hidden; eauto|repeat constructor; auto].
    + destruct (HL' p Hp) as (names & -> & _ & Hcl).
      exists names. split; [reflexivity|]. eapply clear_path_not_hidden; eauto.
  - intros p Hp. destruct (HL' p Hp) as (names & -> & Hlen & _).
    rewrite length_app. lia.
  - intros D HD. destruct (HM' D HD) as (names & n & -> & Hlen & _).
    rewrite !length_app. simpl. lia.
Qed.
End Discovery.

(** ** Confidence scores and the choice of the project type *)

Lemma filter_truthy_all fs path (pats : list string) :
  List.filter (fun pattern => truthy (checkPatternMatch fs path pattern)) pats = pats.
Proof. induction pats as [|p l IH]; simpl; [reflexivity|]. rewrite IH. reflexivity. Qed.

Lemma calculateConfidence_ignores_disk fs path t d :
  calculateConfidence fs path t d
  = Z.min 100 (50 + Z.of_nat (length (patterns d)) * 10 + type_bonus t (patterns d)).
Proof.
  unfold calculateConfidence, type_bonus. rewrite filter_truthy_all.
  destruct t; try (rewrite Z.add_0_r; reflexivity);
    match goal with |- context [includes ?a ?b] => destruct (includes a b) end;
    rewrite ?Z.add_0_r; reflexivity.
Qed.

(** C4, at the failing input.  For a directory holding only [main.go] the
    Go detector matches; the code scores it 100, where 50 + 10 for the one
    declared pattern present on disk is 60. *)
Theorem calculateConfidence_counts_declared_patterns :
  detect GoProjectDetector go_only_fs ["proj"] = Ok true /\
  calculateConfidence go_only_fs ["proj"] GO GoProjectDetector = 100%Z /\
  confidence_as_specified go_only_fs ["proj"] GoProjectDetector = 60%Z.
Proof. repeat split; vm_compute; reflexivity. Qed.

Lemma Forall_insert_by {A} (P : A -> Prop) cmp (x : A) l :
  P x -> Forall P l -> Forall P (insert_by cmp x l).
Proof.
  intros Hx. induction 1 as [|y l Hy Hl IH]; simpl; [repeat constructor; auto|].
  destruct (cmp x y <=? 0)%Z; repeat constructor; auto.
Qed.

Lemma Forall_sort_by' {A} (P : A -> Prop) cmp (l : list A) :
  Forall P l -> Forall P (sort_by cmp l).
Proof.
  induction 1 as [|x l Hx Hl IH]; simpl; [constructor|]. apply Forall_insert_by; auto.
Qed.

Lemma sort_by_head_first_best (A B : list Detection) (x : Detection) :
  Forall (fun a => (det_confidence a < det_confidence x)%Z) A ->
  Forall (fun b => (det_confidence b <= det_confidence x)%Z) B ->
  exists tl, sort_by by_confidence_desc (A ++ x :: B) = x :: tl.
Proof.
  intros HA HB. induction HA as [|a A Ha HA IH]; simpl.
  - pose proof (Forall_sort_by' _ by_confidence_desc B HB) as HsB.
    destruct (sort_by by_confidence_desc B) as [|y l]; simpl; [eauto|].
    inversion HsB as [|? ? Hy _]; subst.
    unfold by_confidence_desc at 1.
    destruct (det_confidence y - det_confidence x <=? 0)%Z eqn:E; [eauto|].
    apply Z.leb_gt in E. lia.
  - destruct IH as [tl ->]. simpl. unfold by_confidence_desc at 1.
    destruct (det_confidence x - det_confidence a <=? 0)%Z eqn:E; [|eauto].
    apply Z.leb_le in E. lia.
Qed.

Lemma detectionResults_app fs path m1 m2 :
  detectionResults fs path (m1 ++ m2) = detectionResults fs path m1 ++ detectionResults fs path m2.
Proof.
  induction m1 as [|[t d] m1 IH]; simpl; [reflexivity|].
  destruct (detect d fs path) as [[|]|]; simpl; rewrite ?IH; reflexivity.
Qed.

Lemma detectionResults_bound fs path (R : Z -> Prop) m :
  Forall (fun td => detect (snd td) fs path = Ok true ->
                    R (calculateConfidence fs path (fst td) (snd td))) m ->
  Forall (fun r => R (det_confidence r)) (detectionResults fs path m).
Proof.
  induction 1 as [|[t d] m H Hm IH]; simpl; [constructor|].
  destruct (detect d fs path) as [[|]|] eqn:E; auto.
Qed.

Lemma detectProjectType_first_best fs path pre t d post :
  detect d fs path = Ok true ->
  earlier_score_below fs path (calculateConfidence fs path t d) pre ->
  later_score_at_most fs path (calculateConfidence fs path t d) post ->
  detectProjectType fs path (mkManager (pre ++ (t, d) :: post)) = t.
Proof.
  intros Hd Hpre Hpost. unfold detectProjectType. cbn [detectors].
  rewrite detectionResults_app. cbn [detectionResults]. rewrite Hd.
  set (x := mkDetection t (calculateConfidence fs path t d)).
  destruct (sort_by_head_first_best (detectionResults fs path pre)
              (detectionResults fs path post) x) as [tl Htl].
  { apply (detectionResults_bound fs path (fun c => (c < det_confidence x)%Z)), Hpre. }
  { apply (detectionResults_bound fs path (fun c => (c <= det_confidence x)%Z)), Hpost. }
  rewrite Htl, length_app. simpl.
  replace (length (detectionResults fs path pre) + S (length (detectionResults fs path post)) =? 0)%nat
    with false by (symmetry; apply Nat.eqb_neq; lia).
  reflexivity.
Qed.

Lemma anyIndicator_same fs fs' path l :
  same_listing fs fs' -> anyIndicator fs path l = anyIndicator fs' path l.
Proof.
  intros [Ha _]. unfold anyIndicator, fileExists.
  induction l as [|x l IH]; simpl; [reflexivity|]. rewrite Ha, IH. reflexivity.
Qed.

Lemma hasFilesWithExt_same ext fs fs' path :
  same_listing fs fs' -> hasFilesWithExt ext fs path = hasFilesWithExt ext fs' path.
Proof. intros [_ Hr]. unfold hasFilesWithExt. rewrite Hr. reflexivity. Qed.

Lemma detectionResults_same fs fs' path m :
  Forall (fun td => detect (snd td) fs path = detect (snd td) fs' path) m ->
  detectionResults fs path m = detectionResults fs' path m.
Proof.
  induction 1 as [|[t d] m H Hm IH]; [reflexivity|].
  cbn [detectionResults]. cbn [snd] in H. rewrite H, IH, !calculateConfidence_ignores_disk.
  reflexivity.
Qed.

Lemma default_registry :
  detectors new_DetectorManager
  = [(JAVASCRIPT, JavaScriptProjectDetector); (TYPESCRIPT, JavaScriptProjectDetector);
     (PYTHON, PythonProjectDetector); (GO, GoProjectDetector)].
Proof. reflexivity. Qed.

Lemma default_detectors_same_listing fs fs' path :
  same_listing fs fs' ->
  Forall (fun td => detect (snd td) fs path = detect (snd td) fs' path)
         (detectors new_DetectorManager).
Proof.
  intros H. rewrite default_registry.
  assert (Hjs : detect JavaScriptProjectDetector fs path = detect JavaScriptProjectDetector fs' path).
  { cbn [detect JavaScriptProjectDetector]. unfold fileExists. destruct H as [Ha _].
    rewrite Ha. reflexivity. }
  assert (Hpy : detect PythonProjectDetector fs path = detect PythonProjectDetector fs' path).
  { cbn [detect PythonProjectDetector].
    rewrite (anyIndicator_same fs fs' path pythonIndicators H).
    rewrite (hasFilesWithExt_same ".py" fs fs' path H). reflexivity. }
  assert (Hgo : detect GoProjectDetector fs path = detect GoProjectDetector fs' path).
  { cbn [detect GoProjectDetector].
    rewrite (anyIndicator_same fs fs' path goIndicators H).
    rewrite (hasFilesWithExt_same ".go" fs fs' path H). reflexivity. }
  repeat constructor; assumption.
Qed.

Lemma detectProjectType_same_listing fs fs' path :
  same_listing fs fs' ->
  detectProjectType fs path new_DetectorManager = detectProjectType fs' path new_DetectorManager.
Proof.
  intros H. unfold detectProjectType.
  rewrite (detectionResults_same fs fs' path _ (default_detectors_same_listing fs fs' path H)).
  reflexivity.
Qed.

(** C5.  With the built-in registry the detected type depends on the
    filesystem only through the answers of [access] and [readdir], so two
    calls on an unmodified directory agree; and a matching detector wins
    when every match registered before it scores strictly less and every
    match registered after it scores at most as much: among equal scores
    the one registered first is returned. *)
Theorem detectProjectType_deterministic_first_registered_wins :
  (forall fs fs' path, same_listing fs fs' ->
     detectProjectType fs path new_DetectorManager
     = detectProjectType fs' path new_DetectorManager) /\
  (forall fs path pre t d post,
     detect d fs path = Ok true ->
     earlier_score_below fs path (calculateConfidence fs path t d) pre ->
     later_score_at_most fs path (calculateConfidence fs path t d) post ->
     detectProjectType fs path (mkManager (pre ++ (t, d) :: post)) = t).
Proof.
  split.
  - apply detectProjectType_same_listing.
  - apply detectProjectType_first_best.
Qed.

(** ** The scan orchestrator *)

Lemma run_bind {A B} (m : M A) (f : A -> M B) (s : Scanner) :
  (m ≫= f) s = match m s with
               | (Ok a, s') => f a s'
               | (Throw e, s') => (Throw e, s')
               end.
Proof. reflexivity. Qed.

Lemma run_bind_ok {A B} (m : M A) (f : A -> M B) s a s' :
  m s = (Ok a, s') -> (m ≫= f) s = f a s'.
Proof. intros H. rewrite run_bind, H. reflexivity. Qed.

Lemma run_bind_throw {A B} (m : M A) (f : A -> M B) s e s' :
  m s = (Throw e, s') -> (m ≫= f) s = (Throw e, s').
Proof. intros H. rewrite run_bind, H. reflexivity. Qed.

Lemma run_try_ok {A} (m : M A) h s a s' :
  m s = (Ok a, s') -> try_catch m h s = (Ok a, s').
Proof. intros H. unfold try_catch. rewrite H. reflexivity. Qed.

Lemma run_try_throw {A} (m : M A) h s e s' :
  m s = (Throw e, s') -> try_catch m h s = h e s'.
Proof. intros H. unfold try_catch. rewrite H. reflexivity. Qed.

Section Orchestrator.
Variable clock : nat -> Z.
Variables pq pm pd : Path -> M unit.

Abbreviation scanPhase' := (scanPhase clock pq pm pd).
Abbreviation scan_loop' := (scan_loop clock pq pm pd).
Abbreviation scan' := (scan clock pq pm pd).
Abbreviation dispatch' := (dispatch pq pm pd).

Lemma emitEvent_run d s :
  emitEvent clock d s
  = (if is_error_event d && (errorListeners s =? 0)%nat
     then Throw ERR_UNHANDLED_ERROR else Ok tt,
     with_events (events s ++ [mkEvent (clock (ticks s)) d]) (with_ticks (S (ticks s)) s)).
Proof.
  unfold emitEvent. rewrite run_bind. cbn [now]. rewrite run_bind. cbn [modify].
  rewrite run_bind. cbn [get errorListeners with_events with_ticks].
  destruct (is_error_event d && (errorListeners s =? 0)%nat); reflexivity.
Qed.

Lemma phase_entry_ok ph path s :
  exists t0 s', phase_entry clock ph path s = (Ok t0, s') /\ t0 = clock (ticks s).
Proof. eexists _, _. split; reflexivity. Qed.

(** The [catch] block of [scanPhase] up to its [throw]: it is left by the
    exception of [emit] when no listener is attached to ['error']. *)
Lemma phase_failure_run ph t0 e s :
  exists s',
    phase_failure clock ph t0 e s
      = (if (errorListeners s =? 0)%nat then Throw ERR_UNHANDLED_ERROR else Ok tt, s') /\
    status (record s') = failed /\
    error (record s') = Some (exn_message e) /\
    duration (record s') = (endTime (record s') - t0)%Z /\
    scanResult s' = scanResult s /\
    map ev_data (events s') = map ev_data (events s) ++ [ev_phase_error ph e (record s')] /\
    errorListeners s' = errorListeners s.
Proof.
  unfold phase_failure. rewrite run_bind. cbn [modify_record modify].
  rewrite run_bind. cbn [modify_record modify]. rewrite run_bind. cbn [now].
  rewrite run_bind. cbn [modify_record modify]. rewrite run_bind. cbn [get].
  rewrite emitEvent_run. cbn [is_error_event andb].
  eexists. split; [reflexivity|].
  cbn [record events with_events with_ticks with_record scanResult errorListeners
       set_end set_error set_status status error duration endTime].
  rewrite map_app. repeat split; reflexivity.
Qed.

Lemma phase_success_run ph t0 s :
  exists r s', phase_success clock ph t0 s = (Ok r, s') /\
    r = record s' /\
    status r = completed /\
    duration r = (endTime r - t0)%Z /\
    scanResult s' = scanResult s.
Proof. eexists _, _. split; [reflexivity|]. simpl. repeat split; reflexivity. Qed.

Lemma handleError_throws e ph s :
  exists s', handleError clock e (Some ph) s = (Throw (scan_throws e ph s), s') /\
    s' = snd (emitEvent clock (ev_error e (Some ph)) s).
Proof.
  unfold handleError, scan_throws, rethrown. rewrite run_bind, emitEvent_run.
  cbn [is_error_event andb snd].
  destruct (errorListeners s =? 0)%nat; [eexists; split; reflexivity|].
  destruct (is_ScanError e); eexists; split; reflexivity.
Qed.

Lemma scan_throws_after_scanPhase e ph s s' :
  errorListeners s' = errorListeners s -> scanResult s' = scanResult s ->
  scan_throws (scanPhase_throws e s) ph s' = scan_throws e ph s.
Proof.
  unfold scan_throws, scanPhase_throws, rethrown. intros -> ->.
  destruct (errorListeners s =? 0)%nat; reflexivity.
Qed.

Lemma scan_loop_step_throw path ph rest s e s2 :
  dispatch' ph path (at_dispatch clock ph path s) = (Throw e, s2) ->
  scan_loop' path (ph :: rest) s
  = (Throw (scan_throws e ph s2), after_failure clock ph path s e s2).
Proof.
  intros Hd. cbn [scan_loop]. rewrite run_bind.
  unfold try_catch at 1.
  rewrite run_bind. cbn [modify].
  rewrite run_bind. unfold scanPhase at 1. rewrite run_bind.
  unfold at_dispatch in Hd.
  destruct (phase_entry clock ph path (with_currentPhase (Some ph) s)) as [r1 s1] eqn:E1.
  assert (r1 = Ok (clock (ticks (with_currentPhase (Some ph) s)))) as -> by (inversion E1; reflexivity).
  cbn [snd] in Hd.
  unfold try_catch at 1. rewrite run_bind, Hd.
  rewrite run_bind.
  destruct (phase_failure_run ph (clock (ticks (with_currentPhase (Some ph) s))) e s2)
    as (s3 & E3 & _ & _ & _ & Hr3 & _ & Hl3).
  unfold after_failure. rewrite E3. cbn [snd].
  pose proof (scan_throws_after_scanPhase e ph s2 s3 Hl3 Hr3) as Hst.
  unfold scanPhase_throws in *.
  destruct (errorListeners s2 =? 0)%nat; cbn [throw]; rewrite run_bind;
    match goal with |- context [handleError clock ?err (Some ph) s3] =>
      destruct (handleError_throws err ph s3) as (s4 & E4 & ->) end;
    rewrite E4, Hst; reflexivity.
Qed.

Lemma scan_loop_step_ok path ph rest s s2 :
  dispatch' ph path (at_dispatch clock ph path s) = (Ok tt, s2) ->
  exists s3, scan_loop' path (ph :: rest) s = scan_loop' path rest s3 /\
    scan_loop' path [ph] s = (Ok tt, s3).
Proof.
  intros Hd.
  assert (H : exists s3,
    try_catch (modify (with_currentPhase (Some ph));;
               phaseRecord ← scanPhase' ph path;
               modify_result (fun r => with_scanPhases (scanPhases r ++ [phaseRecord]) r);;
               mret false)
              (fun error => handleError clock error (Some ph);; mret true) s = (Ok false, s3)).
  { unfold try_catch at 1. rewrite run_bind. cbn [modify].
    rewrite run_bind. unfold scanPhase at 1. rewrite run_bind.
    unfold at_dispatch in Hd.
    destruct (phase_entry clock ph path (with_currentPhase (Some ph) s)) as [r1 s1] eqn:E1.
    assert (r1 = Ok (clock (ticks (with_currentPhase (Some ph) s)))) as -> by (inversion E1; reflexivity).
    cbn [snd] in Hd.
    unfold try_catch at 1. rewrite run_bind, Hd.
    destruct (phase_success_run ph (clock (ticks (with_currentPhase (Some ph) s))) s2)
      as (r & s3 & E3 & _).
    rewrite E3. eexists. reflexivity. }
  destruct H as [s3 H]. exists s3. cbn [scan_loop]. rewrite !run_bind, H. split; reflexivity.
Qed.

Lemma scan_loop_app path pre post s s1 :
  scan_loop' path pre s = (Ok tt, s1) ->
  scan_loop' path (pre ++ post) s = scan_loop' path post s1.
Proof.
  revert s. induction pre as [|ph pre IH]; intros s H.
  - cbn in H. inversion H. reflexivity.
  - simpl app.
    destruct (dispatch' ph path (at_dispatch clock ph path s)) as [[[]|e] s2] eqn:Hd.
    + destruct (scan_loop_step_ok path ph (pre ++ post) s s2 Hd) as (s3' & E' & E1).
      destruct (scan_loop_step_ok path ph pre s s2 Hd) as (s3'' & E'' & E1').
      rewrite E1 in E1'. inversion E1'; subst s3''.
      rewrite E'. apply IH. rewrite <- E''. exact H.
    + rewrite (scan_loop_step_throw path ph pre s e s2 Hd) in H. discriminate.
Qed.

Lemma rethrown_scanResult e ph s s' :
  scanResult s' = scanResult s -> rethrown e ph s' = rethrown e ph s.
Proof. unfold rethrown. intros ->. reflexivity. Qed.

Lemma finalizeScan_run s :
  exists s', finalizeScan s = (Ok tt, s') /\
    let r := scanResult s in
    let r' := scanResult s' in
    rootPath r' = rootPath r /\ projectType r' = projectType r /\
    sr_modules r' = sr_modules r /\ scanPhases r' = scanPhases r /\
    totalFiles (scanStatistics r') = totalFiles (scanStatistics r) /\
    scannedFiles (scanStatistics r') = scannedFiles (scanStatistics r) /\
    modulesFound (scanStatistics r') = modulesFound (scanStatistics r) /\
    scanDuration (scanStatistics r') = sum_durations (scanPhases r) /\
    coverage (scanStatistics r')
      = (if (0 <? totalFiles (scanStatistics r))%Z
         then coverage_of (scannedFiles (scanStatistics r)) (totalFiles (scanStatistics r))
         else coverage (scanStatistics r)) /\
    recommendations r' = final_recommendations r' /\
    events s' = events s /\ record s' = record s.
Proof.
  eexists. split; [reflexivity|].
  cbn -[final_recommendations sum_durations coverage_of Z.ltb].
  destruct (0 <? totalFiles (scanStatistics (scanResult s)))%Z; repeat split; reflexivity.
Qed.

(** C7.  [scan] does not finalize after a failure.  When the
    implementation of a phase throws after the phases before it completed,
    the record of that phase is marked failed with the error's message and
    no later phase is dispatched; but [handleError] throws, so the [break]
    after it and the finalize step are not reached: [scan] throws, and the
    scan result is as the failing implementation left it, neither the
    duration nor the coverage nor the recommendations recomputed.  What
    [scan] throws is the error of [emit] when no listener is attached to
    ['error'], and otherwise the error itself when it is a [ScanError], a
    wrapping [SCAN_ERROR] when it is not.  When the loop completes, the
    finalize step sets the scan duration to the sum of the durations of the
    recorded phases, recomputes the coverage from the final counts when
    there is a file, and replaces the recommendations by those generated
    from the final state. *)
Theorem scan_fails_fast_and_finalizes_on_success path opts s0 :
  let entered := snd (scan_entry clock path opts s0) in
  (forall pre ph rest s1 s2 e,
     requested_phases opts = pre ++ ph :: rest ->
     scan_loop' path pre entered = (Ok tt, s1) ->
     dispatch' ph path (at_dispatch clock ph path s1) = (Throw e, s2) ->
     let s3 := after_failure clock ph path s1 e s2 in
     scan' path opts s0 = (Throw (scan_throws e ph s2), s3) /\
     status (record s3) = failed /\
     error (record s3) = Some (exn_message e) /\
     scanResult s3 = scanResult s2 /\
     map ev_data (events s3)
       = map ev_data (events s2)
         ++ [ev_phase_error ph e (record s3); ev_error (scanPhase_throws e s2) (Some ph)]) /\
  (forall s1,
     scan_loop' path (requested_phases opts) entered = (Ok tt, s1) ->
     exists s3,
       scan' path opts s0 = (Ok (scanResult s3), s3) /\
       scanPhases (scanResult s3) = scanPhases (scanResult s1) /\
       sr_modules (scanResult s3) = sr_modules (scanResult s1) /\
       totalFiles (scanStatistics (scanResult s3)) = totalFiles (scanStatistics (scanResult s1)) /\
       scannedFiles (scanStatistics (scanResult s3))
         = scannedFiles (scanStatistics (scanResult s1)) /\
       scanDuration (scanStatistics (scanResult s3)) = sum_durations (scanPhases (scanResult s1)) /\
       ((0 < totalFiles (scanStatistics (scanResult s1)))%Z ->
        coverage (scanStatistics (scanResult s3))
          = coverage_of (scannedFiles (scanStatistics (scanResult s1)))
                        (totalFiles (scanStatistics (scanResult s1)))) /\
       recommendations (scanResult s3) = final_recommendations (scanResult s3)).
Proof.
  intros entered. split.
  - intros pre ph rest s1 s2 e Hreq Hpre Hd s3.
    assert (Hscan : scan' path opts s0 = (Throw (scan_throws e ph s2), s3)).
    { unfold scan. rewrite run_bind.
      assert (He : scan_entry clock path opts s0 = (Ok tt, entered)) by reflexivity.
      rewrite He. rewrite run_bind, Hreq.
      rewrite (scan_loop_app path pre (ph :: rest) entered s1 Hpre).
      rewrite (scan_loop_step_throw path ph rest s1 e s2 Hd). reflexivity. }
    split; [exact Hscan|].
    subst s3. unfold after_failure.
    destruct (phase_failure_run ph (clock (ticks (with_currentPhase (Some ph) s1))) e s2)
      as (s' & E & Hst & Herr & _ & Hr & Hev & _).
    rewrite E. cbn [snd]. rewrite emitEvent_run. cbn [snd].
    cbn [record with_events with_ticks scanResult events].
    repeat split; auto.
    rewrite map_app, Hev, <- app_assoc. reflexivity.
  - intros s1 Hloop.
    destruct (finalizeScan_run s1) as (s2 & Hf & H).
    cbn zeta in H. destruct H as (_ & _ & Hm & Hp & Ht & Hs & _ & Hd & Hc & Hrec & _).
    exists (snd (emitEvent clock (ev_complete (scanResult s2)) s2)).
    split.
    { unfold scan. rewrite run_bind.
      assert (He : scan_entry clock path opts s0 = (Ok tt, entered)) by reflexivity.
      rewrite He. rewrite run_bind, Hloop. rewrite run_bind, Hf. reflexivity. }
    rewrite emitEvent_run. cbn [snd scanResult with_events with_ticks].
    repeat split; auto.
    intros Hpos. rewrite Hc. apply Z.ltb_lt in Hpos. rewrite Hpos. reflexivity.
Qed.

(** The loop either completes, or stops at the first phase whose
    implementation throws. *)
Lemma scan_loop_cases path todo s :
  (exists s1, scan_loop' path todo s = (Ok tt, s1)) \/
  (exists pre ph rest s1 s2 e,
     todo = pre ++ ph :: rest /\
     scan_loop' path pre s = (Ok tt, s1) /\
     dispatch' ph path (at_dispatch clock ph path s1) = (Throw e, s2)).
Proof.
  revert s. induction todo as [|ph todo IH]; intros s.
  - left. eexists. reflexivity.
  - destruct (dispatch' ph path (at_dispatch clock ph path s)) as [[[]|e] s2] eqn:Hd.
    + destruct (scan_loop_step_ok path ph todo s s2 Hd) as (s3 & E & E1).
      destruct (IH s3) as [[s1 H]|(pre & ph' & rest & s1 & s2' & e & -> & Hpre & Hd')].
      * left. exists s1. rewrite E. exact H.
      * right. exists (ph :: pre), ph', rest, s1, s2', e. repeat split; auto.
        change (ph :: pre) with ([ph] ++ pre).
        rewrite (scan_loop_app path [ph] pre s s3 E1). exact Hpre.
    + right. exists [], ph, todo, s, s2, e. repeat split; auto.
Qed.
End Orchestrator.

(** ** Detection on a tree without manifests or sources *)

Lemma lookup_entry_In name es n : lookup_entry name es = Some n -> In (name, n) es.
Proof.
  induction es as [|[m x] es IH]; simpl; [discriminate|].
  destruct (String.eqb m name) eqn:E.
  - apply String.eqb_eq in E. subst m. intros [= ->]. auto.
  - auto.
Qed.

Lemma unrecognised_entry ro es name n :
  unrecognised (DirNode ro es) = true -> In (name, n) es ->
  entry_unrecognised name n = true /\ unrecognised n = true.
Proof.
  simpl. rewrite forallb_forall. intros H Hin. specialize (H _ Hin). simpl in H.
  apply andb_true_iff in H. exact H.
Qed.

Lemma resolve_unrecognised rel : forall t n,
  unrecognised t = true -> resolve t rel = Some n -> unrecognised n = true.
Proof.
  induction rel as [|c rel IH]; intros t n Ht; simpl.
  - intros [= <-]. exact Ht.
  - destruct t as [|ro es]; [discriminate|].
    destruct (lookup_entry c es) as [t'|] eqn:E; [|discriminate].
    apply lookup_entry_In in E. destruct (unrecognised_entry ro es c t' Ht E) as [_ Ht'].
    apply IH, Ht'.
Qed.

Lemma resolve_snoc rel : forall t name n,
  resolve t (rel ++ [name]) = Some n ->
  exists ro es, resolve t rel = Some (DirNode ro es) /\ In (name, n) es.
Proof.
  induction rel as [|c rel IH]; intros t name n; simpl.
  - destruct t as [|ro es]; [discriminate|].
    destruct (lookup_entry name es) as [t'|] eqn:E; [|discriminate].
    intros [= <-]. exists ro, es. split; [reflexivity|]. apply lookup_entry_In, E.
  - destruct t as [|ro es]; [discriminate|].
    destruct (lookup_entry c es) as [t'|]; [|discriminate]. apply IH.
Qed.

Lemma strip_prefix_snoc mount : forall p x rel,
  strip_prefix mount (p ++ [x]) = Some rel ->
  (rel = [] /\ last mount = Some x) \/
  (exists rel', rel = rel' ++ [x] /\ strip_prefix mount p = Some rel').
Proof.
  induction mount as [|m mount IH]; intros p x rel; simpl.
  - intros [= <-]. right. exists p. split; [reflexivity|]. destruct p; reflexivity.
  - destruct p as [|y p]; simpl.
    + destruct (String.eqb m x) eqn:E; [|discriminate].
      apply String.eqb_eq in E. subst m.
      destruct mount; simpl; [|discriminate].
      intros [= <-]. left. auto.
    + destruct (String.eqb m y); [|discriminate]. intros H.
      destruct (IH p x rel H) as [[-> Hl]|(rel' & -> & Hs)].
      * left. split; [reflexivity|]. rewrite last_cons, Hl. reflexivity.
      * right. eauto.
Qed.

Section Tree.
Variable mount : Path.
Variable t : Node.
Hypothesis Ht : unrecognised t = true.
Hypothesis Hm : mount_unrecognised mount = true.

Lemma access_indicator_name p name :
  includes name detector_indicator_names = true ->
  fs_access (tree_fs mount t) (p ++ [name]) = false.
Proof.
  intros Hname. cbn [fs_access tree_fs]. unfold node_at.
  destruct (strip_prefix mount (p ++ [name])) as [rel|] eqn:E; [|reflexivity].
  destruct (strip_prefix_snoc mount p name rel E) as [[-> Hl]|(rel' & -> & _)].
  - unfold mount_unrecognised in Hm. rewrite Hl, Hname in Hm. discriminate.
  - destruct (resolve t (rel' ++ [name])) as [n|] eqn:R; [|reflexivity].
    destruct (resolve_snoc rel' t name n R) as (ro & es & Hd & Hin).
    pose proof (resolve_unrecognised rel' t _ Ht Hd) as Hu.
    destruct (unrecognised_entry ro es name n Hu Hin) as [He _].
    unfold entry_unrecognised in He. rewrite Hname in He. discriminate.
Qed.

Lemma anyIndicator_unrecognised p indicators :
  forallb (fun ind => match last (components ind) with
                      | Some name => includes name detector_indicator_names
                      | None => false
                      end) indicators = true ->
  anyIndicator (tree_fs mount t) p indicators = false.
Proof.
  unfold anyIndicator, fileExists, join_str.
  induction indicators as [|ind l IH]; [reflexivity|].
  cbn [forallb existsb]. intros H. apply andb_true_iff in H as [H1 H2].
  rewrite (IH H2), orb_false_r.
  destruct (last (components ind)) as [name|] eqn:El; [|discriminate].
  destruct (components ind) as [|c cs] eqn:Ec using rev_ind; [discriminate|].
  rewrite last_snoc in El. injection El as ->.
  rewrite app_assoc. apply access_indicator_name, H1.
Qed.

Lemma hasFilesWithExt_unrecognised ext p :
  ext = ".py" \/ ext = ".go" ->
  hasFilesWithExt ext (tree_fs mount t) p = false.
Proof.
  intros Hext. unfold hasFilesWithExt. cbn [fs_readdir tree_fs]. unfold node_at.
  destruct (strip_prefix mount p) as [rel|]; [|reflexivity].
  destruct (resolve t rel) as [[c|[|] es]|] eqn:R; try reflexivity.
  pose proof (resolve_unrecognised rel t _ Ht R) as Hu.
  apply not_true_is_false. intros H. apply existsb_exists in H as (d & Hin & Hd).
  apply in_map_iff in Hin as ([name n] & <- & Hin).
  destruct (unrecognised_entry true es name n Hu Hin) as [He _].
  unfold dirent_of in Hd. cbn [d_isFile d_name fst snd] in Hd.
  apply andb_true_iff in Hd as [Hf Hend]. apply negb_true_iff in Hf.
  unfold entry_unrecognised in He. rewrite Hf in He. cbn [orb] in He.
  apply andb_true_iff in He as [_ He]. apply andb_true_iff in He as [H1 H2].
  destruct Hext as [-> | ->]; rewrite Hend in *; discriminate.
Qed.

Lemma detectProjectType_unrecognised p :
  detectProjectType (tree_fs mount t) p new_DetectorManager = UNKNOWN.
Proof.
  unfold detectProjectType. rewrite default_registry.
  assert (E : detectionResults (tree_fs mount t) p
                [(JAVASCRIPT, JavaScriptProjectDetector); (TYPESCRIPT, JavaScriptProjectDetector);
                 (PYTHON, PythonProjectDetector); (GO, GoProjectDetector)] = []).
  { cbn [detectionResults detect JavaScriptProjectDetector PythonProjectDetector GoProjectDetector].
    unfold fileExists.
    change (join_str p "package.json") with (p ++ ["package.json"]).
    rewrite (access_indicator_name p "package.json") by reflexivity.
    rewrite (anyIndicator_unrecognised p pythonIndicators) by reflexivity.
    rewrite (anyIndicator_unrecognised p goIndicators) by reflexivity.
    rewrite !hasFilesWithExt_unrecognised by auto. reflexivity. }
  rewrite E. reflexivity.
Qed.

Lemma isModuleRoot_unrecognised p :
  isModuleRoot (tree_fs mount t) p new_DetectorManager = false.
Proof. unfold isModuleRoot. rewrite detectProjectType_unrecognised. reflexivity. Qed.
End Tree.

(** ** The quick scanner: enumeration and module analysis *)

Lemma limits_not_reached_kernel s s' :
  kernel s' = kernel s -> limits_not_reached s -> limits_not_reached s'.
Proof. unfold kernel, limits_not_reached. intros [= -> -> _ _ _]. auto. Qed.

Lemma shouldStopScan_ok s : limits_not_reached s -> shouldStopScan s = (Ok false, s).
Proof.
  unfold limits_not_reached, shouldStopScan. rewrite run_bind. cbn [get].
  destruct (performanceLimits (config s)) as [l|]; [|reflexivity].
  intros [H1 H2].
  apply Z.leb_gt in H1. apply Z.leb_gt in H2. rewrite H1, H2. reflexivity.
Qed.

Lemma shouldStopScan_state s : snd (shouldStopScan s) = s.
Proof.
  unfold shouldStopScan. rewrite run_bind. cbn [get].
  destruct (performanceLimits (config s)) as [l|]; [|reflexivity].
  destruct (_ <=? _)%Z; [reflexivity|]. destruct (_ <=? _)%Z; reflexivity.
Qed.

Lemma shouldStopScan_never_true s s' : shouldStopScan s <> (Ok true, s').
Proof.
  unfold shouldStopScan. rewrite run_bind. cbn [get].
  destruct (performanceLimits (config s)) as [l|]; [|discriminate].
  destruct (_ <=? _)%Z; [discriminate|]. destruct (_ <=? _)%Z; discriminate.
Qed.

Section Quick.
Variable mm : string -> string -> option bool.
Variable fs : FileSystem.
Variable clock : nat -> Z.
Variable nested : bool.

Lemma reportProgress_run c t m s :
  exists s', reportProgress clock c t m s = (Ok tt, s') /\ kernel s' = kernel s /\
             fileFilter s' = fileFilter s /\ record s' = record s /\
             allFiles s' = allFiles s.
Proof.
  unfold reportProgress. rewrite run_bind. cbn [get].
  destruct (currentPhase s); eexists; (split; [reflexivity|]); repeat split; reflexivity.
Qed.

Lemma this_shouldStopScan_kernel this s :
  kernel (snd (this_shouldStopScan this s)) = kernel s.
Proof.
  destruct this; cbn [this_shouldStopScan]; [rewrite shouldStopScan_state|]; reflexivity.
Qed.

Lemma push_file_kernel this p s : kernel (snd (push_file clock this p s)) = kernel s.
Proof.
  unfold push_file. rewrite run_bind. cbn [modify]. rewrite run_bind. cbn [get].
  destruct (_ =? 0)%Z; [|reflexivity].
  rewrite run_bind. cbn [modify_record modify].
  destruct this; cbn [this_reportProgress]; [|reflexivity].
  match goal with |- context [reportProgress clock ?c ?t ?m ?s0] =>
    destruct (reportProgress_run c t m s0) as (s' & E & K & _) end.
  rewrite E. cbn [snd]. rewrite K. reflexivity.
Qed.

Lemma traverse_entries_kernel recurse this root cur entries :
  (forall p s, kernel (snd (recurse p s)) = kernel s) ->
  forall s, kernel (snd (traverse_entries clock recurse this root cur entries s)) = kernel s.
Proof.
  intros Hr. induction entries as [|entry rest IHe]; intros s; [reflexivity|].
  cbn [traverse_entries]. rewrite run_bind.
  pose proof (this_shouldStopScan_kernel this s) as K2.
  destruct (this_shouldStopScan this s) as [[[|]|e] s2]; cbn [snd] in K2; try exact K2.
  destruct (is_hidden (d_name entry) && negb (bool_decide (cur = root))).
  { rewrite IHe. exact K2. }
  cbv zeta. destruct (d_isDirectory entry); rewrite run_bind.
  - pose proof (Hr (join cur (d_name entry)) s2) as K3.
    destruct (recurse (join cur (d_name entry)) s2) as [[[]|e] s3]; cbn [snd] in K3.
    + rewrite IHe. congruence.
    + cbn [snd]. congruence.
  - pose proof (push_file_kernel this (join cur (d_name entry)) s2) as K3.
    destruct (push_file clock this (join cur (d_name entry)) s2) as [[[]|e] s3]; cbn [snd] in K3.
    + rewrite IHe. congruence.
    + cbn [snd]. congruence.
Qed.

Lemma traverseDirectory_kernel budget : forall this root cur s,
  kernel (snd (traverseDirectory fs clock nested this root budget cur s)) = kernel s.
Proof.
  induction budget as [|b IH]; intros this root cur s; [reflexivity|].
  cbn [traverseDirectory]. rewrite run_bind.
  pose proof (this_shouldStopScan_kernel this s) as K0.
  destruct (this_shouldStopScan this s) as [[[|]|e] s0]; cbn [snd] in K0; try exact K0.
  unfold try_catch. rewrite run_bind. unfold readdir.
  destruct (fs_readdir fs cur) as [entries|]; [|exact K0].
  cbn [mret M_ret].
  pose proof (traverse_entries_kernel (traverseDirectory fs clock nested nested root b)
                this root cur entries (IH nested root) s0) as K1.
  destruct (traverse_entries clock _ this root cur entries s0) as [[[]|e] s1];
    cbn [snd mret M_ret] in *; congruence.
Qed.

(** With the scanner as receiver and no limit reached, the traversal
    returns normally. *)
Lemma traverseDirectory_returns budget root cur s :
  limits_not_reached s ->
  exists s', traverseDirectory fs clock nested true root budget cur s = (Ok tt, s').
Proof.
  intros Hl. destruct budget as [|b]; [eexists; reflexivity|].
  cbn [traverseDirectory]. rewrite run_bind. cbn [this_shouldStopScan].
  rewrite (shouldStopScan_ok s Hl).
  unfold try_catch.
  destruct ((entries ← readdir fs cur;
             traverse_entries clock (traverseDirectory fs clock nested nested root b) true
                              root cur entries) s) as [[[]|e] s1]; eexists; reflexivity.
Qed.

Lemma quickTraverseDirectory_run root s :
  limits_not_reached s ->
  exists files s', quickTraverseDirectory fs clock nested root s = (Ok files, s') /\
                   kernel s' = kernel s.
Proof.
  intros Hl. unfold quickTraverseDirectory.
  rewrite run_bind. cbn [modify]. rewrite run_bind. cbn [get].
  set (s0 := with_locals [] 0 s).
  assert (K0 : kernel s0 = kernel s) by reflexivity.
  pose proof (limits_not_reached_kernel s s0 K0 Hl) as Hl0.
  destruct (traverseDirectory_returns (Z.to_nat (configured_maxDepth (config s0) + 1)) root root s0 Hl0)
    as [s1 E].
  pose proof (traverseDirectory_kernel (Z.to_nat (configured_maxDepth (config s0) + 1)) true root root s0) as K1.
  rewrite run_bind, E. rewrite E in K1. cbn [snd] in K1.
  eexists _, _. split; [reflexivity|]. congruence.
Qed.

Lemma quickAnalyzeModules_all_unknown paths : forall infos s,
  (forall p, detectProjectType fs p (detectorManager s) = UNKNOWN) ->
  quickAnalyzeModules_loop fs paths infos s = (Ok infos, s).
Proof.
  induction paths as [|p paths IH]; intros infos s Hu; [reflexivity|].
  cbn [quickAnalyzeModules_loop]. rewrite run_bind.
  unfold try_catch at 1. rewrite run_bind.
  pose proof (shouldStopScan_state s) as Hs.
  pose proof (shouldStopScan_never_true s) as Hn.
  destruct (shouldStopScan s) as [[[|]|e] s0]; cbn [snd] in Hs; subst s0.
  - exfalso. eapply Hn. reflexivity.
  - rewrite run_bind. cbn [get]. cbv zeta. rewrite Hu.
    cbn [bool_decide decide_rel mret M_ret]. apply IH, Hu.
  - cbn [mret M_ret]. apply IH, Hu.
Qed.

Lemma quickAnalyzeModule_state p t s : snd (quickAnalyzeModule fs p t s) = s.
Proof.
  unfold quickAnalyzeModule. rewrite run_bind. cbn [get].
  destruct (getDetector t (detectorManager s)) as [d|]; [|reflexivity].
  destruct (detect d fs p) as [[|]|e]; reflexivity.
Qed.

Lemma quickAnalyzeModule_info p t s info s' :
  quickAnalyzeModule fs p t s = (Ok info, s') ->
  mi_path info = p /\ mi_type info = t /\ mi_name info = extractModuleName p /\
  docs info = [] /\ dependencies info = [] /\ entryPoints info = [] /\
  exists d, getDetector t (detectorManager s) = Some d /\ detect d fs p = Ok true.
Proof.
  unfold quickAnalyzeModule. rewrite run_bind. cbn [get].
  destruct (getDetector t (detectorManager s)) as [d|]; [|discriminate].
  destruct (detect d fs p) as [[|]|e] eqn:Ed; try discriminate.
  intros [= <- <-]. cbn. repeat split; eauto.
Qed.

Lemma quickAnalyzeModules_loop_run paths : forall infos s,
  exists new, quickAnalyzeModules_loop fs paths infos s = (Ok (infos ++ new), s) /\
              Forall (quick_info_of fs paths s) new /\ length new <= length paths.
Proof.
  induction paths as [|p paths IH]; intros infos s.
  - exists []. rewrite app_nil_r. split; [reflexivity|]. split; [constructor|simpl; lia].
  - cbn [quickAnalyzeModules_loop]. rewrite run_bind.
    unfold try_catch at 1. rewrite run_bind.
    pose proof (shouldStopScan_state s) as Hs.
    pose proof (shouldStopScan_never_true s) as Hn.
    assert (Hweak : forall new, Forall (quick_info_of fs paths s) new ->
                                Forall (quick_info_of fs (p :: paths) s) new).
    { intros new. apply List.Forall_impl. intros i (H1 & H2). split; [right; exact H1|exact H2]. }
    destruct (shouldStopScan s) as [[[|]|e] s0]; cbn [snd] in Hs; subst s0.
    + exfalso. eapply Hn. reflexivity.
    + rewrite run_bind. cbn [get]. cbv zeta.
      destruct (bool_decide (detectProjectType fs p (detectorManager s) = UNKNOWN)) eqn:Eu.
      * cbn [mret M_ret]. destruct (IH infos s) as (new & E & F & L).
        exists new. rewrite E. split; [reflexivity|]. split; [auto|simpl; lia].
      * apply bool_decide_eq_false in Eu. rewrite run_bind.
        pose proof (quickAnalyzeModule_state p (detectProjectType fs p (detectorManager s)) s) as Hst.
        pose proof (quickAnalyzeModule_info p (detectProjectType fs p (detectorManager s)) s) as Hinfo.
        destruct (quickAnalyzeModule fs p (detectProjectType fs p (detectorManager s)) s)
          as [[info|e] s1]; cbn [snd] in Hst; subst s1.
        -- cbn [mret M_ret].
           destruct (Hinfo info s eq_refl) as (H1 & H2 & H3 & H4 & H5 & H6 & _).
           destruct (IH (infos ++ [info]) s) as (new & E & F & L).
           exists (info :: new). rewrite E, <- app_assoc. split; [reflexivity|].
           split; [|simpl; lia]. constructor; [|auto].
           unfold quick_info_of. rewrite H1. repeat split; auto.
           ++ left. reflexivity.
           ++ congruence.
        -- cbn [mret M_ret]. destruct (IH infos s) as (new & E & F & L).
           exists new. rewrite E. split; [reflexivity|]. split; [auto|simpl; lia].
    + cbn [mret M_ret]. destruct (IH infos s) as (new & E & F & L).
      exists new. rewrite E. split; [reflexivity|]. split; [auto|simpl; lia].
Qed.
End Quick.

(** ** The quick scanner: the phase as a whole *)

Lemma kernel_fields s s' :
  kernel s' = kernel s ->
  config s' = config s /\ scanResult s' = scanResult s /\
  currentPhase s' = currentPhase s /\ detectorManager s' = detectorManager s.
Proof. unfold kernel. intros [= -> -> -> -> _]. auto. Qed.


Lemma quick_recommendations_independent (r : ProjectScanResult) :
  let stats := scanStatistics r in
  (In no_modules_recommendation (quick_recommendations r) <-> modulesFound stats = 0%Z) /\
  (In (coverage_recommendation (coverage stats)) (quick_recommendations r)
     <-> coverage_below 30 (coverage stats) = true) /\
  (In unknown_type_recommendation (quick_recommendations r) <-> projectType r = UNKNOWN) /\
  (In (module_scan_recommendation (modulesFound stats)) (quick_recommendations r)
     <-> (0 < modulesFound stats)%Z).
Proof.
  intros stats. unfold quick_recommendations. fold stats.
  destruct (modulesFound stats =? 0)%Z eqn:E1;
  destruct (coverage_below 30 (coverage stats)) eqn:E2;
  destruct (bool_decide (projectType r = UNKNOWN)) eqn:E3;
  destruct (0 <? modulesFound stats)%Z eqn:E4;
  first [apply Z.eqb_eq in E1 | apply Z.eqb_neq in E1];
  first [apply bool_decide_eq_true in E3 | apply bool_decide_eq_false in E3];
  first [apply Z.ltb_lt in E4 | apply Z.ltb_ge in E4];
  cbn [app In];
  unfold no_modules_recommendation, coverage_recommendation, unknown_type_recommendation,
         module_scan_recommendation;
  (split; [|split; [|split]]); (split; intros H);
  repeat match goal with
         | H : _ \/ _ |- _ => destruct H as [H|H]
         | H : False |- _ => destruct H
         | H : mkRecommendation _ _ _ _ _ _ = mkRecommendation _ _ _ _ _ _ |- _ => discriminate H
         end;
  try lia; try congruence; try discriminate; auto 6.
Qed.

Section QuickPhase.
Variable mm : string -> string -> option bool.
Variable clock : nat -> Z.
Variable nested : bool.

Lemma fileFilter_filterFiles_run fs files path s :
  exists kept f, fileFilter_filterFiles mm fs files path s = (Ok kept, with_fileFilter f s) /\
    (kept, f) = filterFiles mm fs files path (fileFilter s).
Proof.
  unfold fileFilter_filterFiles.
  destruct (filterFiles mm fs files path (fileFilter s)) as [kept f].
  eexists _, _. split; reflexivity.
Qed.

Lemma performQuickScan_completes fs path s :
  limits_not_reached s ->
  exists s' (files kept : list Path) (infos : list ModuleInfo),
    performQuickScan mm fs clock nested path s = (Ok tt, s') /\
    sublist kept files /\
    Forall (quick_info_of fs (quickIdentifyModules fs kept path (detectorManager s)) s) infos /\
    scanResult s'
      = quick_result (scanResult s) (detectProjectType fs path (detectorManager s))
                     files kept infos /\
    detectorManager s' = detectorManager s /\
    config s' = config s /\
    filesProcessed (record s') = Z.of_nat (length files).
Proof.
  intros Hl. unfold performQuickScan.
  rewrite run_bind. cbn [now].
  set (sa := with_ticks (S (ticks s)) s).
  assert (Ka : kernel sa = kernel s) by reflexivity.
  rewrite run_bind.
  destruct (reportProgress_run clock 0 100 "开始快速扫描..." sa) as (sb & Eb & Kb & _).
  rewrite Eb. rewrite run_bind. unfold try_catch at 1.
  rewrite run_bind. unfold fileFilter_loadGitignore at 1. cbn [modify].
  set (s1 := with_fileFilter _ sb).
  assert (K1 : kernel s1 = kernel s) by (transitivity (kernel sb); [reflexivity|congruence]).
  rewrite run_bind.
  destruct (quickTraverseDirectory_run fs clock nested path s1
              (limits_not_reached_kernel s s1 K1 Hl)) as (files & s2 & E2 & K2).
  rewrite E2. rewrite run_bind.
  match goal with |- context [reportProgress clock ?c ?t ?m s2] =>
    destruct (reportProgress_run clock c t m s2) as (s3 & E3 & K3 & _) end.
  rewrite E3. rewrite run_bind.
  destruct (fileFilter_filterFiles_run fs files path s3) as (kept & f & E4 & Hkept).
  assert (Hsub : sublist kept files).
  { pose proof (filterFiles_sublist mm fs files path (fileFilter s3)) as H.
    rewrite <- Hkept in H. exact H. }
  rewrite E4. set (s4 := with_fileFilter f s3).
  assert (K4 : kernel s4 = kernel s) by (transitivity (kernel s3); [reflexivity|congruence]).
  rewrite run_bind.
  match goal with |- context [reportProgress clock ?c ?t ?m s4] =>
    destruct (reportProgress_run clock c t m s4) as (s5 & E5 & K5 & _) end.
  rewrite E5. rewrite run_bind. cbn [get]. rewrite run_bind. cbn [modify_result modify].
  assert (K5' : kernel s5 = kernel s) by congruence.
  destruct (kernel_fields s s5 K5') as (Hc5 & Hr5 & _ & Hd5).
  rewrite Hd5.
  set (s6 := with_scanResult (with_projectType _ (scanResult s5)) s5).
  cbv zeta. rewrite run_bind.
  match goal with |- context [reportProgress clock ?c ?t ?m s6] =>
    destruct (reportProgress_run clock c t m s6) as (s7 & E7 & K7 & _) end.
  rewrite E7. rewrite run_bind.
  destruct (kernel_fields s6 s7 K7) as (Hc7 & Hr7 & _ & Hd7).
  assert (Hd7' : detectorManager s7 = detectorManager s).
  { rewrite Hd7. unfold s6. cbn [detectorManager with_scanResult]. exact Hd5. }
  unfold quickAnalyzeModules.
  destruct (quickAnalyzeModules_loop_run fs
              (quickIdentifyModules fs kept path (detectorManager s)) [] s7)
    as (infos & E8 & F8 & _).
  rewrite E8. cbn [app].
  rewrite run_bind. cbn [modify_result modify].
  rewrite run_bind. unfold updateStatistics at 1. cbn [modify_statistics modify_result modify].
  set (s10 := with_scanResult _ (with_scanResult _ s7)).
  rewrite run_bind.
  match goal with |- context [reportProgress clock ?c ?t ?m s10] =>
    destruct (reportProgress_run clock c t m s10) as (s11 & E11 & K11 & _) end.
  rewrite E11. rewrite run_bind. unfold generateQuickRecommendations at 1.
  cbn [modify_result modify].
  set (s12 := with_scanResult _ s11).
  match goal with |- context [reportProgress clock ?c ?t ?m s12] =>
    destruct (reportProgress_run clock c t m s12) as (s13 & E13 & K13 & _) end.
  rewrite E13. rewrite run_bind. cbn [get modify_record modify].
  destruct (kernel_fields s12 s13 K13) as (Hc13 & Hr13 & _ & Hd13).
  destruct (kernel_fields s10 s11 K11) as (Hc11 & Hr11 & _ & Hd11).
  assert (Hres : scanResult s13
    = quick_result (scanResult s) (detectProjectType fs path (detectorManager s))
                   files kept infos).
  { rewrite Hr13. unfold s12. cbn [scanResult with_scanResult].
    rewrite Hr11. unfold s10. cbn [scanResult with_scanResult]. rewrite Hr7.
    unfold s6. cbn [scanResult with_scanResult]. rewrite Hr5.
    unfold quick_result, with_modules, with_projectType, with_statistics.
    cbn [projectType sr_modules scanStatistics recommendations rootPath scanPhases totalFiles
         scannedFiles].
    destruct (0 <? Z.of_nat (length files))%Z; reflexivity. }
  eexists _, files, kept, infos. split; [reflexivity|].
  cbn [scanResult with_record detectorManager config record filesProcessed set_filesProcessed].
  split; [exact Hsub|]. split.
  { eapply List.Forall_impl; [|exact F8]. intros i (H1 & H2 & H3).
    split; [exact H1|]. rewrite <- Hd7'. split; assumption. }
  split; [exact Hres|].
  split. { rewrite Hd13. unfold s12. cbn [detectorManager with_scanResult].
           rewrite Hd11. unfold s10. cbn [detectorManager with_scanResult]. exact Hd7'. }
  split. { rewrite Hc13. unfold s12. cbn [config with_scanResult].
           rewrite Hc11. unfold s10. cbn [config with_scanResult].
           rewrite Hc7. unfold s6. cbn [config with_scanResult]. exact Hc5. }
  rewrite Hres. unfold quick_result. cbn. reflexivity.
Qed.

End QuickPhase.

(** ** The claims at concrete inputs *)

Lemma ignore_rules_dominate_witness :
  fst (shouldInclude literal_minimatch gitignore_repo ["repo"; ".gitignore"] ["repo"]
         (after_calls literal_minimatch None
            [CallAddFilters [mkFilter "everything" (RegExp (fun _ => true)) Include 99]]))
  = false.
Proof.
  apply ignore_rules_dominate.
  exists (mkRule ".gitignore" "Git忽略文件" 10). split.
  - vm_compute. right. left. reflexivity.
  - vm_compute. reflexivity.
Defined.

Lemma default_inclusion_fails_without_stat :
  let s := new_FileFilterSystem None in
  let rel := relative ["repo"] ["repo"; "Makefile"] in
  shouldIgnore literal_minimatch s rel = false /\
  existsb (fun f => matchPattern literal_minimatch rel (f_pattern f)) (excludeFilters s) = false /\
  existsb (fun f => matchPattern literal_minimatch rel (f_pattern f)) (includeFilters s) = false /\
  fs_stat empty_repo ["repo"; "Makefile"] = None /\
  fst (shouldInclude literal_minimatch empty_repo ["repo"; "Makefile"] ["repo"] s) = false.
Proof. vm_compute. repeat split; reflexivity. Qed.

Lemma default_inclusion_witness :
  fst (shouldInclude literal_minimatch plain_repo ["repo"; "LICENSE"] ["repo"]
         (new_FileFilterSystem None)) = true.
Proof.
  apply default_inclusion.
  - vm_compute. discriminate.
  - vm_compute. reflexivity.
  - intros rule Hin. vm_compute in Hin. vm_compute.
    repeat (destruct Hin as [<-|Hin]; [reflexivity|]). destruct Hin.
  - intros f Hin. vm_compute in Hin.
    repeat (destruct Hin as [<-|Hin]; [reflexivity|]). destruct Hin.
  - intros f Hin. vm_compute in Hin.
    repeat (destruct Hin as [<-|Hin]; [reflexivity|]). destruct Hin.
Defined.

Lemma detectProjectType_first_registered_witness :
  detectProjectType js_fs ["app"] new_DetectorManager
    = detectProjectType js_fs ["app"] new_DetectorManager /\
  detectProjectType js_fs ["app"]
    (mkManager ([] ++ (JAVASCRIPT, JavaScriptProjectDetector)
                   :: [(TYPESCRIPT, JavaScriptProjectDetector); (PYTHON, PythonProjectDetector);
                       (GO, GoProjectDetector)]))
  = JAVASCRIPT.
Proof.
  split.
  - apply (proj1 detectProjectType_deterministic_first_registered_wins).
    split; intros p; reflexivity.
  - apply (proj2 detectProjectType_deterministic_first_registered_wins).
    + vm_compute. reflexivity.
    + constructor.
    + repeat constructor; intros _; vm_compute; discriminate.
Defined.

(** C9, amended.  On a tree without manifest-named entries and without
    [.py] or [.go] files, a quick phase that starts below the limits
    completes with project type [UNKNOWN], no module found, and
    recommendations that include the high-priority scan-deeper entry and the
    medium-priority add-config entry; and each of the four quick
    recommendations is present exactly when its own condition holds. *)
Theorem quick_phase_of_unrecognised_tree
    (mm : string -> string -> option bool) (clock : nat -> Z) (nested : bool)
    (mount : Path) (t : Node) (path : Path) (s : Scanner) :
  unrecognised t = true ->
  mount_unrecognised mount = true ->
  detectorManager s = new_DetectorManager ->
  limits_not_reached s ->
  (exists s',
     performQuickScan mm (tree_fs mount t) clock nested path s = (Ok tt, s') /\
     projectType (scanResult s') = UNKNOWN /\
     modulesFound (scanStatistics (scanResult s')) = 0%Z /\
     recommendations (scanResult s') = quick_recommendations (scanResult s') /\
     In no_modules_recommendation (recommendations (scanResult s')) /\
     In unknown_type_recommendation (recommendations (scanResult s'))) /\
  (forall r : ProjectScanResult,
     let stats := scanStatistics r in
     (In no_modules_recommendation (quick_recommendations r) <-> modulesFound stats = 0%Z) /\
     (In (coverage_recommendation (coverage stats)) (quick_recommendations r)
        <-> coverage_below 30 (coverage stats) = true) /\
     (In unknown_type_recommendation (quick_recommendations r) <-> projectType r = UNKNOWN) /\
     (In (module_scan_recommendation (modulesFound stats)) (quick_recommendations r)
        <-> (0 < modulesFound stats)%Z)).
Proof.
  intros Ht Hm Hd Hl. split; [|apply quick_recommendations_independent].
  destruct (performQuickScan_completes mm clock nested (tree_fs mount t) path s Hl)
    as (s' & files & kept & infos & E & _ & Hinfos & Hres & _).
  assert (Hnil : infos = []).
  { destruct infos as [|i infos]; [reflexivity|]. exfalso.
    inversion Hinfos as [|? ? (_ & Hty & Hne & _) _]; subst.
    rewrite Hd, (detectProjectType_unrecognised mount t Ht Hm) in Hty. contradiction. }
  subst infos. rewrite Hd, (detectProjectType_unrecognised mount t Ht Hm) in Hres.
  exists s'. split; [exact E|].
  assert (Hp : projectType (scanResult s') = UNKNOWN) by (rewrite Hres; reflexivity).
  assert (Hmf : modulesFound (scanStatistics (scanResult s')) = 0%Z) by (rewrite Hres; reflexivity).
  assert (Hrecs : recommendations (scanResult s') = quick_recommendations (scanResult s')).
  { rewrite Hres. reflexivity. }
  repeat split; auto.
  - rewrite Hrecs. apply (quick_recommendations_independent (scanResult s')), Hmf.
  - rewrite Hrecs. apply (quick_recommendations_independent (scanResult s')), Hp.
Qed.

Lemma quick_phase_of_unrecognised_tree_witness :
  exists s',
    performQuickScan literal_minimatch (tree_fs ["repo"] plain_tree) example_clock false
                     ["repo"] (new_QuickScanner None) = (Ok tt, s') /\
    projectType (scanResult s') = UNKNOWN /\
    modulesFound (scanStatistics (scanResult s')) = 0%Z /\
    recommendations (scanResult s') = quick_recommendations (scanResult s') /\
    In no_modules_recommendation (recommendations (scanResult s')) /\
    In unknown_type_recommendation (recommendations (scanResult s')).
Proof.
  apply (quick_phase_of_unrecognised_tree literal_minimatch example_clock false
           ["repo"] plain_tree ["repo"] (new_QuickScanner None)).
  - reflexivity.
  - reflexivity.
  - reflexivity.
  - vm_compute. split; reflexivity.
Defined.

Lemma scan_result_drops_quick_recommendations :
  unrecognised plain_tree = true /\
  exists r s',
    QuickScanner_scan literal_minimatch plain_repo example_clock false ["repo"]
                      (mkOptions (Some [QUICK])) (new_QuickScanner None) = (Ok r, s') /\
    projectType r = UNKNOWN /\
    modulesFound (scanStatistics r) = 0%Z /\
    recommendations r = [].
Proof. split; [reflexivity|]. eexists _, _. vm_compute. repeat split; reflexivity. Qed.

(** C8, at the failing input.  With the file limit at ten, the quick
    phase over a directory of eleven files completes: the record is marked
    completed, carries no error, and eleven files are counted. *)
Theorem quick_phase_completes_over_file_limit :
  option_map maxFiles (performanceLimits ten_files_config) = Some 10%Z /\
  exists rec s',
    QuickScanner_scanPhase literal_minimatch eleven_files_repo example_clock false QUICK ["repo"]
                           (new_QuickScanner (Some ten_files_config)) = (Ok rec, s') /\
    status rec = completed /\
    error rec = None /\
    filesProcessed rec = 11%Z /\
    length (allFiles s') = 11 /\
    totalFiles (scanStatistics (scanResult s')) = 11%Z.
Proof. split; [reflexivity|]. eexists _, _. vm_compute. repeat split; reflexivity. Qed.

(** C3, at the failing input.  A scanner that has scanned a repository of
    one file, then scans an empty one: the statistics report no file and a
    coverage of 100. *)
Theorem coverage_is_kept_when_no_file_is_enumerated :
  let quickOnly := mkOptions (Some [QUICK]) in
  let s1 := snd (QuickScanner_scan literal_minimatch two_repos example_clock false ["a"]
                                   quickOnly (new_QuickScanner None)) in
  coverage (scanStatistics (scanResult s1)) = 100%Q /\
  exists r s2,
    QuickScanner_scan literal_minimatch two_repos example_clock false ["b"] quickOnly s1
      = (Ok r, s2) /\
    totalFiles (scanStatistics r) = 0%Z /\
    scannedFiles (scanStatistics r) = 0%Z /\
    coverage (scanStatistics r) = 100%Q.
Proof. split; [reflexivity|]. eexists _, _. vm_compute. repeat split; reflexivity. Qed.

(** C10 at [/^LICENSE/], an exclude filter without flags: [LICENSE] is
    excluded before and after the round trip. *)
Lemma export_import_preserves_decisions_witness :
  let s := RegExpFilter.after_adds None
             [RegExpFilter.AddFilters [excluding LICENSE_plain];
              RegExpFilter.AddIgnoreRules [mkRule "NOTES" "notes" 5]] in
  let s' := RegExpFilter.importConfig (RegExpFilter.exportConfig s) s in
  RegExpFilter.stateless s = true /\
  fst (fst (RegExpFilter.shouldInclude literal_minimatch plain_repo ["repo"; "LICENSE"] ["repo"]
              s' (<[2%nat := 7%nat]> ∅)))
  = false /\
  fst (fst (RegExpFilter.shouldInclude literal_minimatch plain_repo ["repo"; "LICENSE"] ["repo"]
              s ∅))
  = false.
Proof.
  split; [vm_compute; reflexivity|].
  pose proof (export_import_preserves_decisions literal_minimatch None
                [RegExpFilter.AddFilters [excluding LICENSE_plain];
                 RegExpFilter.AddIgnoreRules [mkRule "NOTES" "notes" 5]]
                plain_repo ["repo"; "LICENSE"] ["repo"] ∅ (<[2%nat := 7%nat]> ∅)
                ltac:(vm_compute; reflexivity)) as [H _].
  split; [rewrite H|]; vm_compute; reflexivity.
Defined.

(** C10, as stated, fails.  With [/^LICENSE/g] as an exclude filter, the
    system excludes [LICENSE] and leaves [lastIndex] at 7.  Asked again it
    repeats the cached answer; after [importConfig(exportConfig())], which
    empties the cache, the test starts at index 7, fails, and the file is
    included.  So is it by the round trip of the system as it was before
    the first question. *)
Lemma export_import_changes_a_decision_under_the_g_flag :
  let s := RegExpFilter.after_adds None [RegExpFilter.AddFilters [excluding LICENSE_g]] in
  let ask s heap :=
    RegExpFilter.shouldInclude literal_minimatch plain_repo ["repo"; "LICENSE"] ["repo"] s heap in
  let round_trip s := RegExpFilter.importConfig (RegExpFilter.exportConfig s) s in
  let '(first, s1, heap1) := ask s ∅ in
  first = false /\
  RegExpFilter.lastIndex heap1 LICENSE_g = 7%nat /\
  fst (fst (ask s1 heap1)) = false /\
  fst (fst (ask (round_trip s1) heap1)) = true /\
  fst (fst (ask (round_trip s) heap1)) = true.
Proof. vm_compute. repeat split; reflexivity. Qed.

(** C7, at the failing input.  A scan with the default phases of a
    repository of two plain files: the quick phase completes, the module
    phase throws, and [scan] throws with it, to a caller that listens to
    ['error'] events and to one that does not.  The result left behind holds
    the one completed record of 50 milliseconds and a scan duration of 0,
    and its recommendations are the two of the quick phase, where those of
    the finalize step would be none. *)
Lemma scan_skips_finalize_after_failure :
  let run := QuickScanner_scan literal_minimatch plain_repo example_clock false ["repo"]
                               (mkOptions None) (new_QuickScanner None) in
  let heard := QuickScanner_scan literal_minimatch plain_repo example_clock false ["repo"]
                                 (mkOptions None) (on_error (new_QuickScanner None)) in
  fst run = Throw ERR_UNHANDLED_ERROR /\
  fst heard = Throw (ScanErr "QuickScanner 不支持模块扫描阶段" "UNSUPPORTED_PHASE"
                             (Some ["repo"]) (Some MODULE)) /\
  scanResult (snd heard) = scanResult (snd run) /\
  map status (scanPhases (scanResult (snd run))) = [completed] /\
  sum_durations (scanPhases (scanResult (snd run))) = 50%Z /\
  scanDuration (scanStatistics (scanResult (snd run))) = 0%Z /\
  final_recommendations (scanResult (snd run)) = [] /\
  map rec_priority (recommendations (scanResult (snd run))) = [high; medium].
Proof. vm_compute. repeat split; reflexivity. Qed.

Lemma scan_fails_fast_witness :
  let pq := performQuickScan literal_minimatch plain_repo example_clock false in
  let s0 := new_QuickScanner None in
  fst (scan example_clock pq performModuleScan performDeepScan ["repo"] (mkOptions None) s0)
    = Throw ERR_UNHANDLED_ERROR /\
  exists s3,
    scan example_clock pq performModuleScan performDeepScan ["repo"]
         (mkOptions (Some [QUICK])) s0 = (Ok (scanResult s3), s3).
Proof.
  intros pq s0. split.
  - set (entered := snd (scan_entry example_clock ["repo"] (mkOptions None) s0)).
    set (s1 := snd (scan_loop example_clock pq performModuleScan performDeepScan
                              ["repo"] [QUICK] entered)).
    destruct (proj1 (scan_fails_fast_and_finalizes_on_success example_clock pq
                       performModuleScan performDeepScan ["repo"] (mkOptions None) s0)
                [QUICK] MODULE [DEEP] s1 (at_dispatch example_clock MODULE ["repo"] s1)
                (ScanErr "QuickScanner 不支持模块扫描阶段" "UNSUPPORTED_PHASE"
                         (Some ["repo"]) (Some MODULE)))
      as (H & _).
    + reflexivity.
    + vm_compute. reflexivity.
    + vm_compute. reflexivity.
    + rewrite H. reflexivity.
  - set (entered := snd (scan_entry example_clock ["repo"] (mkOptions (Some [QUICK])) s0)).
    destruct (proj2 (scan_fails_fast_and_finalizes_on_success example_clock pq
                       performModuleScan performDeepScan ["repo"]
                       (mkOptions (Some [QUICK])) s0)
                (snd (scan_loop example_clock pq performModuleScan performDeepScan
                                ["repo"] [QUICK] entered)))
      as (s3 & H & _).
    + vm_compute. reflexivity.
    + exists s3. exact H.
Defined.

(** ** The filter engine: order, cache and lists *)

Section FilterLists.
Variable mm : string -> string -> option bool.

(** X1.  [filterFiles] returns a subsequence of the paths it is given: the
    kept paths stand in their original order, none is added or repeated,
    and the result is no longer than the input. *)
Theorem filterFiles_selects_in_order fs filePaths rootPath s :
  sublist (fst (filterFiles mm fs filePaths rootPath s)) filePaths /\
  length (fst (filterFiles mm fs filePaths rootPath s)) <= length filePaths.
Proof.
  pose proof (filterFiles_sublist mm fs filePaths rootPath s) as H.
  split; [exact H|]. apply sublist_length, H.
Qed.

Lemma shouldInclude_caches fs p root s :
  ignoreCache (snd (shouldInclude mm fs p root s)) !! relative root p
  = Some (fst (shouldInclude mm fs p root s)).
Proof.
  unfold shouldInclude.
  destruct (ignoreCache s !! relative root p) eqn:Hc; [exact Hc|].
  destruct (fs_stat fs p); [destruct (shouldIgnore mm s (relative root p))|];
    cbn [fst snd cache_set ignoreCache]; apply lookup_insert_eq.
Qed.

Lemma addFilters_cache filters s : ignoreCache (addFilters filters s) = ignoreCache s.
Proof.
  destruct (push_filters_fields filters s) as (_ & _ & _ & H). exact H.
Qed.

(** X2.  [addFilters] leaves the decision cache alone: once a path has been
    decided, the same decision is returned after any filters are added, for
    every path with the same root-relative name, on whatever filesystem. *)
Theorem cached_decision_survives_addFilters s fs p root filters fs' p' root' :
  relative root' p' = relative root p ->
  fst (shouldInclude mm fs' p' root' (addFilters filters (snd (shouldInclude mm fs p root s))))
  = fst (shouldInclude mm fs p root s).
Proof.
  intros Hrel. unfold shouldInclude at 1. rewrite Hrel, addFilters_cache, shouldInclude_caches.
  reflexivity.
Qed.

End FilterLists.

Lemma insert_by_sorted {A} (prio : A -> Z) (x : A) (l : list A) :
  sorted_desc prio l -> sorted_desc prio (insert_by (by_priority_desc prio) x l).
Proof.
  unfold sorted_desc. induction 1 as [|y l Hl IH Hy]; simpl.
  - repeat constructor.
  - unfold by_priority_desc at 1. destruct (prio y - prio x <=? 0)%Z eqn:E.
    + apply Z.leb_le in E. constructor; [constructor; assumption|].
      constructor; [lia|]. eapply List.Forall_impl; [|exact Hy]. intros z Hz. simpl in Hz. lia.
    + apply Z.leb_gt in E. constructor; [exact IH|].
      apply List.Forall_forall. intros z Hz. apply In_insert_by in Hz as [->|Hz]; [lia|].
      rewrite List.Forall_forall in Hy. apply Hy, Hz.
Qed.

Lemma sort_by_sorted {A} (prio : A -> Z) (l : list A) :
  sorted_desc prio (sort_by (by_priority_desc prio) l).
Proof.
  induction l as [|x l IH]; simpl; [constructor|]. apply insert_by_sorted, IH.
Qed.

Lemma insert_by_Permutation {A} (cmp : A -> A -> Z) (x : A) (l : list A) :
  Permutation (insert_by cmp x l) (x :: l).
Proof.
  induction l as [|y l IH]; simpl; [reflexivity|].
  destruct (cmp x y <=? 0)%Z; [reflexivity|].
  rewrite IH. apply Permutation_swap.
Qed.

Lemma sort_by_Permutation {A} (cmp : A -> A -> Z) (l : list A) :
  Permutation (sort_by cmp l) l.
Proof.
  induction l as [|x l IH]; simpl; [reflexivity|].
  rewrite insert_by_Permutation, IH. reflexivity.
Qed.

(** X4.  After [addIgnoreRules] the rules are sorted by descending priority
    and are the old rules and the new ones, nothing lost or invented; after
    [addFilters] both filter lists are sorted by descending priority and
    together hold the old filters and the new ones. *)
Theorem added_rules_are_kept_sorted rules filters (s : FileFilterSystem) :
  (sorted_desc r_priority (ignoreRules (addIgnoreRules rules s)) /\
   Permutation (ignoreRules (addIgnoreRules rules s)) (ignoreRules s ++ rules)) /\
  (sorted_desc f_priority (includeFilters (addFilters filters s)) /\
   sorted_desc f_priority (excludeFilters (addFilters filters s)) /\
   Permutation (includeFilters (addFilters filters s) ++ excludeFilters (addFilters filters s))
               (includeFilters s ++ excludeFilters s ++ filters)).
Proof.
  split; [split|split; [|split]].
  - apply sort_by_sorted.
  - apply sort_by_Permutation.
  - apply sort_by_sorted.
  - apply sort_by_sorted.
  - destruct (push_filters_fields filters s) as (H1 & H2 & _).
    unfold addFilters. cbn [includeFilters excludeFilters].
    rewrite !sort_by_Permutation, H1, H2.
    assert (Hsplit : Permutation
              (List.filter (fun f => bool_decide (f_action f = Include)) filters
               ++ List.filter (fun f => bool_decide (f_action f = Exclude)) filters) filters).
    { clear. induction filters as [|f l IH]; simpl; [reflexivity|].
      destruct (f_action f); simpl.
      - constructor. exact IH.
      - rewrite <- Permutation_middle. constructor. exact IH. }
    transitivity (includeFilters s ++ excludeFilters s
                  ++ (List.filter (fun f => bool_decide (f_action f = Include)) filters
                      ++ List.filter (fun f => bool_decide (f_action f = Exclude)) filters)).
    + rewrite <- !app_assoc. apply Permutation_app_head.
      rewrite !app_assoc. apply Permutation_app_tail. apply Permutation_app_comm.
    + apply Permutation_app_head, Permutation_app_head, Hsplit.
Qed.

Lemma sort_by_length {A} (cmp : A -> A -> Z) (l : list A) : length (sort_by cmp l) = length l.
Proof. apply Permutation_length, sort_by_Permutation. Qed.

(** X5.  Importing what was just exported does not give back the same
    lists: [importConfig] resets to the defaults and then adds the exported
    entries, which already contain them.  In every state reached from the
    constructor by [addFilters] and [addIgnoreRules], the ignore rules grow
    by the 44 default rules, the include filters by the 6 default ones, the
    exclude filters by the 5 default ones, and the cache is empty. *)
Theorem export_import_doubles_the_defaults config adds :
  let s := after_adds config adds in
  let s' := importConfig (exportConfig s) s in
  length (ignoreRules s') = 44 + length (ignoreRules s) /\
  length (includeFilters s') = 6 + length (includeFilters s) /\
  length (excludeFilters s') = 5 + length (excludeFilters s) /\
  ignoreCache s' = ∅.
Proof.
  intros s s'.
  destruct (importConfig_exportConfig_fields s (add_invariant_after_adds config adds))
    as (H1 & H2 & H3 & H4).
  fold s' in H1, H2, H3, H4. rewrite H2, H3, H4, !sort_by_length, !length_app.
  repeat split; auto.
Qed.

(** ** Ignore files; the detector registry: detection order and lookup *)

(** X6.  [loadGitignore] does nothing when [.gitignore] cannot be read.
    When it can, the cache is cleared, the filters are untouched, and the
    ignore rules are the old ones and those of the file.  The file gives
    one rule for each of its lines that, once trimmed, is neither empty nor
    starts with [#], in the order of the lines: the pattern is the trimmed
    line, the priority 6, and the description ["From .gitignore: "]
    followed by the pattern. *)
Theorem loadGitignore_adds_the_listed_patterns fs rootPath (s : FileFilterSystem) :
  (fs_readFile fs (join rootPath ".gitignore") = None -> loadGitignore fs rootPath s = s) /\
  (forall content,
     fs_readFile fs (join rootPath ".gitignore") = Some content ->
     ignoreCache (loadGitignore fs rootPath s) = ∅ /\
     includeFilters (loadGitignore fs rootPath s) = includeFilters s /\
     excludeFilters (loadGitignore fs rootPath s) = excludeFilters s /\
     Permutation (ignoreRules (loadGitignore fs rootPath s))
                 (ignoreRules s ++ gitignoreRules content)) /\
  (forall content,
     map r_pattern (gitignoreRules content)
       = List.filter (fun line => negb (String.eqb line "")
                                  && negb (starts_with_char "#"%char line))
                     (map trim (split_lines content)) /\
     Forall (fun r => r_priority r = 6%Z /\
                      r_description r = "From .gitignore: " +:+ r_pattern r)
            (gitignoreRules content)).
Proof.
  split; [|split].
  - intros H. unfold loadGitignore. rewrite H. reflexivity.
  - intros content H. unfold loadGitignore. rewrite H.
    unfold addIgnoreRules. cbn [clearCache ignoreCache includeFilters excludeFilters ignoreRules].
    repeat split; try reflexivity. apply sort_by_Permutation.
  - intros content. unfold gitignoreRules. split.
    + rewrite map_map. cbn [gitignore_rule r_pattern]. rewrite map_id. reflexivity.
    + apply List.Forall_forall. intros r Hr. apply in_map_iff in Hr as (line & <- & _).
      split; reflexivity.
Qed.

(** X7.  With the built-in registry every detector that matches scores 100,
    so the detected type follows registration order: JavaScript if the
    JavaScript detector matches, else Python, else Go, else unknown.
    TypeScript is never the answer. *)
Theorem builtin_detection_order fs path :
  detectProjectType fs path new_DetectorManager
  = (if matches JavaScriptProjectDetector fs path then JAVASCRIPT
     else if matches PythonProjectDetector fs path then PYTHON
     else if matches GoProjectDetector fs path then GO
     else UNKNOWN) /\
  Forall (fun td => calculateConfidence fs path (fst td) (snd td) = 100%Z)
         (detectors new_DetectorManager).
Proof.
  split.
  - unfold detectProjectType, matches. rewrite default_registry. cbn [detectionResults].
    rewrite !calculateConfidence_ignores_disk.
    destruct (detect JavaScriptProjectDetector fs path) as [[|]|];
    destruct (detect PythonProjectDetector fs path) as [[|]|];
    destruct (detect GoProjectDetector fs path) as [[|]|]; reflexivity.
  - rewrite default_registry. repeat constructor.
Qed.

Lemma detectionResults_sound fs path m r :
  In r (detectionResults fs path m) ->
  exists d, In (det_type r, d) m /\ detect d fs path = Ok true /\
            det_confidence r = calculateConfidence fs path (det_type r) d.
Proof.
  induction m as [|[t d] m IH]; simpl; [tauto|].
  destruct (detect d fs path) as [[|]|] eqn:E.
  - intros [<-|H].
    + exists d. auto.
    + destruct (IH H) as (d' & H1 & H2). eauto.
  - intros H. destruct (IH H) as (d' & H1 & H2). eauto.
  - intros H. destruct (IH H) as (d' & H1 & H2). eauto.
Qed.

Lemma detectionResults_nil fs path m :
  detectionResults fs path m = [] <->
  Forall (fun td => detect (snd td) fs path <> Ok true) m.
Proof.
  induction m as [|[t d] m IH]; simpl.
  - split; auto.
  - destruct (detect d fs path) as [[|]|] eqn:E.
    + split; [discriminate|]. intros H. inversion H; subst. simpl in *. congruence.
    + rewrite IH. split; intros H; [constructor; [simpl; congruence|exact H]|inversion H; auto].
    + rewrite IH. split; intros H; [constructor; [simpl; congruence|exact H]|inversion H; auto].
Qed.

(** X8.  For any registry, [detectProjectType] answers [UNKNOWN] exactly
    when no detector matches; otherwise the answer is the type of a
    registered detector that matches, and no matching entry of the registry
    scores higher. *)
Theorem detected_type_belongs_to_a_matching_detector fs path (m : DetectorManager) :
  (Forall (fun td => detect (snd td) fs path <> Ok true) (detectors m) /\
   detectProjectType fs path m = UNKNOWN) \/
  (exists d, In (detectProjectType fs path m, d) (detectors m) /\
             detect d fs path = Ok true /\
             Forall (fun td => detect (snd td) fs path = Ok true ->
                               (calculateConfidence fs path (fst td) (snd td)
                                <= calculateConfidence fs path (detectProjectType fs path m) d)%Z)
                    (detectors m)).
Proof.
  unfold detectProjectType.
  destruct (detectionResults fs path (detectors m)) as [|r0 rs] eqn:E.
  - left. split; [apply detectionResults_nil, E|reflexivity].
  - right. cbn [length Nat.eqb]. rewrite <- E.
    pose proof (sort_by_Permutation by_confidence_desc (detectionResults fs path (detectors m))) as HP.
    pose proof (sort_by_sorted det_confidence (detectionResults fs path (detectors m))) as HS.
    change (by_priority_desc det_confidence) with by_confidence_desc in HS.
    destruct (sort_by by_confidence_desc (detectionResults fs path (detectors m)))
      as [|best tl] eqn:Es.
    { apply Permutation_nil in HP. rewrite E in HP. discriminate. }
    assert (Hin : In best (detectionResults fs path (detectors m))).
    { apply (Permutation_in best HP). left. reflexivity. }
    destruct (detectionResults_sound fs path _ best Hin) as (d & H1 & H2 & H3).
    exists d. split; [exact H1|]. split; [exact H2|].
    rewrite <- H3. apply List.Forall_forall. intros [t' d'] Htd Hm. cbn [fst snd] in *.
    assert (Hr : In (mkDetection t' (calculateConfidence fs path t' d'))
                    (detectionResults fs path (detectors m))).
    { clear -Htd Hm. induction (detectors m) as [|[t d] l IH]; [destruct Htd|].
      simpl. destruct Htd as [[= -> ->]|Htd].
      - rewrite Hm. left. reflexivity.
      - destruct (detect d fs path) as [[|]|]; [right|idtac|idtac]; apply IH, Htd. }
    apply (Permutation_in _ (Permutation_sym HP)) in Hr.
    destruct Hr as [Hb|Hr]; [rewrite Hb; simpl; lia|].
    inversion HS as [|? ? _ Hall]; subst. rewrite List.Forall_forall in Hall.
    apply (Hall _ Hr).
Qed.

Lemma scanDirectory_unbound_records_nothing fs budget : forall cur acc,
  modules (scanDirectory None fs budget cur acc) = modules acc.
Proof.
  induction budget as [|b IH]; intros cur acc; [reflexivity|].
  cbn [scanDirectory].
  destruct (fs_readdir fs cur) as [entries|]; [|reflexivity].
  set (acc1 := mkDiscovery (modules acc) (listed acc ++ [cur])).
  change (modules acc) with (modules acc1). generalize acc1. clear acc1.
  induction entries as [|entry rest IHe]; intros acc1; [reflexivity|].
  destruct (d_isDirectory entry && negb (is_hidden (d_name entry))); [reflexivity|].
  apply IHe.
Qed.

(** X9.  [findModules] returns the empty list on every filesystem: the
    nested [scanDirectory] is called plainly, so [this.isModuleRoot] throws
    at the first visible subdirectory, the [catch] ends the loop, and
    nothing is ever pushed. *)
Theorem findModules_finds_nothing fs rootPath maxDepth (m : DetectorManager) :
  findModules fs rootPath maxDepth m = [].
Proof. unfold findModules, findModules_with. apply scanDirectory_unbound_records_nothing. Qed.

(** X10.  The registry behaves as a map in insertion order: a registered
    detector is the one looked up, other types are unaffected; an
    unregistered type is absent, other types are unaffected; registering a
    type that is present keeps the order of the types, registering a new one
    appends it. *)
Theorem registry_lookup_laws (t t' : ProjectType) (d : ModuleDetector) (m : DetectorManager) :
  getDetector t (registerDetector t d m) = Some d /\
  (t' <> t -> getDetector t' (registerDetector t d m) = getDetector t' m) /\
  getDetector t (unregisterDetector t m) = None /\
  (t' <> t -> getDetector t' (unregisterDetector t m) = getDetector t' m) /\
  (In t (map fst (detectors m)) ->
   map fst (detectors (registerDetector t d m)) = map fst (detectors m)) /\
  (~ In t (map fst (detectors m)) ->
   detectors (registerDetector t d m) = detectors m ++ [(t, d)]).
Proof.
  destruct m as [reg]. unfold getDetector, registerDetector, unregisterDetector.
  cbn [detectors]. repeat split.
  - induction reg as [|[k v] reg IH]; simpl.
    + destruct (decide (t = t)); congruence.
    + destruct (decide (k = t)) as [->|Hne]; simpl.
      * destruct (decide (t = t)); congruence.
      * destruct (decide (k = t)); [contradiction|exact IH].
  - intros Hne. induction reg as [|[k v] reg IH]; simpl.
    + destruct (decide (t = t')); congruence.
    + destruct (decide (k = t)) as [->|Hk]; simpl.
      * destruct (decide (t = t')); [congruence|reflexivity].
      * destruct (decide (k = t')); [reflexivity|exact IH].
  - induction reg as [|[k v] reg IH]; simpl; [reflexivity|].
    destruct (bool_decide (k = t)) eqn:E; simpl.
    + exact IH.
    + apply bool_decide_eq_false in E. destruct (decide (k = t)); [contradiction|exact IH].
  - intros Hne. induction reg as [|[k v] reg IH]; simpl; [reflexivity|].
    destruct (bool_decide (k = t)) eqn:E; simpl.
    + apply bool_decide_eq_true in E. subst k.
      destruct (decide (t = t')); [congruence|exact IH].
    + destruct (decide (k = t')); [reflexivity|exact IH].
  - induction reg as [|[k v] reg IH]; simpl; [tauto|].
    intros [<-|Hin].
    + destruct (decide (k = k)); [reflexivity|congruence].
    + destruct (decide (k = t)) as [->|Hne]; simpl; [reflexivity|]. f_equal. apply IH, Hin.
  - induction reg as [|[k v] reg IH]; simpl; [reflexivity|].
    intros Hnot. destruct (decide (k = t)) as [->|Hne]; [tauto|].
    f_equal. apply IH. tauto.
Qed.

(** ** The scan orchestrator: records, errors, finalization *)

Section PhaseRecords.
Variable clock : nat -> Z.
Variables pq pm pd : Path -> M unit.

(** X11.  [scanPhase] leaves the phase record in one of two final states.
    If the phase implementation returns, the record is returned with status
    [completed].  If it throws, the record has status [failed] and carries
    the message, and [scanPhase] throws: the same exception when a listener
    is attached to ['error'], the error of [emit] when none is.  Either way
    the duration is the end time minus the start time read on entry, and the
    scan result is as the implementation left it. *)
Theorem scanPhase_record_lifecycle ph path s :
  let started := snd (phase_entry clock ph path s) in
  match scanPhase clock pq pm pd ph path s with
  | (Ok rec, s') =>
      rec = record s' /\ status rec = completed /\
      duration rec = (endTime rec - clock (ticks s))%Z /\
      exists s2, dispatch pq pm pd ph path started = (Ok tt, s2) /\
                 scanResult s' = scanResult s2
  | (Throw e', s') =>
      exists e s2,
        dispatch pq pm pd ph path started = (Throw e, s2) /\
        e' = (if (errorListeners s2 =? 0)%nat then ERR_UNHANDLED_ERROR else e) /\
        status (record s') = failed /\ error (record s') = Some (exn_message e) /\
        duration (record s') = (endTime (record s') - clock (ticks s))%Z /\
        scanResult s' = scanResult s2
  end.
Proof.
  intros started. unfold scanPhase. rewrite run_bind.
  destruct (phase_entry_ok clock ph path s) as (t0 & s1 & E1 & ->).
  subst started. rewrite E1. cbn [snd].
  unfold try_catch. rewrite run_bind.
  destruct (dispatch pq pm pd ph path s1) as [[[]|e] s2] eqn:Ed.
  - destruct (phase_success_run clock ph (clock (ticks s)) s2) as (r & s3 & E3 & H1 & H2 & H3 & H4).
    rewrite E3. repeat split; auto. exists s2. auto.
  - rewrite run_bind.
    destruct (phase_failure_run clock ph (clock (ticks s)) e s2)
      as (s3 & E3 & H1 & H2 & H3 & H4 & _).
    rewrite E3.
    destruct (errorListeners s2 =? 0)%nat eqn:El; cbn [throw]; exists e, s2; rewrite El;
      repeat split; auto.
Qed.

(** X12.  [handleError] never returns.  It first emits one ['error']
    event.  With a listener attached to ['error'] it then throws a
    [ScanError]: the given error itself when that is one, otherwise a new
    one with message ["Scan failed: "] followed by the original message,
    code [SCAN_ERROR], the root path of the scan and the phase.  With no
    listener attached it is left by the error of [emit] instead.  The scan
    result is left alone. *)
Theorem handleError_always_throws (e : Exn) (ph : option ScanPhase) (s : Scanner) :
  exists e' s',
    handleError clock e ph s = (Throw e', s') /\
    (errorListeners s = 0 -> e' = ERR_UNHANDLED_ERROR) /\
    (errorListeners s <> 0 ->
     is_ScanError e' = true /\
     (is_ScanError e = true -> e' = e) /\
     (is_ScanError e = false ->
      e' = ScanErr ("Scan failed: " +:+ exn_message e) "SCAN_ERROR"
                   (Some (rootPath (scanResult s))) ph)) /\
    scanResult s' = scanResult s /\
    map ev_data (events s') = map ev_data (events s) ++ [ev_error e ph].
Proof.
  unfold handleError. rewrite run_bind, emitEvent_run. cbn [is_error_event andb].
  destruct (errorListeners s) as [|n] eqn:El; cbn [Nat.eqb].
  - eexists _, _. split; [reflexivity|].
    cbn [scanResult with_events with_ticks events]. rewrite map_app.
    split; [reflexivity|]. split; [intros Hn; contradiction|]. split; reflexivity.
  - destruct e as [m c p q|m]; cbn [is_ScanError]; eexists _, _;
      (split; [reflexivity|]); cbn [scanResult with_events with_ticks events];
      rewrite map_app;
      (split; [discriminate|]);
      (split; [intros _; split; [reflexivity|]; split; intros Hs;
                 first [reflexivity | discriminate Hs]
              |split; reflexivity]).
Qed.
End PhaseRecords.

(** X13.  [shouldStopScan] changes nothing, and it never returns [true]:
    below both limits it returns [false], otherwise it throws a [ScanError]
    with code [FILE_LIMIT_EXCEEDED] or [MEMORY_LIMIT_EXCEEDED], the root
    path and the current phase. *)
Theorem shouldStopScan_throws_or_returns_false (s : Scanner) :
  snd (shouldStopScan s) = s /\
  (limits_not_reached s -> fst (shouldStopScan s) = Ok false) /\
  (~ limits_not_reached s ->
   exists msg code,
     fst (shouldStopScan s)
       = Throw (ScanErr msg code (Some (rootPath (scanResult s))) (currentPhase s)) /\
     (code = "FILE_LIMIT_EXCEEDED" \/ code = "MEMORY_LIMIT_EXCEEDED")).
Proof.
  split; [apply shouldStopScan_state|]. split.
  - intros H. rewrite (shouldStopScan_ok s H). reflexivity.
  - unfold limits_not_reached, shouldStopScan. rewrite run_bind. cbn [get].
    destruct (performanceLimits (config s)) as [l|]; [|tauto].
    intros Hn.
    destruct (maxFiles l <=? totalFiles (scanStatistics (scanResult s)))%Z eqn:E1.
    { eexists _, _. split; [reflexivity|]. left. reflexivity. }
    destruct (memoryLimit l <=? fileSize (scanStatistics (scanResult s)))%Z eqn:E2.
    { eexists _, _. split; [reflexivity|]. right. reflexivity. }
    exfalso. apply Hn. apply Z.leb_gt in E1. apply Z.leb_gt in E2. auto.
Qed.

Lemma finalizeScan_explicit (s : Scanner) :
  finalizeScan s = (Ok tt, with_scanResult (finalized (scanResult s)) s).
Proof. reflexivity. Qed.

Lemma finalized_idempotent (r : ProjectScanResult) : finalized (finalized r) = finalized r.
Proof.
  destruct r as [rp pt ms [tf sf igf mf sd fsz loc cov] sp recs].
  unfold finalized.
  cbn [scanStatistics scanPhases set_scanDuration totalFiles scannedFiles ignoredFiles
       modulesFound scanDuration fileSize linesOfCode coverage].
  destruct (0 <? tf)%Z eqn:E;
    cbn [with_statistics with_recommendations set_coverage set_scanDuration scanStatistics
         scanPhases totalFiles scannedFiles ignoredFiles modulesFound scanDuration fileSize
         linesOfCode coverage rootPath projectType sr_modules recommendations];
    rewrite E;
    cbn [with_statistics with_recommendations set_coverage set_scanDuration scanStatistics
         scanPhases totalFiles scannedFiles ignoredFiles modulesFound scanDuration fileSize
         linesOfCode coverage rootPath projectType sr_modules recommendations];
    reflexivity.
Qed.

(** X14.  [finalizeScan] is idempotent, and the recommendations it leaves
    do not depend on the recommendations it finds. *)
Theorem finalizeScan_is_idempotent (s : Scanner) :
  snd (finalizeScan (snd (finalizeScan s))) = snd (finalizeScan s) /\
  forall recs,
    recommendations (scanResult (snd (finalizeScan
        (with_scanResult (with_recommendations recs (scanResult s)) s))))
    = recommendations (scanResult (snd (finalizeScan s))).
Proof.
  split.
  - rewrite !finalizeScan_explicit. cbn [snd scanResult with_scanResult].
    rewrite finalized_idempotent. destruct s; reflexivity.
  - intros recs. rewrite !finalizeScan_explicit. reflexivity.
Qed.

(** ** The quick scanner: statistics and failure *)

Lemma coverage_of_bounds (scanned total : Z) :
  (0 <= scanned <= total)%Z -> (0 < total)%Z ->
  (0 <= coverage_of scanned total)%Q /\ (coverage_of scanned total <= 100)%Q.
Proof.
  intros [H0 H1] Ht. unfold coverage_of.
  assert (Hq : (0 < inject_Z total)%Q).
  { change 0%Q with (inject_Z 0). rewrite <- Zlt_Qlt. exact Ht. }
  assert (Hlo : (0 <= inject_Z scanned / inject_Z total)%Q).
  { apply Qle_shift_div_l; [exact Hq|]. rewrite Qmult_0_l.
    change 0%Q with (inject_Z 0). rewrite <- Zle_Qle. exact H0. }
  assert (Hhi : (inject_Z scanned / inject_Z total <= 1)%Q).
  { apply Qle_shift_div_r; [exact Hq|]. rewrite Qmult_1_l.
    rewrite <- Zle_Qle. exact H1. }
  split.
  - apply Qmult_le_0_compat; [exact Hlo|discriminate].
  - assert (H100 : (100 == 1 * 100)%Q) by reflexivity.
    rewrite H100. apply Qmult_le_compat_r; [exact Hhi|discriminate].
Qed.

Section QuickStatistics.
Variable mm : string -> string -> option bool.
Variable fs : FileSystem.
Variable clock : nat -> Z.
Variable nested : bool.

(** X15.  A quick phase that starts below the limits completes, and its
    statistics are consistent: scanned files are between zero and the total,
    ignored files are the difference, the module count is the number of
    modules in the result, and the record counts the total.  With at least
    one file the coverage is the scanned share in percent, between 0 and
    100; with no file the coverage is the one the scanner held before.  File
    size and scan duration are not touched. *)
Theorem quick_phase_statistics path s :
  limits_not_reached s ->
  exists s',
    performQuickScan mm fs clock nested path s = (Ok tt, s') /\
    let st := scanStatistics (scanResult s') in
    (0 <= scannedFiles st <= totalFiles st)%Z /\
    ignoredFiles st = (totalFiles st - scannedFiles st)%Z /\
    modulesFound st = Z.of_nat (length (sr_modules (scanResult s'))) /\
    filesProcessed (record s') = totalFiles st /\
    ((0 < totalFiles st)%Z ->
     coverage st = coverage_of (scannedFiles st) (totalFiles st) /\
     (0 <= coverage st)%Q /\ (coverage st <= 100)%Q) /\
    (totalFiles st = 0%Z -> coverage st = coverage (scanStatistics (scanResult s))) /\
    fileSize st = fileSize (scanStatistics (scanResult s)) /\
    scanDuration st = scanDuration (scanStatistics (scanResult s)).
Proof.
  intros Hl.
  destruct (performQuickScan_completes mm clock nested fs path s Hl)
    as (s' & files & kept & infos & E & Hsub & _ & Hres & _ & _ & Hfp).
  exists s'. split; [exact E|]. rewrite Hres. unfold quick_result.
  cbn [scanStatistics with_recommendations sr_modules totalFiles scannedFiles ignoredFiles
       modulesFound coverage fileSize scanDuration].
  pose proof (sublist_length _ _ Hsub) as Hlen.
  split; [lia|]. split; [reflexivity|]. split; [reflexivity|]. split; [exact Hfp|].
  split; [|split; [|split; reflexivity]].
  - intros Hpos. assert (Hb : (0 <? Z.of_nat (length files))%Z = true) by (apply Z.ltb_lt, Hpos).
    rewrite Hb. split; [reflexivity|]. apply coverage_of_bounds; [lia|exact Hpos].
  - intros H0. rewrite H0. reflexivity.
Qed.

(** X16.  Every module a quick phase reports has a type other than
    [UNKNOWN], namely the one [detectProjectType] gives for its path, and
    that path is a module root; its name is the last component of the path,
    and its documents, dependencies and entry points are empty. *)
Theorem quick_modules_are_classified path s :
  limits_not_reached s ->
  exists s',
    performQuickScan mm fs clock nested path s = (Ok tt, s') /\
    Forall (fun m => mi_type m <> UNKNOWN /\
                     mi_type m = detectProjectType fs (mi_path m) (detectorManager s) /\
                     isModuleRoot fs (mi_path m) (detectorManager s) = true /\
                     mi_name m = extractModuleName (mi_path m) /\
                     docs m = [] /\ dependencies m = [] /\ entryPoints m = [])
           (sr_modules (scanResult s')).
Proof.
  intros Hl.
  destruct (performQuickScan_completes mm clock nested fs path s Hl)
    as (s' & files & kept & infos & E & _ & Hinfos & Hres & _).
  exists s'. split; [exact E|]. rewrite Hres. unfold quick_result.
  cbn [with_recommendations sr_modules].
  eapply List.Forall_impl; [|exact Hinfos].
  intros m (_ & H2 & H3 & H4 & H5 & H6 & H7). repeat split; auto.
  unfold isModuleRoot. rewrite <- H2. apply negb_true_iff, bool_decide_eq_false, H3.
Qed.

(** X17.  When the configuration has performance limits whose depth limit
    is not negative, and the statistics the scanner holds already reach the
    file limit, a quick phase fails before it lists anything: it throws a
    [ScanError] with code [QUICK_SCAN_FAILED] for phase [QUICK], whose
    message wraps the message of the limit error, and the scan result is
    unchanged.  (Under a negative depth limit the traversal returns before
    it tests the file limit.) *)
Theorem quick_phase_fails_when_the_limit_is_already_reached path s limits :
  performanceLimits (config s) = Some limits ->
  (maxFiles limits <= totalFiles (scanStatistics (scanResult s)))%Z ->
  (0 <= maxDepth limits)%Z ->
  exists s',
    performQuickScan mm fs clock nested path s
      = (Throw (ScanErr ("快速扫描失败: " +:+ "Maximum file limit reached: "
                           +:+ pretty (maxFiles limits))
                        "QUICK_SCAN_FAILED" (Some path) (Some QUICK)), s') /\
    scanResult s' = scanResult s.
Proof.
  intros Hlim Hmax Hdepth. unfold performQuickScan.
  rewrite run_bind. cbn [now].
  set (sa := with_ticks (S (ticks s)) s).
  rewrite run_bind.
  destruct (reportProgress_run clock 0 100 "开始快速扫描..." sa) as (sb & Eb & Kb & _).
  rewrite Eb. rewrite run_bind. unfold try_catch at 1.
  rewrite run_bind. unfold fileFilter_loadGitignore at 1. cbn [modify].
  set (s1 := with_fileFilter _ sb).
  assert (K1 : kernel s1 = kernel s) by (transitivity (kernel sb); [reflexivity|exact Kb]).
  destruct (kernel_fields s s1 K1) as (Hc1 & Hr1 & Hp1 & _).
  rewrite run_bind. unfold quickTraverseDirectory at 1.
  rewrite run_bind. cbn [modify]. rewrite run_bind. cbn [get].
  set (s2 := with_locals [] 0 s1).
  assert (Hc2 : config s2 = config s) by exact Hc1.
  assert (Hr2 : scanResult s2 = scanResult s) by exact Hr1.
  assert (Hb : exists b, Z.to_nat (configured_maxDepth (config s2) + 1) = S b).
  { rewrite Hc2. unfold configured_maxDepth. rewrite Hlim.
    destruct (maxDepth limits =? 0)%Z eqn:E0.
    - exists 10. reflexivity.
    - exists (Z.to_nat (maxDepth limits)). lia. }
  destruct Hb as [b ->].
  rewrite run_bind. cbn [traverseDirectory]. rewrite run_bind. cbn [this_shouldStopScan].
  unfold shouldStopScan at 1. rewrite run_bind. cbn [get].
  rewrite Hc2, Hlim, Hr2.
  apply Z.leb_le in Hmax. rewrite Hmax. cbn [throw exn_message].
  eexists. split; [reflexivity|]. exact Hr1.
Qed.
End QuickStatistics.

(** ** The quick scanner: a whole scan *)

Lemma scan_entry_run clock path opts s :
  exists s1, scan_entry clock path opts s = (Ok tt, s1) /\
    config s1 = config s /\ detectorManager s1 = detectorManager s /\
    scanResult s1 = with_rootPath path (scanResult s).
Proof.
  unfold scan_entry. rewrite run_bind. cbn [modify]. rewrite run_bind.
  cbn [modify_result modify]. rewrite emitEvent_run.
  eexists. split; [reflexivity|]. repeat split.
Qed.

Lemma at_dispatch_fields clock ph path s :
  config (at_dispatch clock ph path s) = config s /\
  detectorManager (at_dispatch clock ph path s) = detectorManager s /\
  scanResult (at_dispatch clock ph path s) = scanResult s.
Proof.
  unfold at_dispatch, phase_entry. rewrite run_bind. cbn [now].
  rewrite run_bind. cbn [modify]. rewrite run_bind, emitEvent_run.
  rewrite run_bind. cbn [now]. rewrite run_bind. cbn [modify].
  cbn [snd mret M_ret]. repeat split.
Qed.

Lemma limits_not_reached_fields s s' :
  config s' = config s ->
  totalFiles (scanStatistics (scanResult s')) = totalFiles (scanStatistics (scanResult s)) ->
  fileSize (scanStatistics (scanResult s')) = fileSize (scanStatistics (scanResult s)) ->
  limits_not_reached s -> limits_not_reached s'.
Proof. unfold limits_not_reached. intros -> -> ->. auto. Qed.



Lemma phase_success_frame clock ph t0 s :
  exists r s', phase_success clock ph t0 s = (Ok r, s') /\
    status r = completed /\
    scanResult s' = scanResult s /\ detectorManager s' = detectorManager s /\
    config s' = config s /\ errorListeners s' = errorListeners s.
Proof. eexists _, _. split; [reflexivity|]. cbn. repeat split; reflexivity. Qed.

Section WholeScan.
Variable clock : nat -> Z.
Variables pq pm pd : Path -> M unit.

(** One completed turn of the loop: the record of the phase is appended to
    the result the implementation left. *)
Lemma scan_loop_completed_turn path ph s s2 :
  dispatch pq pm pd ph path (at_dispatch clock ph path s) = (Ok tt, s2) ->
  exists s3 rec,
    scan_loop clock pq pm pd path [ph] s = (Ok tt, s3) /\
    status rec = completed /\
    scanResult s3 = with_scanPhases (scanPhases (scanResult s2) ++ [rec]) (scanResult s2) /\
    detectorManager s3 = detectorManager s2 /\ config s3 = config s2 /\
    errorListeners s3 = errorListeners s2.
Proof.
  intros Hd. cbn [scan_loop]. rewrite run_bind.
  unfold try_catch at 1. rewrite run_bind. cbn [modify].
  rewrite run_bind. unfold scanPhase at 1. rewrite run_bind.
  unfold at_dispatch in Hd.
  destruct (phase_entry_ok clock ph path (with_currentPhase (Some ph) s)) as (t0 & s1 & E1 & Ht0).
  rewrite E1 in Hd |- *. cbn [snd] in Hd.
  unfold try_catch at 1. rewrite run_bind, Hd.
  destruct (phase_success_frame clock ph t0 s2) as (r & s3 & E3 & Hst & Hres & Hdm & Hcf & Hls).
  rewrite E3. rewrite run_bind. cbn [modify_result modify].
  eexists _, r. split; [reflexivity|]. split; [exact Hst|].
  cbn [scanResult with_scanResult detectorManager config errorListeners]. rewrite Hres.
  split; [reflexivity|]. repeat split; assumption.
Qed.


Lemma scan_run_ok path opts s entered s1 :
  scan_entry clock path opts s = (Ok tt, entered) ->
  scan_loop clock pq pm pd path (requested_phases opts) entered = (Ok tt, s1) ->
  exists s', scan clock pq pm pd path opts s = (Ok (finalized (scanResult s1)), s') /\
             scanResult s' = finalized (scanResult s1).
Proof.
  intros He Hloop. unfold scan. rewrite run_bind, He, run_bind, Hloop.
  rewrite run_bind, finalizeScan_explicit.
  rewrite run_bind. cbn [get]. rewrite run_bind, emitEvent_run. rewrite run_bind. cbn [get].
  eexists. split; reflexivity.
Qed.



End WholeScan.

Lemma final_recommendations_ext (r r' : ProjectScanResult) :
  coverage (scanStatistics r) = coverage (scanStatistics r') ->
  sr_modules r = sr_modules r' ->
  final_recommendations r = final_recommendations r'.
Proof. unfold final_recommendations. intros -> ->. reflexivity. Qed.

Lemma recommendations_finalized (r : ProjectScanResult) :
  recommendations (finalized r) = final_recommendations (finalized r).
Proof.
  unfold finalized at 1. cbv zeta. cbn [recommendations with_recommendations].
  apply final_recommendations_ext; reflexivity.
Qed.




Lemma keeps_same {A} (m : M A) : (forall s, snd (m s) = s) -> keeps_listeners m.
Proof. intros H s. rewrite H. reflexivity. Qed.

Section QuickWholeScan.
Variable mm : string -> string -> option bool.
Variable fs : FileSystem.
Variable clock : nat -> Z.
Variable nested : bool.





Lemma limits_reach_dispatch path opts s s1 ph :
  scan_entry clock path opts s = (Ok tt, s1) ->
  limits_not_reached s -> limits_not_reached (at_dispatch clock ph path s1).
Proof.
  intros He.
  destruct (scan_entry_run clock path opts s) as (s1' & He' & Hc & _ & Hr).
  rewrite He in He'. injection He' as <-.
  destruct (at_dispatch_fields clock ph path s1) as (Hc' & _ & Hr').
  apply limits_not_reached_fields.
  - congruence.
  - rewrite Hr', Hr. reflexivity.
  - rewrite Hr', Hr. reflexivity.
Qed.


(** X19.  A [QuickScanner] below the limits that is asked for the quick
    phase alone returns a result for the given root with one more phase
    record.  The recommendations returned are those of
    [generateRecommendations], not those of the quick phase: at most the
    low-coverage advice and the advice to add documentation, and the latter
    names every module found, since the quick analysis records no
    documents. *)
Theorem quick_only_scan_advises_documentation path s :
  limits_not_reached s ->
  exists r s',
    QuickScanner_scan mm fs clock nested path (mkOptions (Some [QUICK])) s = (Ok r, s') /\
    r = scanResult s' /\
    rootPath r = path /\
    length (scanPhases r) = S (length (scanPhases (scanResult s))) /\
    recommendations r = final_recommendations r /\
    Forall (fun m => docs m = []) (sr_modules r) /\
    (sr_modules r <> [] -> In (add_docs_recommendation (sr_modules r)) (recommendations r)) /\
    (forall rec, In rec (recommendations r) ->
       rec = low_coverage_recommendation \/ rec = add_docs_recommendation (sr_modules r)).
Proof.
  intros Hl.
  destruct (scan_entry_run clock path (mkOptions (Some [QUICK])) s)
    as (entered & He & Hc & Hdm & Hr).
  pose proof (limits_reach_dispatch path _ s entered QUICK He Hl) as Hl'.
  destruct (performQuickScan_completes mm clock nested fs path _ Hl')
    as (s2 & files & kept & infos & E & _ & Hinfos & Hres & _).
  destruct (scan_loop_completed_turn clock (performQuickScan mm fs clock nested)
              performModuleScan performDeepScan path QUICK
              entered s2 E) as (s3 & rec & E3 & _ & Hr3 & _).
  destruct (scan_run_ok clock (performQuickScan mm fs clock nested)
              performModuleScan performDeepScan path (mkOptions (Some [QUICK])) s entered s3
              He E3) as (s' & Es & Hs').
  exists (finalized (scanResult s3)), s'. split; [exact Es|].
  split; [symmetry; exact Hs'|].
  destruct (at_dispatch_fields clock QUICK path entered) as (_ & _ & Hrd).
  assert (Hmods : sr_modules (finalized (scanResult s3)) = infos).
  { rewrite Hr3, Hres. reflexivity. }
  assert (Hroot : rootPath (finalized (scanResult s3)) = path).
  { rewrite Hr3, Hres, Hrd, Hr. reflexivity. }
  assert (Hphases : length (scanPhases (finalized (scanResult s3)))
                    = S (length (scanPhases (scanResult s)))).
  { rewrite Hr3, Hres, Hrd, Hr. unfold finalized, quick_result.
    cbn [scanPhases with_statistics with_recommendations with_scanPhases with_rootPath].
    rewrite length_app. cbn [length]. lia. }
  assert (Hdocs : Forall (fun m => docs m = []) infos).
  { eapply List.Forall_impl; [|exact Hinfos]. intros m (_ & _ & _ & _ & H & _). exact H. }
  assert (Hfilter : List.filter (fun m => (length (docs m) =? 0)%nat) infos = infos).
  { apply filter_all_true. eapply List.Forall_impl; [|exact Hdocs].
    intros m Hm. cbv beta. rewrite Hm. reflexivity. }
  assert (Hrecs : recommendations (finalized (scanResult s3))
                  = final_recommendations (finalized (scanResult s3))).
  { apply recommendations_finalized. }
  split; [exact Hroot|]. split; [exact Hphases|].
  split; [exact Hrecs|]. rewrite Hmods. split; [exact Hdocs|].
  rewrite Hrecs. unfold final_recommendations. rewrite Hmods, Hfilter.
  split.
  - intros Hne. destruct infos as [|i infos]; [contradiction|].
    change (0 <? length (i :: infos))%nat with true. cbv iota.
    apply in_or_app. right. left. reflexivity.
  - intros rc Hin.
    destruct (coverage_below 50 _); destruct (0 <? length infos)%nat; cbn [app In] in Hin;
      intuition.
Qed.
End QuickWholeScan.

(** ** The quick scanner: which files are enumerated *)

Lemma this_shouldStopScan_state this s : snd (this_shouldStopScan this s) = s.
Proof.
  destruct this; cbn [this_shouldStopScan]; [apply shouldStopScan_state|reflexivity].
Qed.

Lemma this_shouldStopScan_never_true this s s' : this_shouldStopScan this s <> (Ok true, s').
Proof.
  destruct this; cbn [this_shouldStopScan]; [apply shouldStopScan_never_true|discriminate].
Qed.

Lemma app_eq_self {A} (l x : list A) : l ++ x = l -> x = [].
Proof.
  intros H. apply (app_inv_head l). rewrite app_nil_r. exact H.
Qed.

Section Traversal.
Variable fs : FileSystem.
Variable clock : nat -> Z.
Variable nested : bool.

Lemma push_file_allFiles this p s :
  allFiles (snd (push_file clock this p s)) = allFiles s ++ [p].
Proof.
  unfold push_file. rewrite run_bind. cbn [modify]. rewrite run_bind. cbn [get].
  destruct (_ =? 0)%Z; [|reflexivity].
  rewrite run_bind. cbn [modify_record modify].
  destruct this; cbn [this_reportProgress]; [|reflexivity].
  match goal with |- context [reportProgress clock ?c ?t ?m ?s0] =>
    destruct (reportProgress_run clock c t m s0) as (s' & E & _ & _ & _ & K) end.
  rewrite E. cbn [snd]. rewrite K. reflexivity.
Qed.

Lemma push_file_run p s :
  exists s', push_file clock true p s = (Ok tt, s') /\ kernel s' = kernel s /\
             allFiles s' = allFiles s ++ [p].
Proof.
  pose proof (push_file_allFiles true p s) as Ha.
  pose proof (push_file_kernel clock true p s) as Hk.
  assert (Hok : fst (push_file clock true p s) = Ok tt).
  { unfold push_file. rewrite run_bind. cbn [modify]. rewrite run_bind. cbn [get].
    destruct (_ =? 0)%Z; [|reflexivity].
    rewrite run_bind. cbn [modify_record modify this_reportProgress].
    match goal with |- context [reportProgress clock ?c ?t ?m ?s0] =>
      destruct (reportProgress_run clock c t m s0) as (s' & E & _) end.
    rewrite E. reflexivity. }
  destruct (push_file clock true p s) as [r s']. cbn [fst snd] in *. subst r.
  exists s'. auto.
Qed.

Lemma traverse_entries_appends (P : Path -> Prop) recurse this root cur entries :
  (forall entry, In entry entries -> d_isDirectory entry = false ->
     is_hidden (d_name entry) && negb (bool_decide (cur = root)) = false ->
     P (join cur (d_name entry))) ->
  (forall entry s, In entry entries -> d_isDirectory entry = true ->
     is_hidden (d_name entry) && negb (bool_decide (cur = root)) = false ->
     exists added, allFiles (snd (recurse (join cur (d_name entry)) s)) = allFiles s ++ added /\
                   Forall P added) ->
  forall s, exists added,
    allFiles (snd (traverse_entries clock recurse this root cur entries s)) = allFiles s ++ added /\
    Forall P added.
Proof.
  induction entries as [|entry rest IHe]; intros Hf Hd s.
  { exists []. rewrite app_nil_r. split; [reflexivity|constructor]. }
  assert (IH : forall s, exists added,
    allFiles (snd (traverse_entries clock recurse this root cur rest s)) = allFiles s ++ added /\
    Forall P added).
  { apply IHe.
    - intros e He. apply Hf. right. exact He.
    - intros e s0 He. apply Hd. right. exact He. }
  cbn [traverse_entries]. rewrite run_bind.
  pose proof (this_shouldStopScan_state this s) as K2.
  destruct (this_shouldStopScan this s) as [[[|]|e] s2]; cbn [snd] in K2; subst s2;
    try (exists []; rewrite app_nil_r; split; [reflexivity|constructor]).
  destruct (is_hidden (d_name entry) && negb (bool_decide (cur = root))) eqn:Eh.
  { apply IH. }
  cbv zeta. destruct (d_isDirectory entry) eqn:Ed; rewrite run_bind.
  - destruct (Hd entry s (or_introl eq_refl) Ed Eh) as (a1 & E1 & F1).
    destruct (recurse (join cur (d_name entry)) s) as [[[]|e] s3]; cbn [snd] in E1.
    + destruct (IH s3) as (a2 & E2 & F2). exists (a1 ++ a2).
      rewrite E2, E1, app_assoc. split; [reflexivity|]. apply Forall_app. auto.
    + exists a1. cbn [snd]. auto.
  - pose proof (push_file_allFiles this (join cur (d_name entry)) s) as E1.
    pose proof (Hf entry (or_introl eq_refl) Ed Eh) as F1.
    destruct (push_file clock this (join cur (d_name entry)) s) as [[[]|e] s3]; cbn [snd] in E1.
    + destruct (IH s3) as (a2 & E2 & F2). exists (join cur (d_name entry) :: a2).
      rewrite E2, E1, <- app_assoc. split; [reflexivity|]. constructor; auto.
    + exists [join cur (d_name entry)]. cbn [snd]. split; [exact E1|]. constructor; auto.
Qed.

Lemma below_deeper root pre name budget p :
  below root (pre ++ [name]) budget p -> below root pre (S budget) p.
Proof.
  intros (names & -> & Hne & Hlen & Hh). exists (name :: names).
  rewrite <- !app_assoc in *. cbn [app] in *.
  split; [reflexivity|]. split; [discriminate|]. split; [cbn [length]; lia|exact Hh].
Qed.

Lemma traverseDirectory_appends budget : forall this root pre s,
  Forall (fun n => is_hidden n = false) (tail pre) ->
  exists added,
    allFiles (snd (traverseDirectory fs clock nested this root budget (root ++ pre) s))
      = allFiles s ++ added /\
    Forall (below root pre budget) added.
Proof.
  induction budget as [|b IH]; intros this root pre s Hpre.
  { exists []. rewrite app_nil_r. split; [reflexivity|constructor]. }
  cbn [traverseDirectory]. rewrite run_bind.
  pose proof (this_shouldStopScan_state this s) as K0.
  destruct (this_shouldStopScan this s) as [[[|]|e] s0]; cbn [snd] in K0; subst s0;
    try (exists []; rewrite app_nil_r; split; [reflexivity|constructor]).
  unfold try_catch. rewrite run_bind. unfold readdir.
  destruct (fs_readdir fs (root ++ pre)) as [entries|];
    [|exists []; rewrite app_nil_r; split; [reflexivity|constructor]].
  cbn [mret M_ret].
  assert (Hname : forall entry,
            is_hidden (d_name entry) && negb (bool_decide (root ++ pre = root)) = false ->
            Forall (fun n => is_hidden n = false) (tail (pre ++ [d_name entry]))).
  { intros entry Eh. destruct pre as [|x pre']; [constructor|].
    cbn [app tail] in *. apply Forall_app. split; [exact Hpre|].
    constructor; [|constructor].
    apply andb_false_iff in Eh. destruct Eh as [Eh|Eh]; [exact Eh|].
    apply negb_false_iff, bool_decide_eq_true in Eh. apply app_eq_self in Eh. discriminate. }
  destruct (traverse_entries_appends (below root pre (S b))
              (traverseDirectory fs clock nested nested root b) this root (root ++ pre) entries)
    with (s := s) as (added & E & F).
  - intros entry _ _ Eh. exists [d_name entry].
    split; [unfold join; rewrite <- app_assoc; reflexivity|].
    split; [discriminate|]. split; [cbn [length]; lia|]. apply Hname, Eh.
  - intros entry s1 _ _ Eh. unfold join. rewrite <- app_assoc.
    destruct (IH nested root (pre ++ [d_name entry]) s1 (Hname entry Eh)) as (added & E & F).
    exists added. split; [exact E|].
    eapply List.Forall_impl; [|exact F]. intros p. apply below_deeper.
  - exists added.
    destruct (traverse_entries clock _ this root (root ++ pre) entries s) as [[[]|e] s1];
      cbn [snd mret M_ret] in *; auto.
Qed.

(** X20.  Whatever receiver the nested function sees, every path that
    [quickTraverseDirectory] returns lies strictly below the root, at most
    [maxDepth + 1] components down, and only its first component below the
    root may start with a dot. *)
Theorem quick_traversal_lists_paths_below_the_root root s files s' :
  quickTraverseDirectory fs clock nested root s = (Ok files, s') ->
  Forall (fun p => exists names,
            p = root ++ names /\ names <> [] /\
            (Z.of_nat (length names) <= configured_maxDepth (config s) + 1)%Z /\
            Forall (fun n => is_hidden n = false) (tail names)) files.
Proof.
  unfold quickTraverseDirectory. rewrite run_bind. cbn [modify]. rewrite run_bind. cbn [get].
  set (s0 := with_locals [] 0 s).
  change (config s0) with (config s).
  set (budget := Z.to_nat (configured_maxDepth (config s) + 1)).
  rewrite run_bind.
  destruct (traverseDirectory_appends budget true root [] s0 (List.Forall_nil _)) as (added & E & F).
  rewrite app_nil_r in E.
  destruct (traverseDirectory fs clock nested true root budget root s0) as [[[]|e] s1];
    [|discriminate].
  cbn [snd] in E. rewrite run_bind. cbn [get mret M_ret]. intros [= <- <-].
  rewrite E. cbn [allFiles s0 with_locals app].
  eapply List.Forall_impl; [|exact F].
  intros p (names & -> & Hne & Hlen & Hh). exists names. cbn [app] in *.
  split; [reflexivity|]. split; [exact Hne|]. split; [|exact Hh].
  destruct names as [|n names]; [contradiction|]. cbn [length] in *. lia.
Qed.

Lemma traverse_entries_stops recurse root entries :
  (forall p s1, exists e, recurse p s1 = (Throw e, s1)) ->
  forall s, limits_not_reached s ->
  exists r s',
    traverse_entries clock recurse true root root entries s = (r, s') /\
    kernel s' = kernel s /\
    allFiles s' = allFiles s ++ map (fun entry => join root (d_name entry)) (leading_files entries).
Proof.
  intros Hrec. induction entries as [|entry rest IHe]; intros s Hl.
  { eexists _, _. split; [reflexivity|]. rewrite app_nil_r. split; reflexivity. }
  cbn [traverse_entries]. rewrite run_bind. cbn [this_shouldStopScan].
  rewrite (shouldStopScan_ok s Hl).
  rewrite (bool_decide_eq_true_2 _ (eq_refl root)). cbn [negb]. rewrite andb_false_r.
  cbv zeta. cbn [leading_files]. destruct (d_isDirectory entry); rewrite run_bind.
  - destruct (Hrec (join root (d_name entry)) s) as [e ->]. cbn [map].
    eexists _, _. split; [reflexivity|]. rewrite app_nil_r. split; reflexivity.
  - destruct (push_file_run (join root (d_name entry)) s) as (s1 & E1 & K1 & A1).
    rewrite E1.
    destruct (IHe s1 (limits_not_reached_kernel s s1 K1 Hl)) as (r & s' & E & K & A).
    exists r, s'. split; [exact E|]. split; [congruence|].
    rewrite A, A1, <- app_assoc. reflexivity.
Qed.

(** X21.  As written, the recursive call of [traverseDirectory] is a plain
    call, so [this.shouldStopScan] throws inside it and the [catch] of the
    caller ends the enumeration.  With a depth limit of at least one and the
    scanner below its limits, [quickTraverseDirectory] returns the entries of
    the root that precede its first subdirectory, and nothing else. *)
Theorem quick_traversal_stops_at_the_first_subdirectory root s entries :
  limits_not_reached s ->
  (1 <= configured_maxDepth (config s))%Z ->
  fs_readdir fs root = Some entries ->
  exists s',
    quickTraverseDirectory fs clock false root s
      = (Ok (map (fun entry => join root (d_name entry)) (leading_files entries)), s').
Proof.
  intros Hl Hdepth Hdir.
  unfold quickTraverseDirectory. rewrite run_bind. cbn [modify]. rewrite run_bind. cbn [get].
  set (s0 := with_locals [] 0 s).
  change (config s0) with (config s).
  assert (Hb : exists b, Z.to_nat (configured_maxDepth (config s) + 1) = S (S b)).
  { exists (Z.to_nat (configured_maxDepth (config s) - 1)). lia. }
  destruct Hb as [b ->].
  assert (Hl0 : limits_not_reached s0) by exact Hl.
  rewrite run_bind.
  change (traverseDirectory fs clock false true root (S (S b)) root s0)
    with ((stop ← this_shouldStopScan true;
           if stop : bool then mret tt else
           try_catch
             (entries ← readdir fs root;
              traverse_entries clock (traverseDirectory fs clock false false root (S b)) true
                               root root entries)
             (fun _ => mret tt)) s0).
  rewrite run_bind. cbn [this_shouldStopScan].
  rewrite (shouldStopScan_ok s0 Hl0).
  unfold try_catch. rewrite run_bind. unfold readdir. rewrite Hdir. cbn [mret M_ret].
  destruct (traverse_entries_stops (traverseDirectory fs clock false false root (S b))
              root entries) with (s := s0) as (r & s1 & E & _ & A).
  { intros p s1. eexists. reflexivity. }
  { exact Hl0. }
  rewrite E.
  destruct r as [[]|e]; cbn [mret M_ret]; rewrite run_bind; cbn [get mret M_ret]; rewrite A;
    eexists; reflexivity.
Qed.
End Traversal.

Lemma quick_traversal_lists_paths_below_the_root_witness :
  Forall (fun p => exists names,
            p = ["repo"] ++ names /\ names <> [] /\
            (Z.of_nat (length names) <= 11)%Z /\
            Forall (fun n => is_hidden n = false) (tail names))
         [["repo"; "LICENSE"]; ["repo"; "NOTES"]].
Proof.
  apply (quick_traversal_lists_paths_below_the_root plain_repo example_clock false ["repo"]
           (new_QuickScanner None) _
           (snd (quickTraverseDirectory plain_repo example_clock false ["repo"]
                   (new_QuickScanner None)))).
  vm_compute. reflexivity.
Defined.

Lemma quick_traversal_stops_at_the_first_subdirectory_witness :
  exists s',
    quickTraverseDirectory nested_repo example_clock false ["repo"] (new_QuickScanner None)
      = (Ok [["repo"; "LICENSE"]], s').
Proof.
  apply (quick_traversal_stops_at_the_first_subdirectory nested_repo example_clock ["repo"]
           (new_QuickScanner None)
           [mkDirent "LICENSE" false true; mkDirent "src" true false; mkDirent "NOTES" false true]).
  - vm_compute. split; reflexivity.
  - vm_compute. discriminate.
  - vm_compute. reflexivity.
Defined.

(** ** The one-call entry point: which files are enumerated *)

Lemma foldl_appends {B} (P : Path -> Prop) (step : list Path -> B -> list Path) entries :
  (forall acc e, In e entries -> exists added, step acc e = acc ++ added /\ Forall P added) ->
  forall acc, exists added, foldl step acc entries = acc ++ added /\ Forall P added.
Proof.
  induction entries as [|e rest IH]; intros Hstep acc.
  { exists []. rewrite app_nil_r. split; [reflexivity|constructor]. }
  cbn [foldl].
  destruct (Hstep acc e (or_introl eq_refl)) as (a1 & -> & F1).
  destruct (IH (fun acc e' He => Hstep acc e' (or_intror He)) (acc ++ a1)) as (a2 & -> & F2).
  exists (a1 ++ a2). rewrite app_assoc. split; [reflexivity|]. apply Forall_app. auto.
Qed.

Lemma foldl_keeps {B} (step : list Path -> B -> list Path) entries p :
  (forall acc e, exists added, step acc e = acc ++ added) ->
  forall acc, In p acc -> In p (foldl step acc entries).
Proof.
  intros Hstep. induction entries as [|e rest IH]; intros acc Hin; [exact Hin|].
  cbn [foldl]. apply IH. destruct (Hstep acc e) as [added ->]. apply in_or_app. auto.
Qed.

Lemma foldl_reaches {B} (step : list Path -> B -> list Path) entries e p :
  (forall acc e, exists added, step acc e = acc ++ added) ->
  In e entries -> (forall acc, In p (step acc e)) ->
  forall acc, In p (foldl step acc entries).
Proof.
  intros Hstep. induction entries as [|e' rest IH]; intros Hin Hp acc; [destruct Hin|].
  cbn [foldl]. destruct Hin as [->|Hin].
  - apply foldl_keeps; [exact Hstep|apply Hp].
  - apply IH; assumption.
Qed.

Section InitTraversal.
Variable fs : FileSystem.

Lemma Init_traverseDirectory_appends budget : forall root pre acc,
  Forall (fun n => is_hidden n = false) (tail pre) ->
  exists added,
    Init.traverseDirectory fs root budget (root ++ pre) acc = acc ++ added /\
    Forall (below root pre budget) added.
Proof.
  induction budget as [|b IH]; intros root pre acc Hpre.
  { exists []. rewrite app_nil_r. split; [reflexivity|constructor]. }
  cbn [Init.traverseDirectory].
  destruct (fs_readdir fs (root ++ pre)) as [entries|];
    [|exists []; rewrite app_nil_r; split; [reflexivity|constructor]].
  apply foldl_appends. intros acc1 entry _. cbv beta.
  destruct (is_hidden (d_name entry) && _) eqn:Eh.
  { exists []. rewrite app_nil_r. split; [reflexivity|constructor]. }
  assert (Hname : Forall (fun n => is_hidden n = false) (tail (pre ++ [d_name entry]))).
  { destruct pre as [|x pre']; [constructor|].
    cbn [app tail] in *. apply Forall_app. split; [exact Hpre|].
    constructor; [|constructor].
    apply andb_false_iff in Eh. destruct Eh as [Eh|Eh]; [exact Eh|].
    apply negb_false_iff, bool_decide_eq_true in Eh. apply app_eq_self in Eh. discriminate. }
  cbv zeta. unfold join. rewrite <- app_assoc. destruct (d_isDirectory entry).
  - destruct (IH root (pre ++ [d_name entry]) acc1 Hname) as (added & E & F).
    exists added. split; [exact E|].
    eapply List.Forall_impl; [|exact F]. intros p. apply below_deeper.
  - exists [root ++ pre ++ [d_name entry]]. split; [reflexivity|].
    constructor; [|constructor]. exists [d_name entry].
    split; [reflexivity|]. split; [discriminate|]. split; [cbn [length]; lia|exact Hname].
Qed.

Lemma Init_traverseDirectory_grows budget root cur acc :
  exists added, Init.traverseDirectory fs root budget cur acc = acc ++ added.
Proof.
  revert cur acc. induction budget as [|b IH]; intros cur acc.
  { exists []. rewrite app_nil_r. reflexivity. }
  cbn [Init.traverseDirectory].
  destruct (fs_readdir fs cur) as [entries|]; [|exists []; rewrite app_nil_r; reflexivity].
  destruct (foldl_appends (fun _ => True)
              (fun allFiles entry =>
                 if is_hidden (d_name entry) && negb (bool_decide (cur = root)) then allFiles
                 else if d_isDirectory entry
                      then Init.traverseDirectory fs root b (join cur (d_name entry)) allFiles
                      else allFiles ++ [join cur (d_name entry)]) entries) with (acc := acc)
    as (added & E & _).
  - intros acc1 e _. cbv beta. destruct (is_hidden (d_name e) && _).
    + exists []. rewrite app_nil_r. split; [reflexivity|constructor].
    + destruct (d_isDirectory e).
      * destruct (IH (join cur (d_name e)) acc1) as [added ->]. exists added.
        split; [reflexivity|]. apply List.Forall_forall. auto.
      * eexists. split; [reflexivity|]. apply List.Forall_forall. auto.
  - exists added. exact E.
Qed.

Lemma Init_traverseDirectory_complete root names : forall cur budget acc,
  visible_file fs root cur names ->
  length names <= budget ->
  In (cur ++ names) (Init.traverseDirectory fs root budget cur acc).
Proof.
  induction names as [|name rest IH]; intros cur budget acc Hv Hlen; [destruct Hv|].
  destruct budget as [|b]; [cbn [length] in Hlen; lia|].
  cbn [visible_file] in Hv.
  destruct Hv as (entries & entry & Hdir & Hin & Hn & Hvis & Hrest).
  cbn [Init.traverseDirectory]. rewrite Hdir.
  apply (foldl_reaches _ entries entry); [|exact Hin|].
  - intros acc1 e. cbv beta. destruct (is_hidden (d_name e) && _).
    + exists []. rewrite app_nil_r. reflexivity.
    + cbv zeta. destruct (d_isDirectory e).
      * apply Init_traverseDirectory_grows.
      * eexists. reflexivity.
  - intros acc1. cbv beta. rewrite Hn, Hvis. cbv zeta.
    destruct rest as [|name' rest'].
    + rewrite Hrest. apply in_or_app. right. left. reflexivity.
    + destruct Hrest as [Hd Hv']. rewrite Hd.
      change (cur ++ name :: name' :: rest') with (cur ++ [name] ++ name' :: rest').
      rewrite app_assoc. apply IH; [exact Hv'|cbn [length] in *; lia].
Qed.

(** X22.  [scanFiles] is sound and complete for the visible files.  Every
    path it returns lies strictly below the root, at most [maxDepth + 1]
    components down, with no hidden component after the first; and every
    file that can be reached from the root through listed directories,
    hidden names being allowed at the root only, within that depth, is
    returned. *)
Theorem scanFiles_lists_the_visible_files root maxDepth :
  Forall (fun p => exists names,
            p = root ++ names /\ names <> [] /\
            (Z.of_nat (length names) <= maxDepth + 1)%Z /\
            Forall (fun n => is_hidden n = false) (tail names))
         (Init.scanFiles fs root maxDepth) /\
  (forall names,
     visible_file fs root root names ->
     (Z.of_nat (length names) <= maxDepth + 1)%Z ->
     In (root ++ names) (Init.scanFiles fs root maxDepth)).
Proof.
  unfold Init.scanFiles. split.
  - destruct (Init_traverseDirectory_appends (Z.to_nat (maxDepth + 1)) root [] []
                (List.Forall_nil _)) as (added & E & F).
    rewrite app_nil_r in E. rewrite E. cbn [app].
    eapply List.Forall_impl; [|exact F].
    intros p (names & -> & Hne & Hlen & Hh). exists names. cbn [app] in *.
    split; [reflexivity|]. split; [exact Hne|]. split; [|exact Hh].
    destruct names as [|n names]; [contradiction|]. cbn [length] in *. lia.
  - intros names Hv Hlen. apply Init_traverseDirectory_complete; [exact Hv|lia].
Qed.
End InitTraversal.

(** ** The one-call entry point: the result of a scan *)

Lemma foldl_Forall {A B} (P : A -> Prop) (Q : B -> Prop) (step : list A -> B -> list A) l :
  (forall acc e, Q e -> Forall P acc -> Forall P (step acc e)) ->
  Forall Q l -> forall acc, Forall P acc -> Forall P (foldl step acc l).
Proof.
  intros Hstep. induction 1 as [|e l He _ IH]; intros acc Hacc; [exact Hacc|].
  cbn [foldl]. apply IH, Hstep; assumption.
Qed.

Section InitScan.
Variable mm : string -> string -> option bool.
Variable fs : FileSystem.

Lemma indicatorFiles_sound files :
  Forall (fun f => In f files /\ In (Init.fileName f) Init.moduleIndicatorNames)
         (Init.indicatorFiles files).
Proof.
  unfold Init.indicatorFiles.
  apply (foldl_Forall _ (fun f => In f files)).
  - intros acc f Hf Hacc.
    destruct (includes (Init.fileName f) Init.moduleIndicatorNames) eqn:E; [|exact Hacc].
    unfold set_add. destruct (bool_decide (f ∈ acc)); [exact Hacc|].
    apply Forall_app. split; [exact Hacc|]. constructor; [|constructor].
    split; [exact Hf|]. unfold includes in E. apply existsb_exists in E as (x & Hx & Ex).
    apply String.eqb_eq in Ex. subst x. exact Hx.
  - apply List.Forall_forall. auto.
  - constructor.
Qed.

Lemma identifyModules_sound files root this :
  Forall (fun m => Init.type m <> UNKNOWN /\
                   Init.type m = detectProjectType fs (Init.path m) (Init.detectorManager this) /\
                   Init.name m = extractModuleName (Init.path m) /\
                   exists file, In file files /\
                                In (Init.fileName file) Init.moduleIndicatorNames /\
                                Init.path m = Init.dirname file)
         (Init.identifyModules fs files root this).
Proof.
  unfold Init.identifyModules.
  eapply foldl_Forall; [|apply indicatorFiles_sound|constructor].
  intros acc f [Hf Hn] Hacc. cbv beta zeta.
  destruct (bool_decide _) eqn:E; [|exact Hacc].
  apply bool_decide_eq_true in E.
  apply Forall_app. split; [exact Hacc|]. constructor; [|constructor].
  cbn [Init.type Init.path Init.name]. repeat split; auto.
  exists f. auto.
Qed.

(** The percentage of 23 files kept out of 160: the quotient times 100 is
    14.374999999999998 in binary64, which rounds to 14.37. *)
Example coverage_of_23_in_160 :
  PrimFloat.div
    (Init.Math_round
       (PrimFloat.mul
          (PrimFloat.mul (PrimFloat.div (Init.number 23) (Init.number 160)) (Init.number 100))
          (Init.number 100)))
    (Init.number 100)
  = PrimFloat.div (Init.number 1437) (Init.number 100).
Proof. vm_compute. reflexivity. Qed.

(** X23.  The statistics of [scanOnly]: the total is the number of files
    [scanFiles] lists, scanned files are between zero and the total, the
    module count is the number of modules returned, the duration is the
    difference of the two clock readings.  The coverage is the binary64
    value [Math.round(c * 100) / 100], where [c] is 0 when the total is 0
    and [(scannedFiles / totalFiles) * 100] otherwise, all operations being
    those of binary64.  When no file is listed, no module is returned, the
    coverage is 0, and the recommendations hold both the no-module and the
    low-coverage entry. *)
Theorem scanOnly_statistics projectPath options startTime endTime this :
  let r := fst (Init.scanOnly mm fs projectPath options startTime endTime this) in
  let st := Init.statistics r in
  Init.totalFiles st
    = Z.of_nat (length (Init.scanFiles fs projectPath (Init.requested_maxDepth options))) /\
  (0 <= Init.scannedFiles st <= Init.totalFiles st)%Z /\
  Init.modulesFound st = Z.of_nat (length (Init.modules r)) /\
  Init.scanDuration st = (endTime - startTime)%Z /\
  Init.coverage st
    = PrimFloat.div
        (Init.Math_round
           (PrimFloat.mul
              (if (0 <? Init.totalFiles st)%Z
               then PrimFloat.mul
                      (PrimFloat.div (Init.number (Init.scannedFiles st))
                                     (Init.number (Init.totalFiles st)))
                      (Init.number 100)
               else Init.number 0)
              (Init.number 100)))
        (Init.number 100) /\
  (Init.totalFiles st = 0%Z ->
   Init.modules r = [] /\
   Init.scannedFiles st = 0%Z /\
   Init.coverage st = Init.number 0 /\
   In Init.no_modules_recommendation (Init.recommendations r) /\
   In (Init.coverage_recommendation (Init.number 0)) (Init.recommendations r)).
Proof.
  assert (Hround : PrimFloat.div (Init.Math_round (PrimFloat.mul (Init.number 0)
                                                                 (Init.number 100)))
                                 (Init.number 100) = Init.number 0)
    by (vm_compute; reflexivity).
  assert (Hlt : PrimFloat.ltb (Init.number 0) (Init.number 50) = true)
    by (vm_compute; reflexivity).
  unfold Init.scanOnly. cbv zeta.
  cbn [Init.detectorManager Init.fileFilter].
  set (files := Init.scanFiles fs projectPath (Init.requested_maxDepth options)).
  pose proof (filterFiles_sublist mm fs files projectPath
                (loadGitignore fs projectPath (Init.fileFilter this))) as Hsub.
  destruct (filterFiles mm fs files projectPath
              (loadGitignore fs projectPath (Init.fileFilter this))) as [kept f].
  cbn [fst] in Hsub.
  cbn [fst Init.statistics Init.modules Init.totalFiles Init.scannedFiles Init.modulesFound
       Init.coverage Init.scanDuration Init.recommendations].
  pose proof (sublist_length _ _ Hsub) as Hlen.
  split; [reflexivity|]. split; [lia|]. split; [reflexivity|]. split; [reflexivity|].
  split.
  { replace (0 <? Z.of_nat (length files))%Z with (0 <? length files)%nat; [reflexivity|].
    destruct (Nat.ltb_spec 0 (length files)), (Z.ltb_spec 0 (Z.of_nat (length files)));
      first [reflexivity | lia]. }
  intros H0. destruct files as [|x files]; [|cbn [length] in H0; lia].
  apply sublist_nil_r in Hsub. subst kept.
  cbn [length Nat.ltb Nat.leb]. rewrite Hround.
  unfold Init.identifyModules, Init.indicatorFiles. cbn [foldl].
  unfold Init.generateRecommendations. cbn [length Nat.eqb app]. rewrite Hlt.
  split; [reflexivity|]. split; [reflexivity|]. split; [reflexivity|].
  destruct (bool_decide _); cbn [app In]; auto.
Qed.

(** X24.  [scanOnly] keeps its detector registry.  Every module it returns
    has a type other than [UNKNOWN], the one detected for its path; the path
    is the directory of a listed file named [package.json], [go.mod],
    [pyproject.toml] or [Cargo.toml], and the name is its last component.
    The no-module recommendation is present exactly when no module is
    returned, the unknown-type one exactly when the type of the project path
    is unknown. *)
Theorem scanOnly_modules projectPath options startTime endTime this :
  let r := fst (Init.scanOnly mm fs projectPath options startTime endTime this) in
  let this' := snd (Init.scanOnly mm fs projectPath options startTime endTime this) in
  Init.detectorManager this' = Init.detectorManager this /\
  Forall (fun m =>
            Init.type m <> UNKNOWN /\
            Init.type m = detectProjectType fs (Init.path m) (Init.detectorManager this) /\
            Init.name m = extractModuleName (Init.path m) /\
            exists file,
              In file (Init.scanFiles fs projectPath (Init.requested_maxDepth options)) /\
              In (Init.fileName file) Init.moduleIndicatorNames /\
              Init.path m = Init.dirname file)
         (Init.modules r) /\
  (In Init.no_modules_recommendation (Init.recommendations r) <-> Init.modules r = []) /\
  (In Init.unknown_type_recommendation (Init.recommendations r)
     <-> detectProjectType fs projectPath (Init.detectorManager this) = UNKNOWN).
Proof.
  unfold Init.scanOnly. cbv zeta.
  cbn [Init.detectorManager Init.fileFilter].
  set (files := Init.scanFiles fs projectPath (Init.requested_maxDepth options)).
  pose proof (filterFiles_sublist mm fs files projectPath
                (loadGitignore fs projectPath (Init.fileFilter this))) as Hsub.
  destruct (filterFiles mm fs files projectPath
              (loadGitignore fs projectPath (Init.fileFilter this))) as [kept f].
  cbn [fst snd] in *.
  cbn [Init.detectorManager Init.modules Init.recommendations].
  split; [reflexivity|]. split.
  - pose proof (identifyModules_sound kept projectPath
                  (Init.mkInit (Init.detectorManager this) f)) as H.
    eapply List.Forall_impl; [|exact H].
    cbn [Init.detectorManager].
    intros m (H1 & H2 & H3 & file & H4 & H5 & H6). repeat split; auto.
    exists file. repeat split; auto.
    apply list_elem_of_In. apply (elem_of_sublist kept files file); [|exact Hsub].
    apply list_elem_of_In. exact H4.
  - set (mods := Init.identifyModules fs kept projectPath _).
    set (t := detectProjectType fs projectPath (Init.detectorManager this)).
    unfold Init.generateRecommendations.
    destruct mods as [|m mods]; cbn [length Nat.eqb];
      destruct (PrimFloat.ltb _ _); destruct (bool_decide (t = UNKNOWN)) eqn:Et;
      first [apply bool_decide_eq_true in Et | apply bool_decide_eq_false in Et];
      cbn [app In];
      unfold Init.no_modules_recommendation, Init.coverage_recommendation,
             Init.unknown_type_recommendation;
      (split; split; intros H);
      repeat match goal with
             | H : _ \/ _ |- _ => destruct H as [H|H]
             | H : False |- _ => destruct H
             | H : Init.mkRecommendation _ _ _ _ = Init.mkRecommendation _ _ _ _ |- _ =>
                 discriminate H
             end;
      try congruence; try discriminate; auto 6.
Qed.
End InitScan.

(** ** Scan configurations *)

Lemma foldl_errors_nil {A B} (step : list A -> B -> list A) (clean : B -> Prop) (l : list B) :
  (forall acc x, step acc x = [] <-> acc = [] /\ clean x) ->
  forall acc, foldl step acc l = [] <-> acc = [] /\ Forall clean l.
Proof.
  intros Hstep. induction l as [|x l IH]; intros acc; cbn [foldl].
  - split; [intros ->; split; [reflexivity|constructor]|intros [-> _]; reflexivity].
  - rewrite IH, Hstep. split.
    + intros [[-> Hx] Hl]. split; [reflexivity|constructor; assumption].
    + intros [-> H]. inversion H; subst. auto.
Qed.

Lemma push_if_nil {A} (b : bool) (e : A) (acc : list A) :
  (if b then acc ++ [e] else acc) = [] <-> acc = [] /\ b = false.
Proof.
  destruct b.
  - split; [intros H; destruct acc; discriminate|intros [_ H]; discriminate].
  - tauto.
Qed.

Lemma limit_errors_nil limits :
  ScanConfigManager.limit_errors limits = [] <-> limits_positive limits.
Proof.
  unfold ScanConfigManager.limit_errors, limits_positive.
  destruct (maxFiles limits <=? 0)%Z eqn:E1;
  destruct (maxFileSize limits <=? 0)%Z eqn:E2;
  destruct (maxDepth limits <=? 0)%Z eqn:E3;
  destruct (timeout limits <=? 0)%Z eqn:E4;
  destruct (memoryLimit limits <=? 0)%Z eqn:E5;
  cbn [app];
  first [apply Z.leb_le in E1 | apply Z.leb_gt in E1];
  first [apply Z.leb_le in E2 | apply Z.leb_gt in E2];
  first [apply Z.leb_le in E3 | apply Z.leb_gt in E3];
  first [apply Z.leb_le in E4 | apply Z.leb_gt in E4];
  first [apply Z.leb_le in E5 | apply Z.leb_gt in E5];
  (split; [intros H; try discriminate H; repeat split; assumption
          |intros (H1 & H2 & H3 & H4 & H5); try reflexivity; lia]).
Qed.

Lemma validateConfigData_valid_iff (config : ScanConfigManager.ConfigData) :
  ScanConfigManager.valid (ScanConfigManager.validateConfigData config) = true
  <-> data_well_formed config.
Proof.
  unfold ScanConfigManager.validateConfigData, data_well_formed.
  cbn [ScanConfigManager.valid]. rewrite Nat.eqb_eq, length_zero_iff_nil.
  rewrite (foldl_errors_nil _ rule_well_formed).
  2:{ intros acc r. rewrite push_if_nil. unfold rule_well_formed.
      rewrite orb_false_iff, !String.eqb_neq. reflexivity. }
  rewrite (foldl_errors_nil _ filter_data_well_formed).
  2:{ intros acc f. cbv zeta. rewrite push_if_nil, push_if_nil.
      assert (Hp : ScanConfigManager.pattern_missing (ScanConfigManager.fd_pattern f) = false
                   <-> ScanConfigManager.fd_pattern f <> Glob "").
      { destruct (ScanConfigManager.fd_pattern f) as [g|t];
          cbn [ScanConfigManager.pattern_missing].
        - rewrite String.eqb_neq. split; congruence.
        - split; [discriminate|reflexivity]. }
      unfold filter_data_well_formed, includes. cbn [existsb].
      rewrite negb_false_iff, !orb_false_iff, orb_false_r, orb_true_iff, !String.eqb_eq.
      rewrite !String.eqb_neq, Hp. split.
      - intros [[Ha [[Hn Hpat] Hne]] Hact]. auto.
      - intros (Ha & Hn & Hpat & Hact). split; [|exact Hact]. split; [exact Ha|].
        split; [split; assumption|]. intros He. rewrite He in Hact.
        destruct Hact; discriminate. }
  destruct (ScanConfigManager.cd_performanceLimits config) as [limits|].
  - rewrite limit_errors_nil. tauto.
  - tauto.
Qed.

Lemma as_data_well_formed (config : ScanConfig) :
  data_well_formed (ScanConfigManager.as_data config) <-> well_formed config.
Proof.
  unfold data_well_formed, well_formed, ScanConfigManager.as_data.
  cbn [ScanConfigManager.cd_performanceLimits ScanConfigManager.cd_fileFilters
       ScanConfigManager.cd_ignoreRules].
  rewrite List.Forall_map.
  assert (Hf : Forall (fun filter => filter_data_well_formed
                         (ScanConfigManager.mkFilterData (f_name filter) (f_pattern filter)
                            (ScanConfigManager.action_name (f_action filter))
                            (f_priority filter)))
                      (fileFilters config)
               <-> Forall filter_well_formed (fileFilters config)).
  { apply Forall_iff. intros f. unfold filter_data_well_formed, filter_well_formed.
    cbn [ScanConfigManager.fd_name ScanConfigManager.fd_pattern ScanConfigManager.fd_action].
    destruct (f_action f); cbn [ScanConfigManager.action_name]; tauto. }
  rewrite Hf. reflexivity.
Qed.

Lemma validateConfig_valid_iff (config : ScanConfig) :
  ScanConfigManager.valid (ScanConfigManager.validateConfig config) = true <-> well_formed config.
Proof.
  unfold ScanConfigManager.validateConfig.
  rewrite validateConfigData_valid_iff. apply as_data_well_formed.
Qed.

(** X26.  Every configuration the manager builds itself passes its own
    validation without an error: the default one, the three environment
    presets, and the presets for large and for small projects. *)
Theorem presets_pass_validation :
  Forall (fun config =>
            ScanConfigManager.validateConfig config = ScanConfigManager.mkValidation true [])
         [createDefault;
          ScanConfigManager.createEnvironmentConfig ScanConfigManager.development;
          ScanConfigManager.createEnvironmentConfig ScanConfigManager.production;
          ScanConfigManager.createEnvironmentConfig ScanConfigManager.test;
          ScanConfigManager.createLargeProjectConfig;
          ScanConfigManager.createSmallProjectConfig].
Proof. repeat constructor; vm_compute; reflexivity. Qed.

(** X25.  [validateConfig] reports [valid] exactly when, of the limits, if
    present, each is positive, every filter has a name, a pattern and the
    action [include] or [exclude], and every ignore rule has a pattern and a
    description; for a configuration of the type [ScanConfig] the condition
    on the action always holds.  [valid] holds exactly when no error is
    listed. *)
Theorem validateConfig_accepts_the_well_formed (config : ScanConfigManager.ConfigData) :
  (ScanConfigManager.valid (ScanConfigManager.validateConfigData config) = true
     <-> data_well_formed config) /\
  (ScanConfigManager.valid (ScanConfigManager.validateConfigData config) = true
     <-> ScanConfigManager.errors (ScanConfigManager.validateConfigData config) = []) /\
  (forall typed : ScanConfig,
     ScanConfigManager.valid (ScanConfigManager.validateConfig typed) = true
     <-> well_formed typed).
Proof.
  split; [apply validateConfigData_valid_iff|]. split; [|apply validateConfig_valid_iff].
  unfold ScanConfigManager.validateConfigData.
  cbn [ScanConfigManager.valid ScanConfigManager.errors].
  rewrite Nat.eqb_eq. apply length_zero_iff_nil.
Qed.

(** X27.  Merging a well-formed override into a configuration that
    validates gives a configuration that validates; merging the empty
    override changes nothing. *)
Theorem mergeConfigs_keeps_validity (base : ScanConfig)
    (override : ScanConfigManager.PartialScanConfig) :
  ScanConfigManager.valid (ScanConfigManager.validateConfig base) = true ->
  override_well_formed override ->
  ScanConfigManager.valid
    (ScanConfigManager.validateConfig (ScanConfigManager.mergeConfigs base override)) = true /\
  ScanConfigManager.mergeConfigs base (ScanConfigManager.mkPartial None None None) = base.
Proof.
  rewrite !validateConfig_valid_iff.
  unfold well_formed, override_well_formed, ScanConfigManager.mergeConfigs.
  cbn [performanceLimits fileFilters cfg_ignoreRules ScanConfigManager.p_performanceLimits
       ScanConfigManager.p_fileFilters ScanConfigManager.p_ignoreRules].
  intros (B1 & B2 & B3) (O1 & O2 & O3). split; [|destruct base; reflexivity].
  destruct (ScanConfigManager.p_performanceLimits override),
           (ScanConfigManager.p_fileFilters override),
           (ScanConfigManager.p_ignoreRules override); auto.
Qed.

Section ValidatedScanner.
Variable mm : string -> string -> option bool.
Variable fs : FileSystem.
Variable clock : nat -> Z.
Variable nested : bool.

Lemma new_QuickScanner_below_limits (config : ScanConfig) :
  well_formed config -> limits_not_reached (new_QuickScanner (Some config)).
Proof.
  intros (Hl & _). unfold limits_not_reached, new_QuickScanner.
  cbn [Scan.config scanResult scanStatistics initializeScanResult totalFiles fileSize].
  destruct (performanceLimits config) as [limits|]; [|exact I].
  destruct Hl as (H1 & _ & _ & _ & H5). split; assumption.
Qed.

(** X28.  A [QuickScanner] built from a configuration that validates
    completes its first quick phase, on every filesystem and for every
    path; and the depth limit it uses is the configured one. *)
Theorem validated_config_lets_the_quick_phase_complete (config : ScanConfig) (path : Path) :
  ScanConfigManager.valid (ScanConfigManager.validateConfig config) = true ->
  exists s',
    performQuickScan mm fs clock nested path (new_QuickScanner (Some config)) = (Ok tt, s') /\
    configured_maxDepth config
      = match performanceLimits config with Some limits => maxDepth limits | None => 10%Z end.
Proof.
  intros Hv. apply validateConfig_valid_iff in Hv.
  destruct (performQuickScan_completes mm clock nested fs path (new_QuickScanner (Some config))
              (new_QuickScanner_below_limits config Hv)) as (s' & _ & _ & _ & E & _).
  exists s'. split; [exact E|].
  unfold configured_maxDepth. destruct Hv as (Hl & _).
  destruct (performanceLimits config) as [limits|]; [|reflexivity].
  destruct Hl as (_ & _ & H3 & _).
  destruct (maxDepth limits =? 0)%Z eqn:E0; [|reflexivity].
  apply Z.eqb_eq in E0. lia.
Qed.
End ValidatedScanner.

(** ** The further properties at concrete inputs *)

Lemma cached_decision_survives_addFilters_witness :
  let s := new_FileFilterSystem None in
  let exclude_it := mkFilter "no licence" (Glob "LICENSE") Exclude 1 in
  fst (shouldInclude literal_minimatch plain_repo ["repo"; "LICENSE"] ["repo"]
         (addFilters [exclude_it]
            (snd (shouldInclude literal_minimatch plain_repo ["repo"; "LICENSE"] ["repo"] s))))
  = fst (shouldInclude literal_minimatch plain_repo ["repo"; "LICENSE"] ["repo"] s).
Proof.
  intros s exclude_it.
  apply (cached_decision_survives_addFilters literal_minimatch s plain_repo
           ["repo"; "LICENSE"] ["repo"] [exclude_it] plain_repo ["repo"; "LICENSE"] ["repo"]).
  reflexivity.
Defined.


Lemma quick_phase_statistics_witness :
  exists s',
    performQuickScan literal_minimatch plain_repo example_clock false ["repo"]
                     (new_QuickScanner None) = (Ok tt, s') /\
    let st := scanStatistics (scanResult s') in
    (0 <= scannedFiles st <= totalFiles st)%Z /\
    ignoredFiles st = (totalFiles st - scannedFiles st)%Z /\
    modulesFound st = Z.of_nat (length (sr_modules (scanResult s'))) /\
    filesProcessed (record s') = totalFiles st /\
    ((0 < totalFiles st)%Z ->
     coverage st = coverage_of (scannedFiles st) (totalFiles st) /\
     (0 <= coverage st)%Q /\ (coverage st <= 100)%Q) /\
    (totalFiles st = 0%Z ->
     coverage st = coverage (scanStatistics (scanResult (new_QuickScanner None)))) /\
    fileSize st = fileSize (scanStatistics (scanResult (new_QuickScanner None))) /\
    scanDuration st = scanDuration (scanStatistics (scanResult (new_QuickScanner None))).
Proof.
  apply (quick_phase_statistics literal_minimatch plain_repo example_clock false ["repo"]
           (new_QuickScanner None)).
  vm_compute. split; reflexivity.
Defined.

Lemma quick_modules_are_classified_witness :
  exists s',
    performQuickScan literal_minimatch js_fs example_clock false ["app"]
                     (new_QuickScanner None) = (Ok tt, s') /\
    Forall (fun m => mi_type m <> UNKNOWN /\
                     mi_type m = detectProjectType js_fs (mi_path m)
                                   (detectorManager (new_QuickScanner None)) /\
                     isModuleRoot js_fs (mi_path m)
                                  (detectorManager (new_QuickScanner None)) = true /\
                     mi_name m = extractModuleName (mi_path m) /\
                     docs m = [] /\ dependencies m = [] /\ entryPoints m = [])
           (sr_modules (scanResult s')).
Proof.
  apply (quick_modules_are_classified literal_minimatch js_fs example_clock false ["app"]
           (new_QuickScanner None)).
  vm_compute. split; reflexivity.
Defined.

Lemma quick_phase_fails_when_the_limit_is_already_reached_witness :
  exists s',
    performQuickScan literal_minimatch eleven_files_repo example_clock false ["repo"]
                     scanner_over_limit
      = (Throw (ScanErr ("快速扫描失败: " +:+ "Maximum file limit reached: " +:+ pretty 10%Z)
                        "QUICK_SCAN_FAILED" (Some ["repo"]) (Some QUICK)), s') /\
    scanResult s' = scanResult scanner_over_limit.
Proof.
  apply (quick_phase_fails_when_the_limit_is_already_reached literal_minimatch
           eleven_files_repo example_clock false ["repo"] scanner_over_limit
           {| maxFiles := 10; maxFileSize := 10 * 1024 * 1024; maxDepth := 10;
              timeout := 300000; memoryLimit := 512 * 1024 * 1024 |}).
  - vm_compute. reflexivity.
  - vm_compute. discriminate.
  - vm_compute. discriminate.
Defined.

Lemma quick_only_scan_advises_documentation_witness :
  exists r s',
    QuickScanner_scan literal_minimatch js_fs example_clock false ["app"]
                      (mkOptions (Some [QUICK])) (new_QuickScanner None) = (Ok r, s') /\
    r = scanResult s' /\
    rootPath r = ["app"] /\
    length (scanPhases r) = S (length (scanPhases (scanResult (new_QuickScanner None)))) /\
    recommendations r = final_recommendations r /\
    Forall (fun m => docs m = []) (sr_modules r) /\
    (sr_modules r <> [] -> In (add_docs_recommendation (sr_modules r)) (recommendations r)) /\
    (forall rec, In rec (recommendations r) ->
       rec = low_coverage_recommendation \/ rec = add_docs_recommendation (sr_modules r)).
Proof.
  apply (quick_only_scan_advises_documentation literal_minimatch js_fs example_clock
           false ["app"] (new_QuickScanner None)).
  vm_compute. split; reflexivity.
Defined.

Lemma mergeConfigs_keeps_validity_witness :
  ScanConfigManager.valid
    (ScanConfigManager.validateConfig
       (ScanConfigManager.mergeConfigs createDefault
          (ScanConfigManager.mkPartial (Some []) None None))) = true /\
  ScanConfigManager.mergeConfigs createDefault (ScanConfigManager.mkPartial None None None)
  = createDefault.
Proof.
  apply (mergeConfigs_keeps_validity createDefault
           (ScanConfigManager.mkPartial (Some []) None None)).
  - vm_compute. reflexivity.
  - split; [exact I|]. split; [constructor|exact I].
Defined.

Lemma validated_config_lets_the_quick_phase_complete_witness :
  exists s',
    performQuickScan literal_minimatch plain_repo example_clock false ["repo"]
                     (new_QuickScanner (Some createDefault)) = (Ok tt, s') /\
    configured_maxDepth createDefault
      = match performanceLimits createDefault with
        | Some limits => maxDepth limits
        | None => 10%Z
        end.
Proof.
  apply (validated_config_lets_the_quick_phase_complete literal_minimatch plain_repo
           example_clock false createDefault ["repo"]).
  vm_compute. reflexivity.
Defined.
